(** * The camera view-state logic of the virtual office scene

    Two variants of the program live in the repository: [src/main.js]
    (module [MainJs] below) and a second, near-duplicate file (module
    [Alt] below).  Both configure a rendering engine and then drive a
    camera between a wide orbit pose and a sitting pose in front of the
    monitor.  This development embeds the handlers of both files as
    functions over one explicit program state and settles the properties
    of the view-state machine on them.

    Numbers are JavaScript doubles in the source; here they are exact
    rationals ([Q]), compared with [==].  The tween engine, the orbit
    controls, the ray caster and the asset loader are external
    collaborators; each is modelled by the part of its contract the
    handlers rely on, stated where it is introduced. *)

From Stdlib Require Import QArith Qminmax Lqa List Bool String Ascii Arith Lia.
Import ListNotations.
Local Open Scope Q_scope.

(** ** Vectors ([THREE.Vector3]) *)

Record V3 : Type := mkV3 { vx : Q; vy : Q; vz : Q }.

Definition v3_eq (a b : V3) : Prop :=
  vx a == vx b /\ vy a == vy b /\ vz a == vz b.

Definition v3_eqb (a b : V3) : bool :=
  Qeq_bool (vx a) (vx b) && Qeq_bool (vy a) (vy b) && Qeq_bool (vz a) (vz b).

Infix "=v=" := v3_eq (at level 70, no associativity).

(** ** Easing curves and interpolation (the tween engine's arithmetic)

    GSAP counts its power curves from zero: [power2] is the cubic and
    [power3] the quartic.  An [inOut] curve is [(2p)^n / 2] below one half
    and [1 - (2(1-p))^n / 2] from there on; an [out] curve is
    [1 - (1-p)^n]. *)

Inductive Ease : Type := Power2InOut | Power3InOut | Power3Out.

Definition ease_at (e : Ease) (p : Q) : Q :=
  match e with
  | Power2InOut =>
      if Qle_bool (1 # 2) p
      then 1 - ((2 * (1 - p)) * (2 * (1 - p)) * (2 * (1 - p))) / 2
      else ((2 * p) * (2 * p) * (2 * p)) / 2
  | Power3InOut =>
      if Qle_bool (1 # 2) p
      then 1 - ((2 * (1 - p)) * (2 * (1 - p)) * (2 * (1 - p)) * (2 * (1 - p))) / 2
      else ((2 * p) * (2 * p) * (2 * p) * (2 * p)) / 2
  | Power3Out => 1 - (1 - p) * (1 - p) * (1 - p) * (1 - p)
  end.

(** Progress of a tween that has run for [t] seconds out of [d]. *)
Definition progress (t d : Q) : Q :=
  if Qle_bool d t then 1 else t / d.

Definition lerp (s e r : Q) : Q := s + (e - s) * r.

Definition lerp3 (s e : V3) (r : Q) : V3 :=
  mkV3 (lerp (vx s) (vx e) r) (lerp (vy s) (vy e) r) (lerp (vz s) (vz e) r).

(** ** Strings ([String.prototype.includes], [toLowerCase]) *)

Definition lower_ascii (c : ascii) : ascii :=
  let n := nat_of_ascii c in
  if (65 <=? n)%nat && (n <=? 90)%nat then ascii_of_nat (n + 32) else c.

Fixpoint toLowerCase (s : string) : string :=
  match s with
  | EmptyString => EmptyString
  | String c r => String (lower_ascii c) (toLowerCase r)
  end.

Fixpoint includes (s sub : string) : bool :=
  prefix sub s ||
  match s with
  | EmptyString => false
  | String _ r => includes r sub
  end.

(** ** Scene objects ([THREE.Object3D])

    [oid] stands for the JavaScript object identity that [===] compares;
    [uuid] is the engine's per-object identifier. *)

Record Object3D : Type := mkObj
  { oid : nat; uuid : nat; name : string; isMesh : bool }.

Definition same_object (a b : Object3D) : bool := (oid a =? oid b)%nat.

(** [Object3D.getObjectByName]: first object, in traversal order, with
    exactly that name.  A loaded asset is given as the list of its
    objects in traversal order. *)
Definition getObjectByName (root : list Object3D) (n : string) : option Object3D :=
  find (fun o => String.eqb (name o) n) root.

(** JavaScript's [a || b] on possibly-null references. *)
Definition or_else {A} (a b : option A) : option A :=
  match a with Some _ => a | None => b end.

(** ** Program state

    The module-level variables of the source, gathered in one record:
    [camera], [controls] (the orbit controls), the DOM elements the
    handlers touch, [monitorMesh], the scene graph, the tweens the
    animation engine holds, and the environment's clock. *)

Inductive Axis : Type := AxX | AxY | AxZ.

Definition get_axis (a : Axis) (v : V3) : Q :=
  match a with AxX => vx v | AxY => vy v | AxZ => vz v end.

Definition set_axis (a : Axis) (q : Q) (v : V3) : V3 :=
  match a with
  | AxX => mkV3 q (vy v) (vz v)
  | AxY => mkV3 (vx v) q (vz v)
  | AxZ => mkV3 (vx v) (vy v) q
  end.

(** [position]: [camera.position]; [look]: the point last handed to
    [camera.lookAt], which fixes the camera's orientation. *)
Record Camera : Type := mkCamera { position : V3; look : V3 }.

(** [target]: [controls.target]; [enabled]: [controls.enabled]. *)
Record Controls : Type := mkControls { target : V3; enabled : bool }.

Inductive Level : Type := LogWarn | LogError.

(** [overlay_hidden]: the overlay's class list contains [hidden];
    [hint_shown]: the hint text is displayed; [iframe_focus]: number of
    calls of [iframe.focus()]; [console]: what was logged, oldest first. *)
Record Dom : Type := mkDom
  { overlay_hidden : bool; hint_shown : bool; iframe_focus : nat;
    console : list (Level * string) }.

Inductive TweenTarget : Type := CameraPosition | ControlsTarget.

(** The closures the source passes as [onUpdate] and [onComplete]. *)
Inductive UpdateCb : Type :=
  | LookAtPoint (p : V3)        (* () => camera.lookAt(p) *)
  | LookAtControlsTarget.       (* () => camera.lookAt(controls.target) *)

Inductive CompleteCb : Type :=
  | OpenOverlay                 (* () => openOverlay() *)
  | EnableControls.             (* () => controls.enabled = true *)

(** One animated property of a tween: where it started and where it ends. *)
Record PropTween : Type := mkPT { pt_axis : Axis; pt_start : Q; pt_end : Q }.

(** The life of a tween.  [Created]: made by [gsap.to] and not rendered
    yet, its start values unread.  [Deferred]: on its first render in the
    tick under way it has read its start values, and its first write waits
    for the end of that tick.  [Running]: it has written before. *)
Inductive Phase : Type :=
  | Created
  | Deferred (props : list PropTween)
  | Running (props : list PropTween).

(** [tw_vars]: the property values handed to the engine; [tw_elapsed]:
    seconds of engine time since the tween was created. *)
Record Tween : Type := mkTween
  { tw_target : TweenTarget; tw_vars : list (Axis * Q); tw_phase : Phase;
    tw_duration : Q; tw_ease : Ease; tw_elapsed : Q;
    tw_onUpdate : option UpdateCb; tw_onComplete : option CompleteCb }.

Record State : Type := mkState
  { camera : Camera; controls : Controls; dom : Dom;
    monitorMesh : option Object3D;
    scene : list Object3D;
    tweens : list Tween;
    load_pending : bool;
    idleTime : Q; last : Q;
    clock : Q;
    frames : nat }.

Definition set_position (v : V3) (c : Camera) : Camera := mkCamera v (look c).
Definition set_look (v : V3) (c : Camera) : Camera := mkCamera (position c) v.
Definition set_target (v : V3) (c : Controls) : Controls := mkControls v (enabled c).
Definition set_enabled (b : bool) (c : Controls) : Controls := mkControls (target c) b.

Definition set_camera (c : Camera) (s : State) : State :=
  mkState c (controls s) (dom s) (monitorMesh s) (scene s) (tweens s)
          (load_pending s) (idleTime s) (last s) (clock s) (frames s).
Definition set_controls (c : Controls) (s : State) : State :=
  mkState (camera s) c (dom s) (monitorMesh s) (scene s) (tweens s)
          (load_pending s) (idleTime s) (last s) (clock s) (frames s).
Definition set_dom (d : Dom) (s : State) : State :=
  mkState (camera s) (controls s) d (monitorMesh s) (scene s) (tweens s)
          (load_pending s) (idleTime s) (last s) (clock s) (frames s).
Definition set_monitorMesh (m : option Object3D) (s : State) : State :=
  mkState (camera s) (controls s) (dom s) m (scene s) (tweens s)
          (load_pending s) (idleTime s) (last s) (clock s) (frames s).
Definition set_scene (l : list Object3D) (s : State) : State :=
  mkState (camera s) (controls s) (dom s) (monitorMesh s) l (tweens s)
          (load_pending s) (idleTime s) (last s) (clock s) (frames s).
Definition set_tweens (l : list Tween) (s : State) : State :=
  mkState (camera s) (controls s) (dom s) (monitorMesh s) (scene s) l
          (load_pending s) (idleTime s) (last s) (clock s) (frames s).
Definition set_load_pending (b : bool) (s : State) : State :=
  mkState (camera s) (controls s) (dom s) (monitorMesh s) (scene s) (tweens s)
          b (idleTime s) (last s) (clock s) (frames s).
Definition set_idleTime (q : Q) (s : State) : State :=
  mkState (camera s) (controls s) (dom s) (monitorMesh s) (scene s) (tweens s)
          (load_pending s) q (last s) (clock s) (frames s).
Definition set_last (q : Q) (s : State) : State :=
  mkState (camera s) (controls s) (dom s) (monitorMesh s) (scene s) (tweens s)
          (load_pending s) (idleTime s) q (clock s) (frames s).
Definition set_clock (q : Q) (s : State) : State :=
  mkState (camera s) (controls s) (dom s) (monitorMesh s) (scene s) (tweens s)
          (load_pending s) (idleTime s) (last s) q (frames s).
Definition set_frames (n : nat) (s : State) : State :=
  mkState (camera s) (controls s) (dom s) (monitorMesh s) (scene s) (tweens s)
          (load_pending s) (idleTime s) (last s) (clock s) n.

(** Field-level shorthands that follow the source's assignments. *)
Definition camera_position_set (v : V3) (s : State) : State :=
  set_camera (set_position v (camera s)) s.
Definition camera_lookAt (v : V3) (s : State) : State :=
  set_camera (set_look v (camera s)) s.
Definition controls_target_set (v : V3) (s : State) : State :=
  set_controls (set_target v (controls s)) s.
Definition controls_enabled_set (b : bool) (s : State) : State :=
  set_controls (set_enabled b (controls s)) s.
Definition console_log (l : Level) (msg : string) (s : State) : State :=
  set_dom (mkDom (overlay_hidden (dom s)) (hint_shown (dom s))
                 (iframe_focus (dom s)) (console (dom s) ++ [(l, msg)])) s.

(** [renderer.render(scene, camera)]: one more frame drawn. *)
Definition renderer_render (s : State) : State := set_frames (S (frames s)) s.

(** [performance.now()], in milliseconds. *)
Definition performance_now (s : State) : Q := clock s.

(** [controls.update()] with no pending user input: the orbit controls
    re-aim the camera at their target and leave its position alone. *)
Definition controls_update (s : State) : State :=
  camera_lookAt (target (controls s)) s.

(** ** The tween engine (GSAP)

    Contract used.  [gsap.to(obj, vars)] puts a tween behind those the
    engine holds; tweens on the same object do not cancel one another.
    On every tick the engine goes through its tweens in creation order.
    A tween that has written before writes the eased interpolation
    between its start and end values into its object and runs [onUpdate];
    when its time has reached its duration it then runs [onComplete] once
    and is dropped.  A tween met for the first time reads the current
    values of its properties as start values, after the tweens before it
    have written, and (lazy rendering, the engine's default) puts its own
    first write off to the end of the tick, where the tweens put off are
    rendered in the same order. *)

Definition tween_object (tg : TweenTarget) (s : State) : V3 :=
  match tg with
  | CameraPosition => position (camera s)
  | ControlsTarget => target (controls s)
  end.

Definition tween_write (tg : TweenTarget) (v : V3) (s : State) : State :=
  match tg with
  | CameraPosition => camera_position_set v s
  | ControlsTarget => controls_target_set v s
  end.

Definition apply_props (r : Q) (props : list PropTween) (v : V3) : V3 :=
  fold_left (fun acc pt => set_axis (pt_axis pt) (lerp (pt_start pt) (pt_end pt) r) acc)
            props v.

Definition props_to (vars : list (Axis * Q)) (cur : V3) : list PropTween :=
  map (fun ae => mkPT (fst ae) (get_axis (fst ae) cur) (snd ae)) vars.

Definition props_from (vars : list (Axis * Q)) (cur : V3) : list PropTween :=
  map (fun ae => mkPT (fst ae) (snd ae) (get_axis (fst ae) cur)) vars.

Definition xyz (v : V3) : list (Axis * Q) := [(AxX, vx v); (AxY, vy v); (AxZ, vz v)].

Definition gsap_to (tg : TweenTarget) (vars : list (Axis * Q)) (d : Q) (e : Ease)
    (onU : option UpdateCb) (onC : option CompleteCb) (s : State) : State :=
  set_tweens (tweens s ++ [mkTween tg vars Created d e 0 onU onC]) s.

(** [gsap.from] renders at once: the object jumps to the given values
    and is animated back to the values it had. *)
Definition gsap_from (tg : TweenTarget) (vars : list (Axis * Q)) (d : Q) (e : Ease)
    (s : State) : State :=
  let props := props_from vars (tween_object tg s) in
  let s1 := tween_write tg (apply_props 0 props (tween_object tg s)) s in
  set_tweens (tweens s1 ++ [mkTween tg vars (Running props) d e 0 None None]) s1.

Definition fire_update (cb : option UpdateCb) (s : State) : State :=
  match cb with
  | None => s
  | Some (LookAtPoint p) => camera_lookAt p s
  | Some LookAtControlsTarget => camera_lookAt (target (controls s)) s
  end.

Definition with_elapsed (t : Q) (tw : Tween) : Tween :=
  mkTween (tw_target tw) (tw_vars tw) (tw_phase tw) (tw_duration tw) (tw_ease tw) t
          (tw_onUpdate tw) (tw_onComplete tw).

Definition with_phase (ph : Phase) (tw : Tween) : Tween :=
  mkTween (tw_target tw) (tw_vars tw) ph (tw_duration tw) (tw_ease tw) (tw_elapsed tw)
          (tw_onUpdate tw) (tw_onComplete tw).

(** A tween that has written before. *)
Definition started (tw : Tween) : Prop := exists props, tw_phase tw = Running props.

Section Engine.

(** The program's own [openOverlay], which differs between the variants. *)
Variable openOverlay : State -> State.

Definition fire_complete (cb : option CompleteCb) (s : State) : State :=
  match cb with
  | None => s
  | Some OpenOverlay => openOverlay s
  | Some EnableControls => controls_enabled_set true s
  end.

(** A tween rendered at its own time, between the start and end values
    [props]: the write, [onUpdate], and [onComplete] when its time is up. *)
Definition render_at (props : list PropTween) (tw : Tween) (s : State)
    : State * option Tween :=
  let r := ease_at (tw_ease tw) (progress (tw_elapsed tw) (tw_duration tw)) in
  let s1 := tween_write (tw_target tw)
              (apply_props r props (tween_object (tw_target tw) s)) s in
  let s2 := fire_update (tw_onUpdate tw) s1 in
  if Qle_bool (tw_duration tw) (tw_elapsed tw)
  then (fire_complete (tw_onComplete tw) s2, None)
  else (s2, Some (with_phase (Running props) tw)).

(** A tween as the engine meets it on its way through the list, [dt]
    seconds after the previous tick. *)
Definition render_tween (dt : Q) (tw : Tween) (s : State) : State * option Tween :=
  let tw1 := with_elapsed (tw_elapsed tw + dt) tw in
  match tw_phase tw with
  | Created =>
      (s, Some (with_phase
                  (Deferred (props_to (tw_vars tw) (tween_object (tw_target tw) s)))
                  tw1))
  | Deferred props => render_at props tw1 s
  | Running props => render_at props tw1 s
  end.

(** A tween at the end of the tick: rendered if it was put off. *)
Definition render_lazy (tw : Tween) (s : State) : State * option Tween :=
  match tw_phase tw with
  | Deferred props => render_at props tw s
  | _ => (s, Some tw)
  end.

(** One pass over the tweens, in their order; a tween that is over is
    dropped. *)
Fixpoint render_each (f : Tween -> State -> State * option Tween)
    (tws : list Tween) (s : State) : State * list Tween :=
  match tws with
  | [] => (s, [])
  | tw :: rest =>
      let (s1, keep) := f tw s in
      let (s2, rest') := render_each f rest s1 in
      (s2, match keep with Some tw' => tw' :: rest' | None => rest' end)
  end.

Definition gsap_tick (dt : Q) (s : State) : State :=
  let (s1, met) := render_each (render_tween dt) (tweens s) s in
  let (s2, live) := render_each render_lazy met s1 in
  set_tweens live s2.

End Engine.

(** ** View state

    The source keeps no view-state variable; the state of the machine is
    read off the program state.  A camera transition is a tween that ends
    in a completion callback. *)

Inductive ViewState : Type := ORBITING | TRANSITIONING | FOCUSED.

Definition is_transition (tw : Tween) : bool :=
  match tw_onComplete tw with Some _ => true | None => false end.

Definition transitions (s : State) : list Tween := filter is_transition (tweens s).

Definition in_flight (s : State) : bool :=
  match transitions s with [] => false | _ :: _ => true end.

Definition overlay_visible (s : State) : bool := negb (overlay_hidden (dom s)).

Definition view_state (s : State) : ViewState :=
  if in_flight s then TRANSITIONING
  else if overlay_visible s then FOCUSED else ORBITING.

(** The ray caster: a pointer event determines the nearest intersected
    object, given here as its index in the scene list ([None]: the ray
    hits nothing).  Only meshes can be hit. *)
Definition nearest_hit (s : State) (hit : option nat) : option Object3D :=
  match hit with
  | None => None
  | Some i =>
      match nth_error (scene s) i with
      | Some o => if isMesh o then Some o else None
      | None => None
      end
  end.

(** What the browser can deliver to the page.  [EvOrbit p t]: the orbit
    controls, when enabled, answer a gesture by moving the camera to [p],
    their target to [t] (it moves when the gesture pans) and aiming the
    camera at the target. *)
Inductive Event : Type :=
  | EvPointerDown (hit : option nat)   (* pointerdown over the canvas *)
  | EvOrbit (p t : V3)                 (* a drag or wheel gesture on the canvas *)
  | EvCloseClick                       (* click on the overlay's close button *)
  | EvKeyDown (key : string)
  | EvFrame (dt : Q)                   (* a display refresh, [dt] seconds later *)
  | EvLoadOk (asset : list Object3D)   (* the loader's success callback *)
  | EvLoadError.                       (* the loader's error callback *)

(** ** Variant 1: [src/main.js] *)

Module MainJs.

Definition WIDE_SHOT_POS : V3 := mkV3 8.5 23 (-36).
Definition WIDE_SHOT_TARGET : V3 := mkV3 6.5 2.4 (-2.2).
(** Local constants of [focusOnMonitor]. *)
Definition SIT_POS : V3 := mkV3 (-3.4) 6.4 3.27.
Definition SIT_TARGET : V3 := mkV3 (-3.44) 6.16 4.22.

(** The shadow-receiving floor plane, the only mesh before the asset
    arrives. *)
Definition floor : Object3D := mkObj 0 0 "" true.

(** Objects of [buildProceduralDesk]. *)
Definition deskTop : Object3D := mkObj 1 1 "" true.
Definition proceduralMonitor : Object3D := mkObj 2 2 "monitor_screen" true.

(** Show the overlay. *)
Definition openOverlay (s : State) : State :=
  let s1 := set_dom (mkDom false false (iframe_focus (dom s)) (console (dom s))) s in
  let s2 := controls_enabled_set false s1 in
  set_dom (mkDom (overlay_hidden (dom s2)) (hint_shown (dom s2))
                 (S (iframe_focus (dom s2))) (console (dom s2))) s2.

(** Camera fly-to animation. *)
Definition focusOnMonitor (s : State) : State :=
  match monitorMesh s with
  | None => s
  | Some _ =>
      let targetPos := SIT_POS in
      let targetLookAt := SIT_TARGET in
      let s1 := controls_enabled_set false s in
      gsap_to CameraPosition (xyz targetPos) 1.2 Power3InOut
              (Some (LookAtPoint targetLookAt)) (Some OpenOverlay) s1
  end.

(** The test of [onPointerDown] on the nearest intersected object. *)
Definition is_interactive (m : option Object3D) (picked : Object3D) : bool :=
  match m with
  | None => false
  | Some mm =>
      same_object picked mm
      || (uuid picked =? uuid mm)%nat
      || includes (toLowerCase (name picked)) "monitor"
      || includes (toLowerCase (name picked)) "screen"
  end.

Definition onPointerDown (hit : option nat) (s : State) : State :=
  match nearest_hit s hit with
  | Some picked =>
      if is_interactive (monitorMesh s) picked then focusOnMonitor s else s
  | None => s
  end.

(** Click listener of the close button. *)
Definition closeBtn_click (s : State) : State :=
  let s1 := set_dom (mkDom true true (iframe_focus (dom s)) (console (dom s))) s in
  gsap_to CameraPosition (xyz WIDE_SHOT_POS) 1.0 Power3InOut
          (Some (LookAtPoint WIDE_SHOT_TARGET)) (Some EnableControls) s1.

(** [keydown] listener on the window. *)
Definition onKeyDown (key : string) (s : State) : State :=
  if String.eqb key "Escape" && negb (overlay_hidden (dom s))
  then closeBtn_click s else s.

Section Idle.
(** [Math.sin] and [Math.cos]. *)
Variables Math_sin Math_cos : Q -> Q.

Definition updateControlsIdle (dt : Q) (s : State) : State :=
  if negb (enabled (controls s)) then s
  else
    let s1 := set_idleTime (idleTime s + dt) s in
    if Qle_bool (idleTime s1) 1.5 then s1
    else
      let t := performance_now s1 * 0.00008 in
      let p := position (camera s1) in
      let s2 := camera_position_set (mkV3 (Math_sin t * 6) (vy p) (vz p)) s1 in
      let p2 := position (camera s2) in
      let s3 := camera_position_set (mkV3 (vx p2) (vy p2) (Math_cos t * 6)) s2 in
      camera_lookAt (mkV3 0 1 0) s3.
End Idle.

(** [start] listener of the orbit controls. *)
Definition onControlsStart (s : State) : State := set_idleTime 0 s.

(** The render loop's body (the re-registration with
    [requestAnimationFrame] is the [EvFrame] event). *)
Definition animate (s : State) : State :=
  let now := performance_now s in
  let dt := (now - last s) / 1000 in
  let s1 := set_last now s in
  let s2 := if enabled (controls s1) then controls_update s1 else s1 in
  renderer_render s2.

(** Success callback of the loader.  The glow tween it starts animates
    the monitor's material colour only and is left out. *)
Definition onLoad (gltf : list Object3D) (s : State) : State :=
  let deskRoot := gltf in
  let s1 := set_monitorMesh
              (or_else (getObjectByName deskRoot "monitor_screen")
                 (or_else (getObjectByName deskRoot "monitor")
                          (getObjectByName deskRoot "screen"))) s in
  let s2 := set_monitorMesh (getObjectByName deskRoot "Screen_Plane_clickable") s1 in
  let s3 := match monitorMesh s2 with
            | None => console_log LogError
                        "CRITICAL: Could not find object named 'Screen_Plane_clickable' in the model!" s2
            | Some _ => s2
            end in
  set_scene (scene s3 ++ deskRoot) s3.

Definition buildProceduralDesk (s : State) : State :=
  let s1 := set_monitorMesh (Some proceduralMonitor) s in
  set_scene (scene s1 ++ [deskTop; proceduralMonitor]) s1.

(** Error callback of the loader. *)
Definition onError (s : State) : State :=
  buildProceduralDesk
    (console_log LogWarn "GLB load failed, building procedural desk instead. Error:" s).

(** State when the module body has run up to the first [animate()].  The
    page markup is not part of the sources: the overlay starts hidden (the
    source calls it the hidden div) and the hint starts shown. *)
Definition start : State :=
  mkState (mkCamera WIDE_SHOT_POS WIDE_SHOT_TARGET)
          (mkControls WIDE_SHOT_TARGET true)
          (mkDom true true 0 [])
          None [floor] [] true 0 0 0 0.

Definition init : State := animate start.

(** One display refresh: the engine's tick, then [animate]. *)
Definition frame (dt : Q) (s : State) : State :=
  animate (gsap_tick openOverlay dt (set_clock (clock s + dt * 1000) s)).

(** Delivery of an event to the listeners the page registered.  The
    close button lies inside the overlay: while the overlay is hidden it
    takes no click.  The orbit controls listen on the canvas ahead of
    the pick handler and announce [start] when they are enabled.  The
    loader calls back once. *)
Definition dispatch (e : Event) (s : State) : State :=
  match e with
  | EvPointerDown hit =>
      onPointerDown hit (if enabled (controls s) then onControlsStart s else s)
  | EvOrbit p t =>
      if enabled (controls s)
      then controls_update
             (controls_target_set t (camera_position_set p (onControlsStart s)))
      else s
  | EvCloseClick =>
      if overlay_hidden (dom s) then s else closeBtn_click s
  | EvKeyDown key => onKeyDown key s
  | EvFrame dt => frame dt s
  | EvLoadOk asset =>
      if load_pending s then onLoad asset (set_load_pending false s) else s
  | EvLoadError =>
      if load_pending s then onError (set_load_pending false s) else s
  end.

Definition run (es : list Event) (s : State) : State :=
  fold_left (fun acc e => dispatch e acc) es s.

Inductive reachable : State -> Prop :=
| reach_init : reachable init
| reach_step : forall s e, reachable s -> reachable (dispatch e s).

End MainJs.

(** ** Variant 2: the second source file *)

Module Alt.

Definition WIDE_SHOT_POS : V3 := mkV3 11.97 19.59 (-26.95).
Definition WIDE_SHOT_TARGET : V3 := mkV3 (-0.95) 4.7 (-2.39).
Definition SIT_POS : V3 := mkV3 (-3.4) 6.4 3.27.
Definition SIT_TARGET : V3 := mkV3 (-3.44) 6.16 4.22.

Definition openOverlay (s : State) : State :=
  set_dom (mkDom false false (S (iframe_focus (dom s))) (console (dom s))) s.

Definition hideOverlay (s : State) : State :=
  set_dom (mkDom true true (iframe_focus (dom s)) (console (dom s))) s.

Definition moveToMonitor (s : State) : State :=
  let s1 := controls_enabled_set false s in
  let s2 := gsap_to CameraPosition (xyz SIT_POS) 1.5 Power2InOut None None s1 in
  gsap_to ControlsTarget (xyz SIT_TARGET) 1.5 Power2InOut
          (Some LookAtControlsTarget) (Some OpenOverlay) s2.

Definition returnToOffice (s : State) : State :=
  let s1 := hideOverlay s in
  let s2 := gsap_to CameraPosition (xyz WIDE_SHOT_POS) 1.5 Power2InOut None None s1 in
  gsap_to ControlsTarget (xyz WIDE_SHOT_TARGET) 1.5 Power2InOut
          (Some LookAtControlsTarget) (Some EnableControls) s2.

(** The test of [onPointerDown] on the nearest intersected object. *)
Definition is_interactive (m : option Object3D) (object : Object3D) : bool :=
  match m with Some mm => same_object object mm | None => false end
  || includes (name object) "Desk"
  || includes (name object) "Screen".

Definition onPointerDown (hit : option nat) (s : State) : State :=
  if negb (enabled (controls s)) then s
  else
    match nearest_hit s hit with
    | Some object =>
        if is_interactive (monitorMesh s) object then moveToMonitor s else s
    | None => s
    end.

Definition animate (s : State) : State :=
  renderer_render (controls_update s).

(** The [traverse] callback of the loader's success handler, as far as
    it assigns [monitorMesh]. *)
Definition visit (child : Object3D) (s : State) : State :=
  if isMesh child && includes (name child) "Monitor_Screen"
  then set_monitorMesh (Some child) s else s.

(** Success callback of the loader: resolve the monitor, add the model
    to the scene, warn when the desk anchor is missing (lights are not
    modelled), start the intro animation. *)
Definition onLoad (gltf : list Object3D) (s : State) : State :=
  let deskRoot := gltf in
  let s1 := fold_left (fun acc child => visit child acc) deskRoot s in
  let s2 := set_scene (scene s1 ++ deskRoot) s1 in
  let s3 := if existsb (fun child => includes (name child) "Target_Desk") deskRoot
            then s2
            else console_log LogWarn "Could not find 'Target_Desk'. Check Blender naming!" s2 in
  gsap_from CameraPosition [(AxY, 50)] 2 Power3Out s3.

(** Error callback of the loader. *)
Definition onError (s : State) : State :=
  console_log LogError "An error happened" s.

(** State when the module body has run up to the first [animate()]; the
    lights in the scene cannot be hit by a ray, so the scene list is
    empty until the model arrives. *)
Definition start : State :=
  mkState (mkCamera WIDE_SHOT_POS WIDE_SHOT_TARGET)
          (mkControls WIDE_SHOT_TARGET true)
          (mkDom true true 0 [])
          None [] [] true 0 0 0 0.

Definition init : State := animate start.

Definition frame (dt : Q) (s : State) : State :=
  animate (gsap_tick openOverlay dt (set_clock (clock s + dt * 1000) s)).

(** Delivery of an event to the listeners the page registered; this
    variant registers no key listener.  The close button lies inside
    the overlay: while the overlay is hidden it takes no click. *)
Definition dispatch (e : Event) (s : State) : State :=
  match e with
  | EvPointerDown hit => onPointerDown hit s
  | EvOrbit p t =>
      if enabled (controls s)
      then controls_update (controls_target_set t (camera_position_set p s))
      else s
  | EvCloseClick => if overlay_hidden (dom s) then s else returnToOffice s
  | EvKeyDown _ => s
  | EvFrame dt => frame dt s
  | EvLoadOk asset =>
      if load_pending s then onLoad asset (set_load_pending false s) else s
  | EvLoadError =>
      if load_pending s then onError (set_load_pending false s) else s
  end.

Definition run (es : list Event) (s : State) : State :=
  fold_left (fun acc e => dispatch e acc) es s.

Inductive reachable : State -> Prop :=
| reach_init : reachable init
| reach_step : forall s e, reachable s -> reachable (dispatch e s).

End Alt.

(** ** Scenario data and auxiliary notions *)

(** A model as the loader may deliver it, in traversal order: the desk
    anchor (an empty), the desk top, the clickable screen plane, the
    monitor screen and a chair. *)
Definition office_asset : list Object3D :=
  [ mkObj 10 10 "Target_Desk" false;
    mkObj 11 11 "Desk_Top" true;
    mkObj 12 12 "Screen_Plane_clickable" true;
    mkObj 13 13 "Monitor_Screen" true;
    mkObj 14 14 "Chair" true ].

(** Both variants once that model has loaded (and, in variant 2, the
    two-second intro animation has run out). *)
Definition main_ready : State := MainJs.run [EvLoadOk office_asset] MainJs.init.
Definition alt_ready : State :=
  Alt.run [EvLoadOk office_asset; EvFrame 1; EvFrame 1] Alt.init.

(** Both variants once the load has failed. *)
Definition main_failed : State := MainJs.run [EvLoadError] MainJs.init.
Definition alt_failed : State := Alt.run [EvLoadError] Alt.init.

(** Time the engine has accumulated over frames [dts] apart. *)
Definition total (dts : list Q) : Q := fold_left Qplus dts 0.

Definition nonneg (dts : list Q) : Prop := Forall (fun dt => 0 <= dt) dts.

(** Number of display refreshes among events. *)
Definition refreshes (es : list Event) : nat :=
  List.length (filter (fun e => match e with EvFrame _ => true | _ => false end) es).

(** [same_env s s']: [s'] differs from [s] at most in the camera, the
    controls and the DOM. *)
Definition same_env (s s' : State) : Prop :=
  monitorMesh s' = monitorMesh s /\ scene s' = scene s /\
  load_pending s' = load_pending s /\ idleTime s' = idleTime s /\
  last s' = last s /\ clock s' = clock s /\ frames s' = frames s.

Module Spec.

(** The classification as the specification words it: a hit is interactive
    when it is the resolved surface; the name policy (case-insensitive
    [screen] or [monitor]) applies only when nothing was resolved. *)
Definition name_policy (o : Object3D) : bool :=
  includes (toLowerCase (name o)) "screen"
  || includes (toLowerCase (name o)) "monitor".

Definition classify (ref : option Object3D) (picked : Object3D) : bool :=
  match ref with
  | Some m => same_object picked m
  | None => name_policy picked
  end.

End Spec.

(** The tweens the handlers create, in phase [ph], [e] seconds after
    their creation. *)
Definition main_focus_made (ph : Phase) (e : Q) : Tween :=
  mkTween CameraPosition (xyz MainJs.SIT_POS) ph 1.2 Power3InOut e
          (Some (LookAtPoint MainJs.SIT_TARGET)) (Some OpenOverlay).

Definition main_return_made (ph : Phase) (e : Q) : Tween :=
  mkTween CameraPosition (xyz MainJs.WIDE_SHOT_POS) ph 1.0 Power3InOut e
          (Some (LookAtPoint MainJs.WIDE_SHOT_TARGET)) (Some EnableControls).

Definition alt_position_made (dest : V3) (ph : Phase) (e : Q) : Tween :=
  mkTween CameraPosition (xyz dest) ph 1.5 Power2InOut e None None.

Definition alt_target_made (dest : V3) (cb : CompleteCb) (ph : Phase) (e : Q) : Tween :=
  mkTween ControlsTarget (xyz dest) ph 1.5 Power2InOut e
          (Some LookAtControlsTarget) (Some cb).

(** The same tweens running from start value [p0]. *)
Definition main_focus_tween (p0 : V3) (e : Q) : Tween :=
  main_focus_made (Running (props_to (xyz MainJs.SIT_POS) p0)) e.

Definition main_return_tween (p0 : V3) (e : Q) : Tween :=
  main_return_made (Running (props_to (xyz MainJs.WIDE_SHOT_POS) p0)) e.

Definition alt_position_tween (dest p0 : V3) (e : Q) : Tween :=
  alt_position_made dest (Running (props_to (xyz dest) p0)) e.

Definition alt_target_tween (dest t0 : V3) (cb : CompleteCb) (e : Q) : Tween :=
  alt_target_made dest cb (Running (props_to (xyz dest) t0)) e.

Definition flags (s : State) : bool * bool :=
  (enabled (controls s), overlay_hidden (dom s)).

(** What a completion callback of variant 2 does to the flags. *)
Definition alt_complete_flags (cb : option CompleteCb) (f : bool * bool) : bool * bool :=
  match cb with
  | None => f
  | Some OpenOverlay => (fst f, false)
  | Some EnableControls => (true, snd f)
  end.

(** The flags each view state goes with: controls enabled and overlay
    hidden while orbiting, controls disabled and overlay hidden during a
    single transition, controls disabled and overlay shown when focused. *)
Definition coherent (s : State) : Prop :=
  match transitions s with
  | [] => flags s = (true, true) \/ flags s = (false, false)
  | [_] => flags s = (false, true)
  | _ => False
  end.

(** A pointer-down whose ray first meets the screen: once [office_asset]
    has loaded, index 3 is the clickable screen plane in variant 1's scene
    (the floor comes first there) and the monitor screen in variant 2's. *)
Definition pick_screen : Event := EvPointerDown (Some 3%nat).

(** Variant 1: a second pick half-way through the fly-in, seen when the
    first fly-in has ended. *)
Definition main_overlapped : State :=
  MainJs.run [pick_screen; EvFrame 0.6; pick_screen; EvFrame 0.6] main_ready.

(** ... then the overlay is closed at once, and both tweens run out. *)
Definition main_crossed : State :=
  MainJs.run [EvCloseClick; EvFrame 0.6; EvFrame 0.6] main_overlapped.

(** Both variants focused on the monitor. *)
Definition main_focused : State :=
  MainJs.run [pick_screen; EvFrame 0.6; EvFrame 0.6] main_ready.
Definition alt_focused : State :=
  Alt.run [pick_screen; EvFrame 0.8; EvFrame 0.8] alt_ready.

(** Variant 1, one tenth of a second into the fly-in. *)
Definition main_flying : State :=
  MainJs.run [pick_screen; EvFrame 0.1] main_ready.





(** Simplification that computes with records and lists and leaves the
    arithmetic of rationals folded. *)
Ltac qsimpl := cbn -[Qle_bool Qplus Qmult Qdiv Qminus Qopp ease_at lerp].

(** ** Further notions

    Pointer coordinates: both pick handlers turn the event's client
    coordinates into normalized device coordinates with the canvas's
    bounding rectangle ([getBoundingClientRect]) before the ray is cast. *)

Record DOMRect : Type := mkRect
  { rect_left : Q; rect_top : Q; rect_width : Q; rect_height : Q }.

(** [pointer.x = ((e.clientX - rect.left) / rect.width) * 2 - 1] *)
Definition pointer_x (clientX : Q) (rect : DOMRect) : Q :=
  ((clientX - rect_left rect) / rect_width rect) * 2 - 1.

(** [pointer.y = -((e.clientY - rect.top) / rect.height) * 2 + 1] *)
Definition pointer_y (clientY : Q) (rect : DOMRect) : Q :=
  - ((clientY - rect_top rect) / rect_height rect) * 2 + 1.

(** The intro tween of variant 2's loader callback, [e] seconds after its
    creation, for a camera that stood at height [y0]. *)
Definition alt_intro_tween (y0 : Q) (e : Q) : Tween :=
  mkTween CameraPosition [(AxY, 50)] (Running [mkPT AxY 50 y0]) 2 Power3Out e None None.

(** What a completion callback of variant 1 does to the flags. *)
Definition main_complete_flags (cb : option CompleteCb) (f : bool * bool) : bool * bool :=
  match cb with
  | None => f
  | Some OpenOverlay => (false, false)
  | Some EnableControls => (true, snd f)
  end.

(** States variant 1 reaches when no pointer-down arrives while the orbit
    controls are disabled (the condition variant 2's handler tests for
    itself). *)
Inductive main_guarded : State -> Prop :=
| guarded_init : main_guarded MainJs.init
| guarded_step : forall s e,
    main_guarded s ->
    (forall hit, e = EvPointerDown hit -> enabled (controls s) = true) ->
    main_guarded (MainJs.dispatch e s).

(** The meshes of a model that variant 2's traversal takes for the monitor. *)
Definition alt_monitor_like (c : Object3D) : bool :=
  isMesh c && includes (name c) "Monitor_Screen".

(** * Properties *)

(** ** The engine touches only camera, controls and DOM *)

Lemma same_env_refl : forall s, same_env s s.
Proof. intro s; repeat split. Qed.

Lemma same_env_trans : forall a b c, same_env a b -> same_env b c -> same_env a c.
Proof.
  unfold same_env; intros a b c H1 H2.
  decompose [and] H1; decompose [and] H2; repeat split; congruence.
Qed.

Lemma tween_write_env : forall tg v s, same_env s (tween_write tg v s).
Proof. intros [] v s; repeat split. Qed.

Lemma fire_update_env : forall cb s, same_env s (fire_update cb s).
Proof. intros [[p|]|] s; repeat split. Qed.

Lemma main_openOverlay_env : forall s, same_env s (MainJs.openOverlay s).
Proof. intro s; repeat split. Qed.

Lemma alt_openOverlay_env : forall s, same_env s (Alt.openOverlay s).
Proof. intro s; repeat split. Qed.

(** The two passes of a tick share their shape: facts about one tween
    carry over to a pass, and from the two passes to the tick. *)
Lemma render_each_app : forall f a b s,
  render_each f (a ++ b) s =
  (fst (render_each f b (fst (render_each f a s))),
   snd (render_each f a s) ++ snd (render_each f b (fst (render_each f a s)))).
Proof.
  intros f a. induction a as [|tw a IH]; intros b s; simpl.
  - destruct (render_each f b s); reflexivity.
  - destruct (f tw s) as [s1 keep].
    rewrite IH.
    destruct (render_each f a s1) as [s2 a']; simpl.
    destruct (render_each f b s2) as [s3 b']; simpl.
    destruct keep; reflexivity.
Qed.

Lemma render_each_preserves : forall (R : State -> State -> Prop) f,
  (forall s, R s s) -> (forall a b c, R a b -> R b c -> R a c) ->
  (forall tw s, R s (fst (f tw s))) ->
  forall tws s, R s (fst (render_each f tws s)).
Proof.
  intros R f Rr Rt Hf tws; induction tws as [|tw rest IH]; intro s; simpl.
  - apply Rr.
  - pose proof (Hf tw s) as H1.
    destruct (f tw s) as [s1 keep]; simpl in H1.
    specialize (IH s1).
    destruct (render_each f rest s1) as [s2 rest']; simpl in *.
    eapply Rt; eauto.
Qed.

Lemma render_each_keeps : forall (P : Tween -> Prop) f,
  (forall tw s tw', snd (f tw s) = Some tw' -> P tw') ->
  forall tws s, Forall P (snd (render_each f tws s)).
Proof.
  intros P f Hf tws; induction tws as [|tw rest IH]; intro s; simpl; [constructor|].
  pose proof (Hf tw s) as H1.
  destruct (f tw s) as [s1 keep]; simpl in H1.
  specialize (IH s1).
  destruct (render_each f rest s1) as [s2 rest']; simpl in *.
  destruct keep; [constructor; auto|assumption].
Qed.

Lemma render_each_maps : forall (P Q : Tween -> Prop) f,
  (forall tw s tw', P tw -> snd (f tw s) = Some tw' -> Q tw') ->
  forall tws s, Forall P tws -> Forall Q (snd (render_each f tws s)).
Proof.
  intros P Q f Hf tws; induction tws as [|tw rest IH]; intros s F; simpl; [constructor|].
  inversion F as [|? ? Ptw FR]; subst.
  pose proof (Hf tw s) as H1.
  destruct (f tw s) as [s1 keep]; simpl in H1.
  specialize (IH s1 FR).
  destruct (render_each f rest s1) as [s2 rest']; simpl in *.
  destruct keep; [constructor; auto|assumption].
Qed.

(** The end-of-tick pass leaves alone what holds no tween put off. *)
Lemma render_lazy_started : forall oo tw s,
  started tw -> render_lazy oo tw s = (s, Some tw).
Proof.
  intros oo tw s [props H]. unfold render_lazy. rewrite H. reflexivity.
Qed.

Lemma render_each_lazy_started : forall oo tws s,
  Forall started tws -> render_each (render_lazy oo) tws s = (s, tws).
Proof.
  intros oo tws s F. induction F as [|tw rest H F IH]; simpl; [reflexivity|].
  rewrite (render_lazy_started oo tw s H), IH. reflexivity.
Qed.

Lemma render_at_started : forall oo props tw s tw',
  snd (render_at oo props tw s) = Some tw' -> started tw'.
Proof.
  intros oo props tw s tw' H. unfold render_at in H.
  destruct (Qle_bool (tw_duration tw) (tw_elapsed tw)); simpl in H; [discriminate H|].
  injection H as <-. exists props. reflexivity.
Qed.

Lemma render_tween_met : forall oo dt tw s tw',
  snd (render_tween oo dt tw s) = Some tw' -> tw_phase tw' <> Created.
Proof.
  intros oo dt tw s tw' H. unfold render_tween in H.
  destruct (tw_phase tw).
  - simpl in H. injection H as <-. discriminate.
  - apply render_at_started in H. destruct H as [q H]. rewrite H. discriminate.
  - apply render_at_started in H. destruct H as [q H]. rewrite H. discriminate.
Qed.

Lemma render_tween_started : forall oo dt tw s tw',
  started tw -> snd (render_tween oo dt tw s) = Some tw' -> started tw'.
Proof.
  intros oo dt tw s tw' [props P] H. unfold render_tween in H. rewrite P in H.
  apply render_at_started in H. exact H.
Qed.

Lemma render_lazy_settles : forall oo tw s tw',
  tw_phase tw <> Created -> snd (render_lazy oo tw s) = Some tw' -> started tw'.
Proof.
  intros oo tw s tw' N H. unfold render_lazy in H.
  destruct (tw_phase tw) as [|props|props] eqn:P.
  - congruence.
  - apply render_at_started in H. exact H.
  - simpl in H. injection H as <-. exists props. exact P.
Qed.

(** After a tick every tween the engine holds has started. *)
Lemma gsap_tick_started : forall oo dt s, Forall started (tweens (gsap_tick oo dt s)).
Proof.
  intros oo dt s. unfold gsap_tick.
  pose proof (render_each_keeps (fun tw => tw_phase tw <> Created) (render_tween oo dt)
                (render_tween_met oo dt) (tweens s) s) as M.
  destruct (render_each (render_tween oo dt) (tweens s) s) as [s1 met]; simpl in M.
  pose proof (render_each_maps (fun tw => tw_phase tw <> Created) started (render_lazy oo)
                (render_lazy_settles oo) met s1 M) as L.
  destruct (render_each (render_lazy oo) met s1) as [s2 live]; simpl in L.
  exact L.
Qed.

(** A tick over tweens that have all started is a single pass. *)
Lemma gsap_tick_single : forall oo dt s,
  Forall started (tweens s) ->
  gsap_tick oo dt s =
  set_tweens (snd (render_each (render_tween oo dt) (tweens s) s))
             (fst (render_each (render_tween oo dt) (tweens s) s)).
Proof.
  intros oo dt s F. unfold gsap_tick.
  pose proof (render_each_maps started started (render_tween oo dt)
                (fun tw s0 tw' => render_tween_started oo dt tw s0 tw') (tweens s) s F) as M.
  destruct (render_each (render_tween oo dt) (tweens s) s) as [s1 met]; simpl in *.
  rewrite (render_each_lazy_started oo met s1 M). reflexivity.
Qed.

Section EngineFacts.

Variable openOverlay : State -> State.
Hypothesis openOverlay_env : forall s, same_env s (openOverlay s).

Lemma fire_complete_env : forall cb s, same_env s (fire_complete openOverlay cb s).
Proof. intros [[|]|] s; simpl; auto using same_env_refl. repeat split. Qed.

Lemma render_at_env :
  forall props tw s, same_env s (fst (render_at openOverlay props tw s)).
Proof.
  intros props tw s. unfold render_at.
  destruct (Qle_bool (tw_duration tw) (tw_elapsed tw)); simpl.
  - eapply same_env_trans; [apply tween_write_env|].
    eapply same_env_trans; [apply fire_update_env|]. apply fire_complete_env.
  - eapply same_env_trans; [apply tween_write_env|]. apply fire_update_env.
Qed.

Lemma render_tween_env :
  forall dt tw s, same_env s (fst (render_tween openOverlay dt tw s)).
Proof.
  intros dt tw s. unfold render_tween.
  destruct (tw_phase tw); [apply same_env_refl|apply render_at_env|apply render_at_env].
Qed.

Lemma render_lazy_env :
  forall tw s, same_env s (fst (render_lazy openOverlay tw s)).
Proof.
  intros tw s. unfold render_lazy.
  destruct (tw_phase tw); [apply same_env_refl|apply render_at_env|apply same_env_refl].
Qed.

Lemma gsap_tick_env : forall dt s, same_env s (gsap_tick openOverlay dt s).
Proof.
  intros dt s. unfold gsap_tick.
  pose proof (render_each_preserves same_env _ same_env_refl same_env_trans
                (render_tween_env dt) (tweens s) s) as H1.
  destruct (render_each (render_tween openOverlay dt) (tweens s) s) as [s1 met];
    simpl in H1.
  pose proof (render_each_preserves same_env _ same_env_refl same_env_trans
                render_lazy_env met s1) as H2.
  destruct (render_each (render_lazy openOverlay) met s1) as [s2 live]; simpl in H2.
  eapply same_env_trans; [exact H1|].
  eapply same_env_trans; [exact H2|]. repeat split.
Qed.

(** With nothing to animate a tick changes nothing. *)
Lemma gsap_tick_idle : forall dt s, tweens s = [] -> gsap_tick openOverlay dt s = s.
Proof.
  intros dt s H. unfold gsap_tick. rewrite H. simpl.
  rewrite <- H. destruct s; reflexivity.
Qed.

End EngineFacts.

(** ** Variant 1: the monitor reference gates every transition *)

Lemma main_animate_env_fields : forall s,
  monitorMesh (MainJs.animate s) = monitorMesh s /\
  load_pending (MainJs.animate s) = load_pending s /\
  dom (MainJs.animate s) = dom s /\
  tweens (MainJs.animate s) = tweens s /\
  controls (MainJs.animate s) = controls s /\
  position (camera (MainJs.animate s)) = position (camera s) /\
  idleTime (MainJs.animate s) = idleTime s /\
  scene (MainJs.animate s) = scene s.
Proof.
  intro s. unfold MainJs.animate.
  destruct s as [cam [t e] d m sc tw lp it la ck fr]; simpl.
  destruct e; simpl; repeat split.
Qed.

Lemma main_unresolved_inv : forall s, MainJs.reachable s ->
  (load_pending s = true -> monitorMesh s = None) /\
  (monitorMesh s = None -> overlay_hidden (dom s) = true /\ tweens s = []).
Proof.
  induction 1 as [|s e R [IH1 IH2]].
  - split; intros; vm_compute; auto.
  - destruct e as [hit|p t| |key|dt|asset| ]; unfold MainJs.dispatch.
    + (* pointer down *)
      assert (E: forall s0, monitorMesh s0 = monitorMesh s -> load_pending s0 = load_pending s ->
                 dom s0 = dom s -> tweens s0 = tweens s ->
                 (load_pending (MainJs.onPointerDown hit s0) = true -> monitorMesh (MainJs.onPointerDown hit s0) = None) /\
                 (monitorMesh (MainJs.onPointerDown hit s0) = None ->
                    overlay_hidden (dom (MainJs.onPointerDown hit s0)) = true /\ tweens (MainJs.onPointerDown hit s0) = [])).
      { intros s0 Hm Hl Hd Ht. unfold MainJs.onPointerDown.
        destruct (nearest_hit s0 hit) as [picked|]; [|rewrite Hm, Hl, Hd, Ht; auto].
        destruct (MainJs.is_interactive (monitorMesh s0) picked) eqn:I; [|rewrite Hm, Hl, Hd, Ht; auto].
        unfold MainJs.focusOnMonitor. destruct (monitorMesh s0) eqn:M; [|discriminate I].
        simpl. rewrite M, Hl. split; [|intro X; discriminate X].
        intro L. rewrite (IH1 L) in Hm. discriminate Hm. }
      destruct (enabled (controls s)); apply E; reflexivity.
    + destruct (enabled (controls s)); simpl; split; assumption.
    + case_eq (overlay_hidden (dom s)); intro O; [split; assumption|].
      split; simpl; [exact IH1|]. intro M. destruct (IH2 M) as [O' _]. congruence.
    + unfold MainJs.onKeyDown.
      case_eq (String.eqb key "Escape" && negb (overlay_hidden (dom s)))%bool; intro K;
        [|split; assumption].
      apply andb_true_iff in K. destruct K as [_ K].
      split; simpl; [exact IH1|]. intro M. destruct (IH2 M) as [O' _]. rewrite O' in K. discriminate.
    + unfold MainJs.frame.
      set (s1 := set_clock (clock s + dt * 1000) s).
      pose proof (gsap_tick_env MainJs.openOverlay main_openOverlay_env dt s1) as G.
      destruct (main_animate_env_fields (gsap_tick MainJs.openOverlay dt s1)) as (A1 & A2 & A3 & A4 & _).
      destruct G as (G1 & _ & G3 & _).
      rewrite A1, A2, A3, A4, G1, G3. simpl.
      split; auto. intro M. destruct (IH2 M) as [O T].
      rewrite (gsap_tick_idle MainJs.openOverlay dt s1) by exact T. auto.
    + case_eq (load_pending s); intro L; [|split; assumption].
      destruct (IH2 (IH1 L)) as [O T].
      unfold MainJs.onLoad; simpl.
      destruct (getObjectByName asset "Screen_Plane_clickable"); simpl;
        (split; [intro X; discriminate X|]); [intro X; discriminate X|]. auto.
    + case_eq (load_pending s); intro L; [|split; assumption].
      split; simpl; intro X; discriminate X.
Qed.

(** ** Running a transition to its end *)

Section EngineSteps.
Variable openOverlay : State -> State.

Lemma render_tween_running : forall dt tw props s,
  tw_phase tw = Running props ->
  Qle_bool (tw_duration tw) (tw_elapsed tw + dt) = false ->
  render_tween openOverlay dt tw s =
  (fire_update (tw_onUpdate tw)
     (tween_write (tw_target tw)
        (apply_props (ease_at (tw_ease tw) ((tw_elapsed tw + dt) / tw_duration tw))
                     props (tween_object (tw_target tw) s)) s),
   Some (with_elapsed (tw_elapsed tw + dt) tw)).
Proof.
  intros dt tw props s P H. unfold render_tween, render_at, progress. rewrite P.
  simpl. rewrite H. destruct tw; simpl in *; subst; reflexivity.
Qed.

Lemma render_tween_done : forall dt tw props s,
  tw_phase tw = Running props ->
  Qle_bool (tw_duration tw) (tw_elapsed tw + dt) = true ->
  render_tween openOverlay dt tw s =
  (fire_complete openOverlay (tw_onComplete tw)
     (fire_update (tw_onUpdate tw)
        (tween_write (tw_target tw)
           (apply_props (ease_at (tw_ease tw) 1)
                        props (tween_object (tw_target tw) s)) s)),
   None).
Proof.
  intros dt tw props s P H. unfold render_tween, render_at, progress. rewrite P.
  simpl. rewrite H. reflexivity.
Qed.

(** A tween's first tick: it reads its start values on the way through
    the list and is rendered at the end of the tick. *)
Lemma render_tween_created : forall dt tw s,
  tw_phase tw = Created ->
  render_tween openOverlay dt tw s =
  (s, Some (with_phase
              (Deferred (props_to (tw_vars tw) (tween_object (tw_target tw) s)))
              (with_elapsed (tw_elapsed tw + dt) tw))).
Proof. intros dt tw s P. unfold render_tween. rewrite P. reflexivity. Qed.

Lemma render_lazy_running : forall tw props s,
  tw_phase tw = Deferred props ->
  Qle_bool (tw_duration tw) (tw_elapsed tw) = false ->
  render_lazy openOverlay tw s =
  (fire_update (tw_onUpdate tw)
     (tween_write (tw_target tw)
        (apply_props (ease_at (tw_ease tw) (tw_elapsed tw / tw_duration tw))
                     props (tween_object (tw_target tw) s)) s),
   Some (with_phase (Running props) tw)).
Proof.
  intros tw props s P H. unfold render_lazy, render_at, progress. rewrite P, H.
  reflexivity.
Qed.

Lemma render_lazy_done : forall tw props s,
  tw_phase tw = Deferred props ->
  Qle_bool (tw_duration tw) (tw_elapsed tw) = true ->
  render_lazy openOverlay tw s =
  (fire_complete openOverlay (tw_onComplete tw)
     (fire_update (tw_onUpdate tw)
        (tween_write (tw_target tw)
           (apply_props (ease_at (tw_ease tw) 1)
                        props (tween_object (tw_target tw) s)) s)),
   None).
Proof.
  intros tw props s P H. unfold render_lazy, render_at, progress. rewrite P, H.
  reflexivity.
Qed.

End EngineSteps.


(** *** Arithmetic of the clock and of the curves *)

Lemma total_snoc : forall l dt, total (l ++ [dt]) = total l + dt.
Proof. intros; unfold total; rewrite fold_left_app; reflexivity. Qed.

Lemma nonneg_snoc : forall l dt, nonneg (l ++ [dt]) -> nonneg l /\ 0 <= dt.
Proof.
  unfold nonneg; intros l dt H. apply Forall_app in H. destruct H as [H1 H2].
  split; [exact H1|]. inversion H2; assumption.
Qed.

Lemma Qle_bool_false : forall a b, Qle_bool a b = false <-> b < a.
Proof.
  intros a b. split; intro H.
  - apply Qnot_le_lt. intro L. apply Qle_bool_iff in L. congruence.
  - destruct (Qle_bool a b) eqn:E; [|reflexivity].
    apply Qle_bool_iff in E. exfalso. apply (Qlt_not_le _ _ H E).
Qed.

Lemma ease_at_end : forall e, ease_at e 1 == 1.
Proof. intros []; reflexivity. Qed.

Lemma lerp_end : forall a b r, r == 1 -> lerp a b r == b.
Proof. intros a b r H. unfold lerp. rewrite H. ring. Qed.

Lemma lerp3_end : forall a b e, lerp3 a b (ease_at e 1) =v= b.
Proof.
  intros a b e. unfold lerp3, v3_eq; simpl.
  repeat split; apply lerp_end, ease_at_end.
Qed.

Lemma v3_eq_refl : forall a, a =v= a.
Proof. intro a; repeat split; reflexivity. Qed.

Lemma main_run_snoc : forall es e s,
  MainJs.run (es ++ [e]) s = MainJs.dispatch e (MainJs.run es s).
Proof. intros; unfold MainJs.run; rewrite fold_left_app; reflexivity. Qed.

Lemma alt_run_snoc : forall es e s,
  Alt.run (es ++ [e]) s = Alt.dispatch e (Alt.run es s).
Proof. intros; unfold Alt.run; rewrite fold_left_app; reflexivity. Qed.

(** *** Variant 1, flying in *)

Lemma main_frame_focus_step : forall s ph p0 e dt,
  tweens s = [main_focus_made ph e] ->
  (ph = Created /\ p0 = position (camera s)) \/
  ph = Running (props_to (xyz MainJs.SIT_POS) p0) ->
  enabled (controls s) = false ->
  (Qle_bool 1.2 (e + dt) = false ->
     tweens (MainJs.frame dt s) = [main_focus_tween p0 (e + dt)] /\
     dom (MainJs.frame dt s) = dom s /\
     controls (MainJs.frame dt s) = controls s /\
     position (camera (MainJs.frame dt s)) =
       lerp3 p0 MainJs.SIT_POS (ease_at Power3InOut ((e + dt) / 1.2)) /\
     look (camera (MainJs.frame dt s)) = MainJs.SIT_TARGET) /\
  (Qle_bool 1.2 (e + dt) = true ->
     tweens (MainJs.frame dt s) = [] /\
     position (camera (MainJs.frame dt s)) =
       lerp3 p0 MainJs.SIT_POS (ease_at Power3InOut 1) /\
     look (camera (MainJs.frame dt s)) = MainJs.SIT_TARGET /\
     overlay_hidden (dom (MainJs.frame dt s)) = false /\
     iframe_focus (dom (MainJs.frame dt s)) = S (iframe_focus (dom s)) /\
     enabled (controls (MainJs.frame dt s)) = false /\
     target (controls (MainJs.frame dt s)) = target (controls s)).
Proof.
  intros s ph p0 e dt T PH E.
  unfold MainJs.frame, gsap_tick. qsimpl. rewrite T.
  unfold render_each.
  destruct PH as [[-> ->]| ->]; split; intro H.
  - rewrite render_tween_created by reflexivity.
    erewrite render_lazy_running; [|reflexivity|exact H].
    unfold MainJs.animate. qsimpl. rewrite E. qsimpl.
    destruct (controls s); simpl in *. subst. repeat split.
  - rewrite render_tween_created by reflexivity.
    erewrite render_lazy_done; [|reflexivity|exact H].
    unfold MainJs.animate. qsimpl. repeat split.
  - erewrite render_tween_running; [|reflexivity|exact H].
    unfold MainJs.animate. qsimpl. rewrite E. qsimpl.
    destruct (controls s); simpl in *. subst. repeat split.
  - erewrite render_tween_done; [|reflexivity|exact H].
    unfold MainJs.animate. qsimpl. repeat split.
Qed.

(** A frame with nothing in flight and the controls disabled leaves the
    camera, the controls and the DOM alone. *)
Lemma main_frame_rest : forall s dt,
  tweens s = [] -> enabled (controls s) = false ->
  tweens (MainJs.frame dt s) = [] /\ camera (MainJs.frame dt s) = camera s /\
  controls (MainJs.frame dt s) = controls s /\ dom (MainJs.frame dt s) = dom s.
Proof.
  intros s dt T E. unfold MainJs.frame.
  rewrite gsap_tick_idle by exact T.
  unfold MainJs.animate. qsimpl. rewrite E. qsimpl. auto.
Qed.

Lemma list_nil_or_not : forall (A : Type) (l : list A), l = [] \/ l <> [].
Proof. intros A [|a l]; [left; reflexivity|right; discriminate]. Qed.

Lemma snoc_not_nil : forall (A : Type) (l : list A) (a : A), l ++ [a] <> [].
Proof. intros A [|b l] a H; discriminate H. Qed.

Lemma main_focus_run : forall s dts,
  tweens s = [] -> monitorMesh s <> None -> nonneg dts ->
  let s' := MainJs.run (map EvFrame dts) (MainJs.focusOnMonitor s) in
  (total dts < 1.2 ->
     (exists ph, tweens s' = [main_focus_made ph (total dts)] /\
        (dts = [] -> ph = Created /\ camera s' = camera s) /\
        (dts <> [] ->
           ph = Running (props_to (xyz MainJs.SIT_POS) (position (camera s))))) /\
     dom s' = dom s /\ enabled (controls s') = false /\
     target (controls s') = target (controls s) /\
     (dts <> [] ->
        position (camera s') =
          lerp3 (position (camera s)) MainJs.SIT_POS
                (ease_at Power3InOut (total dts / 1.2)) /\
        look (camera s') = MainJs.SIT_TARGET)) /\
  (1.2 <= total dts ->
     tweens s' = [] /\
     position (camera s') =
       lerp3 (position (camera s)) MainJs.SIT_POS (ease_at Power3InOut 1) /\
     look (camera s') = MainJs.SIT_TARGET /\
     overlay_hidden (dom s') = false /\
     iframe_focus (dom s') = S (iframe_focus (dom s)) /\
     enabled (controls s') = false /\
     target (controls s') = target (controls s)).
Proof.
  intros s dts T M. induction dts as [|dt l IH] using rev_ind; intro N.
  - simpl. split.
    + intros _. unfold MainJs.focusOnMonitor.
      destruct (monitorMesh s); [|congruence].
      unfold gsap_to. qsimpl. rewrite T.
      split; [exists Created; split; [reflexivity|]; split; [auto|congruence]|].
      repeat split; congruence.
    + intro H. exfalso. unfold total in H. simpl in H. revert H. apply Qlt_not_le. reflexivity.
  - apply nonneg_snoc in N. destruct N as [N Hdt].
    specialize (IH N). cbv zeta in IH. destruct IH as [IH1 IH2].
    rewrite map_app. simpl map. rewrite main_run_snoc. rewrite total_snoc.
    unfold MainJs.dispatch.
    set (s1 := MainJs.run (map EvFrame l) (MainJs.focusOnMonitor s)) in *.
    pose proof (snoc_not_nil Q l dt) as NE.
    destruct (Qlt_le_dec (total l) 1.2) as [Lt|Ge].
    + destruct (IH1 Lt) as ((ph & I1 & I1a & I1b) & I2 & I3 & I4 & _).
      assert (PH : (ph = Created /\ position (camera s) = position (camera s1)) \/
                   ph = Running (props_to (xyz MainJs.SIT_POS) (position (camera s)))).
      { destruct (list_nil_or_not Q l) as [L|L].
        - left. destruct (I1a L) as [P C]. rewrite C. auto.
        - right. auto. }
      destruct (main_frame_focus_step s1 ph _ _ dt I1 PH I3) as [R D].
      split; intro H.
      * apply Qle_bool_false in H. destruct (R H) as (R1 & R2 & R3 & R4 & R5).
        rewrite R1, R2, R3, R4, R5, I2, I3, I4.
        split; [eexists; split; [reflexivity|]; split; [congruence|reflexivity]|].
        repeat split.
      * apply Qle_bool_iff in H. destruct (D H) as (D1 & D2 & D3 & D4 & D5 & D6 & D7).
        rewrite D1, D2, D3, D4, D5, D6, D7, I2, I4. repeat split.
    + destruct (IH2 Ge) as (I1 & I2 & I3 & I4 & I5 & I6 & I7).
      destruct (main_frame_rest s1 dt I1 I6) as (F1 & F2 & F3 & F4).
      split; intro H.
      * exfalso. lra.
      * rewrite F1, F2, F3, F4. repeat split; assumption.
Qed.

(** *** Variant 1, flying back *)


(** A frame with nothing in flight and the controls enabled re-aims the
    camera at the controls' target and changes nothing else. *)
Lemma main_frame_orbit : forall s dt,
  tweens s = [] -> enabled (controls s) = true ->
  tweens (MainJs.frame dt s) = [] /\
  position (camera (MainJs.frame dt s)) = position (camera s) /\
  look (camera (MainJs.frame dt s)) = target (controls s) /\
  controls (MainJs.frame dt s) = controls s /\ dom (MainJs.frame dt s) = dom s.
Proof.
  intros s dt T E. unfold MainJs.frame.
  rewrite gsap_tick_idle by exact T.
  unfold MainJs.animate. qsimpl. rewrite E. qsimpl. auto.
Qed.


(** *** Variant 2: a pair of tracks *)

Lemma alt_frame_pair_step : forall s dest p0 dest' t0 cb ph1 ph2 e dt,
  tweens s = [alt_position_made dest ph1 e; alt_target_made dest' cb ph2 e] ->
  (ph1 = Created /\ ph2 = Created /\
   p0 = position (camera s) /\ t0 = target (controls s)) \/
  (ph1 = Running (props_to (xyz dest) p0) /\ ph2 = Running (props_to (xyz dest') t0)) ->
  (Qle_bool 1.5 (e + dt) = false ->
     tweens (Alt.frame dt s) =
       [alt_position_tween dest p0 (e + dt); alt_target_tween dest' t0 cb (e + dt)] /\
     dom (Alt.frame dt s) = dom s /\
     enabled (controls (Alt.frame dt s)) = enabled (controls s) /\
     position (camera (Alt.frame dt s)) =
       lerp3 p0 dest (ease_at Power2InOut ((e + dt) / 1.5)) /\
     target (controls (Alt.frame dt s)) =
       lerp3 t0 dest' (ease_at Power2InOut ((e + dt) / 1.5)) /\
     look (camera (Alt.frame dt s)) = target (controls (Alt.frame dt s))) /\
  (Qle_bool 1.5 (e + dt) = true ->
     tweens (Alt.frame dt s) = [] /\
     position (camera (Alt.frame dt s)) = lerp3 p0 dest (ease_at Power2InOut 1) /\
     target (controls (Alt.frame dt s)) = lerp3 t0 dest' (ease_at Power2InOut 1) /\
     look (camera (Alt.frame dt s)) = target (controls (Alt.frame dt s)) /\
     dom (Alt.frame dt s) = dom (fire_complete Alt.openOverlay (Some cb) s) /\
     enabled (controls (Alt.frame dt s)) =
       enabled (controls (fire_complete Alt.openOverlay (Some cb) s))).
Proof.
  intros s dest p0 dest' t0 cb ph1 ph2 e dt T PH.
  unfold Alt.frame, gsap_tick. qsimpl. rewrite T.
  unfold render_each.
  destruct PH as [(-> & -> & -> & ->)|[-> ->]]; split; intro H.
  - rewrite !render_tween_created by reflexivity.
    erewrite render_lazy_running; [|reflexivity|exact H].
    erewrite render_lazy_running; [|reflexivity|exact H].
    unfold Alt.animate. qsimpl. repeat split.
  - rewrite !render_tween_created by reflexivity.
    erewrite render_lazy_done; [|reflexivity|exact H].
    erewrite render_lazy_done; [|reflexivity|exact H].
    unfold Alt.animate. destruct cb; qsimpl; repeat split.
  - erewrite render_tween_running; [|reflexivity|exact H].
    erewrite render_tween_running; [|reflexivity|exact H].
    unfold Alt.animate. qsimpl. repeat split.
  - erewrite render_tween_done; [|reflexivity|exact H].
    erewrite render_tween_done; [|reflexivity|exact H].
    unfold Alt.animate. destruct cb; qsimpl; repeat split.
Qed.

Lemma alt_frame_rest : forall s dt,
  tweens s = [] ->
  tweens (Alt.frame dt s) = [] /\
  position (camera (Alt.frame dt s)) = position (camera s) /\
  look (camera (Alt.frame dt s)) = target (controls s) /\
  controls (Alt.frame dt s) = controls s /\ dom (Alt.frame dt s) = dom s.
Proof.
  intros s dt T. unfold Alt.frame.
  rewrite gsap_tick_idle by exact T.
  unfold Alt.animate. qsimpl. auto.
Qed.

Lemma alt_pair_run : forall s1 dest dest' cb dts,
  tweens s1 = [alt_position_made dest Created 0; alt_target_made dest' cb Created 0] ->
  nonneg dts ->
  let s' := Alt.run (map EvFrame dts) s1 in
  (total dts < 1.5 ->
     (exists ph1 ph2,
        tweens s' = [alt_position_made dest ph1 (total dts);
                     alt_target_made dest' cb ph2 (total dts)] /\
        (dts = [] -> ph1 = Created /\ ph2 = Created /\
                     camera s' = camera s1 /\ controls s' = controls s1) /\
        (dts <> [] ->
           ph1 = Running (props_to (xyz dest) (position (camera s1))) /\
           ph2 = Running (props_to (xyz dest') (target (controls s1))))) /\
     dom s' = dom s1 /\ enabled (controls s') = enabled (controls s1) /\
     (dts <> [] ->
        position (camera s') =
          lerp3 (position (camera s1)) dest (ease_at Power2InOut (total dts / 1.5)) /\
        target (controls s') =
          lerp3 (target (controls s1)) dest' (ease_at Power2InOut (total dts / 1.5)) /\
        look (camera s') = target (controls s'))) /\
  (1.5 <= total dts ->
     tweens s' = [] /\
     position (camera s') = lerp3 (position (camera s1)) dest (ease_at Power2InOut 1) /\
     target (controls s') = lerp3 (target (controls s1)) dest' (ease_at Power2InOut 1) /\
     look (camera s') = target (controls s') /\
     dom s' = dom (fire_complete Alt.openOverlay (Some cb) s1) /\
     enabled (controls s') =
       enabled (controls (fire_complete Alt.openOverlay (Some cb) s1))).
Proof.
  intros s1 dest dest' cb dts T.
  induction dts as [|dt l IH] using rev_ind; intro N.
  - simpl. split.
    + intros _. split; [exists Created, Created; split; [exact T|]; split; [auto|congruence]|].
      repeat split; congruence.
    + intro H. exfalso. unfold total in H. simpl in H. revert H.
      apply Qlt_not_le. reflexivity.
  - apply nonneg_snoc in N. destruct N as [N Hdt].
    specialize (IH N). cbv zeta in IH. destruct IH as [IH1 IH2].
    rewrite map_app. simpl map. rewrite alt_run_snoc. rewrite total_snoc.
    unfold Alt.dispatch.
    set (s2 := Alt.run (map EvFrame l) s1) in *.
    pose proof (snoc_not_nil Q l dt) as NE.
    destruct (Qlt_le_dec (total l) 1.5) as [Lt|Ge].
    + destruct (IH1 Lt) as ((ph1 & ph2 & I1 & I1a & I1b) & I2 & I3 & _).
      assert (PH : (ph1 = Created /\ ph2 = Created /\
                    position (camera s1) = position (camera s2) /\
                    target (controls s1) = target (controls s2)) \/
                   (ph1 = Running (props_to (xyz dest) (position (camera s1))) /\
                    ph2 = Running (props_to (xyz dest') (target (controls s1))))).
      { destruct (list_nil_or_not Q l) as [L|L].
        - left. destruct (I1a L) as (P1 & P2 & C1 & C2). rewrite C1, C2. auto.
        - right. auto. }
      destruct (alt_frame_pair_step s2 _ _ _ _ _ _ _ _ dt I1 PH) as [R D].
      split; intro H.
      * apply Qle_bool_false in H. destruct (R H) as (R1 & R2 & R3 & R4 & R5 & R6).
        rewrite R6, R1, R2, R3, R4, R5, I2, I3.
        split; [do 2 eexists; split; [reflexivity|]; split; [congruence|split; reflexivity]|].
        repeat split.
      * apply Qle_bool_iff in H. destruct (D H) as (D1 & D2 & D3 & D4 & D5 & D6).
        rewrite D4, D1, D2, D3, D5, D6. clear R D D1 D2 D3 D4 D5 D6.
        destruct cb; qsimpl; rewrite ?I2, ?I3; repeat split.
    + destruct (IH2 Ge) as (I1 & I2 & I3 & I4 & I5 & I6).
      destruct (alt_frame_rest s2 dt I1) as (F1 & F2 & F3 & F4 & F5).
      split; intro H.
      * exfalso. lra.
      * rewrite F1, F2, F3, F4, F5. repeat split; assumption.
Qed.

(** ** What a tick does to the flags and to the transitions in flight

    Stated once for both variants: [cf] is what the variant's completion
    callbacks do to the flags. *)

Lemma tween_write_flags : forall tg v s, flags (tween_write tg v s) = flags s.
Proof. intros [] v s; reflexivity. Qed.

Lemma fire_update_flags : forall cb s, flags (fire_update cb s) = flags s.
Proof. intros [[p|]|] s; reflexivity. Qed.

Lemma alt_fire_complete_flags : forall cb s,
  flags (fire_complete Alt.openOverlay cb s) = alt_complete_flags cb (flags s).
Proof. intros [[|]|] s; reflexivity. Qed.

Lemma main_fire_complete_flags : forall cb s,
  flags (fire_complete MainJs.openOverlay cb s) = main_complete_flags cb (flags s).
Proof. intros [[|]|] s; reflexivity. Qed.

Section TickFlags.

Variable oo : State -> State.
Variable cf : option CompleteCb -> bool * bool -> bool * bool.
Hypothesis cf_spec : forall cb s, flags (fire_complete oo cb s) = cf cb (flags s).

Lemma render_at_callback : forall props tw s s1 keep,
  render_at oo props tw s = (s1, keep) ->
  (keep = None /\ flags s1 = cf (tw_onComplete tw) (flags s)) \/
  (exists tw', keep = Some tw' /\ tw_onComplete tw' = tw_onComplete tw /\
               flags s1 = flags s).
Proof.
  intros props tw s s1 keep R. unfold render_at in R.
  destruct (Qle_bool (tw_duration tw) (tw_elapsed tw));
    inversion R; subst s1 keep; clear R.
  - left. split; [reflexivity|].
    rewrite cf_spec, fire_update_flags, tween_write_flags. reflexivity.
  - right. eexists. split; [reflexivity|]. split; [reflexivity|].
    rewrite fire_update_flags, tween_write_flags. reflexivity.
Qed.

Lemma render_tween_callback : forall dt tw s s1 keep,
  render_tween oo dt tw s = (s1, keep) ->
  (keep = None /\ flags s1 = cf (tw_onComplete tw) (flags s)) \/
  (exists tw', keep = Some tw' /\ tw_onComplete tw' = tw_onComplete tw /\
               flags s1 = flags s).
Proof.
  intros dt tw s s1 keep R. unfold render_tween in R.
  destruct (tw_phase tw).
  - inversion R; subst s1 keep. right. eexists. repeat split.
  - apply render_at_callback in R. exact R.
  - apply render_at_callback in R. exact R.
Qed.

Lemma render_lazy_callback : forall tw s s1 keep,
  render_lazy oo tw s = (s1, keep) ->
  (keep = None /\ flags s1 = cf (tw_onComplete tw) (flags s)) \/
  (exists tw', keep = Some tw' /\ tw_onComplete tw' = tw_onComplete tw /\
               flags s1 = flags s).
Proof.
  intros tw s s1 keep R. unfold render_lazy in R.
  destruct (tw_phase tw).
  - inversion R; subst s1 keep. right. eexists. repeat split.
  - apply render_at_callback in R. exact R.
  - inversion R; subst s1 keep. right. eexists. repeat split.
Qed.

Lemma render_each_callback : forall f,
  (forall tw s s1 keep, f tw s = (s1, keep) ->
     (keep = None /\ flags s1 = cf (tw_onComplete tw) (flags s)) \/
     (exists tw', keep = Some tw' /\ tw_onComplete tw' = tw_onComplete tw /\
                  flags s1 = flags s)) ->
  (forall f0, cf None f0 = f0) ->
  forall tws s s' live,
  render_each f tws s = (s', live) ->
  (filter is_transition tws = [] ->
     flags s' = flags s /\ filter is_transition live = []) /\
  (forall tw, filter is_transition tws = [tw] ->
     (flags s' = flags s /\
      exists tw', filter is_transition live = [tw'] /\
                  tw_onComplete tw' = tw_onComplete tw) \/
     (filter is_transition live = [] /\
      flags s' = cf (tw_onComplete tw) (flags s))).
Proof.
  intros f Hf cf_none tws. induction tws as [|tw rest IH]; intros s s' live R.
  - simpl in R. inversion R; subst. split; [auto|]. intros tw H. discriminate H.
  - simpl in R.
    destruct (f tw s) as [s1 keep] eqn:RT.
    destruct (render_each f rest s1) as [s2 rest'] eqn:RA.
    inversion R; subst s' live. clear R.
    destruct (IH _ _ _ RA) as [IH1 IH2]. clear IH.
    apply Hf in RT.
    simpl filter. destruct (is_transition tw) eqn:IT.
    + split; [intro H; discriminate H|].
      intros tw0 H. injection H as H0 H1. subst tw0.
      destruct (IH1 H1) as [F2 L2].
      destruct RT as [[K F1]|[tw' [K [T' F1]]]]; subst keep.
      * right. split; [exact L2|]. rewrite F2, F1. reflexivity.
      * left. rewrite F2, F1. split; [reflexivity|].
        exists tw'. split; [|exact T'].
        cbn [filter]. unfold is_transition at 1. rewrite T'.
        unfold is_transition in IT. destruct (tw_onComplete tw); [|discriminate IT].
        rewrite L2. reflexivity.
    + assert (E : flags s1 = flags s /\
                  filter is_transition
                    (match keep with Some t => t :: rest' | None => rest' end)
                  = filter is_transition rest').
      { unfold is_transition in IT.
        destruct (tw_onComplete tw) eqn:OC; [discriminate IT|].
        destruct RT as [[K F1]|[tw' [K [T' F1]]]]; subst keep.
        - split; [rewrite F1; apply cf_none|reflexivity].
        - split; [exact F1|]. cbn [filter]. unfold is_transition at 1.
          rewrite T'. reflexivity. }
      destruct E as [F1 E]. rewrite E.
      split.
      * intro H. destruct (IH1 H) as [A B]. rewrite A, F1. auto.
      * intros tw0 H. rewrite <- F1. exact (IH2 tw0 H).
Qed.

Hypothesis cf_none : forall f0, cf None f0 = f0.

(** A tick ends no more than the transitions whose time is up, and each
    with its own callback. *)
Lemma gsap_tick_callback : forall dt s,
  (transitions s = [] ->
     flags (gsap_tick oo dt s) = flags s /\ transitions (gsap_tick oo dt s) = []) /\
  (forall tw, transitions s = [tw] ->
     (flags (gsap_tick oo dt s) = flags s /\
      exists tw', transitions (gsap_tick oo dt s) = [tw'] /\
                  tw_onComplete tw' = tw_onComplete tw) \/
     (transitions (gsap_tick oo dt s) = [] /\
      flags (gsap_tick oo dt s) = cf (tw_onComplete tw) (flags s))).
Proof.
  intros dt s. unfold gsap_tick, transitions.
  destruct (render_each (render_tween oo dt) (tweens s) s) as [s1 met] eqn:R1.
  destruct (render_each (render_lazy oo) met s1) as [s2 live] eqn:R2.
  apply (render_each_callback _ (render_tween_callback dt) cf_none) in R1.
  apply (render_each_callback _ render_lazy_callback cf_none) in R2.
  destruct R1 as [A1 A2]. destruct R2 as [B1 B2].
  change (tweens (set_tweens live s2)) with live.
  change (flags (set_tweens live s2)) with (flags s2).
  split.
  - intro T. destruct (A1 T) as [F1 L1]. destruct (B1 L1) as [F2 L2].
    split; [congruence|exact L2].
  - intros tw T. destruct (A2 tw T) as [[F1 [tw1 [L1 C1]]]|[L1 F1]].
    + destruct (B2 tw1 L1) as [[F2 [tw2 [L2 C2]]]|[L2 F2]].
      * left. split; [congruence|]. exists tw2. split; [exact L2|congruence].
      * right. split; [exact L2|]. rewrite F2, F1, C1. reflexivity.
    + destruct (B1 L1) as [F2 L2]. right. split; [exact L2|congruence].
Qed.

End TickFlags.

Lemma alt_complete_none : forall f0, alt_complete_flags None f0 = f0.
Proof. reflexivity. Qed.

Lemma main_complete_none : forall f0, main_complete_flags None f0 = f0.
Proof. reflexivity. Qed.

(** ** Variant 2 keeps flags and view state together *)

Lemma alt_animate_keeps : forall s,
  flags (Alt.animate s) = flags s /\ tweens (Alt.animate s) = tweens s.
Proof. intro s; split; reflexivity. Qed.

Lemma alt_frame_coherent : forall s dt, coherent s -> coherent (Alt.frame dt s).
Proof.
  intros s dt C. unfold Alt.frame.
  set (s0 := set_clock (clock s + dt * 1000) s).
  assert (C0 : coherent s0) by exact C.
  clearbody s0. clear C.
  unfold coherent in *.
  destruct (alt_animate_keeps (gsap_tick Alt.openOverlay dt s0)) as [A1 A2].
  unfold transitions at 1. rewrite A1, A2. clear A1 A2.
  fold (transitions (gsap_tick Alt.openOverlay dt s0)).
  destruct (gsap_tick_callback Alt.openOverlay alt_complete_flags
              alt_fire_complete_flags alt_complete_none dt s0) as [R1 R2].
  destruct (transitions s0) as [|tw [|tw2 r]] eqn:T.
  - destruct (R1 eq_refl) as [F L]. rewrite L, F. exact C0.
  - destruct (R2 tw eq_refl) as [[F [tw' [L _]]]|[L F]]; rewrite L, F; [exact C0|].
    rewrite C0.
    assert (IT : is_transition tw = true).
    { assert (I : In tw (transitions s0)) by (rewrite T; left; reflexivity).
      unfold transitions in I. apply filter_In in I. apply I. }
    unfold is_transition in IT.
    destruct (tw_onComplete tw) as [[|]|]; simpl; auto. discriminate IT.
  - contradiction.
Qed.

Lemma alt_visit_keeps : forall asset s,
  flags (fold_left (fun acc child => Alt.visit child acc) asset s) = flags s /\
  tweens (fold_left (fun acc child => Alt.visit child acc) asset s) = tweens s.
Proof.
  induction asset as [|c r IH]; intro s; simpl; [auto|].
  destruct (IH (Alt.visit c s)) as [A B]. rewrite A, B.
  unfold Alt.visit. destruct (isMesh c && includes (name c) "Monitor_Screen")%bool; auto.
Qed.

Lemma alt_onLoad_keeps : forall asset s,
  flags (Alt.onLoad asset s) = flags s /\
  transitions (Alt.onLoad asset s) = transitions s.
Proof.
  intros asset s. unfold Alt.onLoad, gsap_from, transitions.
  destruct (alt_visit_keeps asset s) as [A B].
  destruct (existsb (fun child => includes (name child) "Target_Desk") asset);
    cbn -[Qle_bool Qplus Qmult Qdiv Qminus Qopp ease_at lerp];
    rewrite filter_app; simpl; rewrite app_nil_r, B; split; try reflexivity; exact A.
Qed.

Theorem alt_coherent : forall s, Alt.reachable s -> coherent s.
Proof.
  induction 1 as [|s e R IH].
  - vm_compute. auto.
  - destruct e as [hit|p t| |key|dt|asset| ]; unfold Alt.dispatch.
    + unfold Alt.onPointerDown.
      case_eq (enabled (controls s)); intro E; simpl negb; cbv iota; [|exact IH].
      destruct (nearest_hit s hit) as [o|]; [|exact IH].
      destruct (Alt.is_interactive (monitorMesh s) o); [|exact IH].
      unfold coherent, transitions, flags in *.
      unfold Alt.moveToMonitor, gsap_to.
      cbn -[Qle_bool Qplus Qmult Qdiv Qminus Qopp ease_at lerp filter].
      rewrite !filter_app. simpl. rewrite app_nil_r.
      rewrite E in IH.
      destruct (filter is_transition (tweens s)) as [|t1 [|t2 r]].
      * simpl. destruct IH as [IH|IH]; inversion IH. reflexivity.
      * inversion IH.
      * contradiction.
    + destruct (enabled (controls s)); exact IH.
    + case_eq (overlay_hidden (dom s)); intro O; [exact IH|].
      unfold coherent, transitions, flags in *.
      unfold Alt.returnToOffice, gsap_to.
      cbn -[Qle_bool Qplus Qmult Qdiv Qminus Qopp ease_at lerp filter].
      rewrite !filter_app. simpl. rewrite app_nil_r.
      rewrite O in IH.
      destruct (filter is_transition (tweens s)) as [|t1 [|t2 r]].
      * simpl. destruct IH as [IH|IH]; inversion IH. reflexivity.
      * inversion IH.
      * contradiction.
    + exact IH.
    + apply alt_frame_coherent. exact IH.
    + destruct (load_pending s); [|exact IH].
      unfold coherent.
      destruct (alt_onLoad_keeps asset (set_load_pending false s)) as [A B].
      rewrite A, B. exact IH.
    + destruct (load_pending s); exact IH.
Qed.

(** In every reachable state of variant 2 the controls are enabled exactly
    while orbiting and the overlay shows exactly when focused. *)
Corollary alt_flags_follow_view_state : forall s, Alt.reachable s ->
  (enabled (controls s) = true <-> view_state s = ORBITING) /\
  (overlay_visible s = true <-> view_state s = FOCUSED).
Proof.
  intros s R. pose proof (alt_coherent s R) as C.
  unfold coherent, view_state, in_flight, overlay_visible, flags in *.
  destruct (transitions s) as [|t1 [|t2 r]]; [| |contradiction].
  - destruct C as [C|C]; injection C as E O; rewrite E, O; simpl;
      split; split; intro X; try reflexivity; try discriminate X.
  - injection C as E O. rewrite E, O. simpl.
    split; split; intro X; discriminate X.
Qed.

(** *** Variant 2: a pair of tracks started while other tweens run

    Tweens without a completion callback (the intro animation) may still
    be in flight when the pair is created; they come first in the
    engine's list, and the pair overwrites what they wrote. *)


Lemma render_at_quiet : forall oo props tw s,
  is_transition tw = false ->
  dom (fst (render_at oo props tw s)) = dom s /\
  enabled (controls (fst (render_at oo props tw s))) = enabled (controls s) /\
  (forall tw', snd (render_at oo props tw s) = Some tw' -> is_transition tw' = false).
Proof.
  intros oo props tw s Q. unfold render_at. unfold is_transition in Q.
  destruct (tw_onComplete tw) eqn:OC; [discriminate Q|].
  destruct (Qle_bool (tw_duration tw) (tw_elapsed tw)); simpl.
  - split; [|split; [|intros tw' X; discriminate X]];
      destruct (tw_target tw); destruct (tw_onUpdate tw) as [[q|]|]; reflexivity.
  - split; [|split].
    + destruct (tw_target tw); destruct (tw_onUpdate tw) as [[q|]|]; reflexivity.
    + destruct (tw_target tw); destruct (tw_onUpdate tw) as [[q|]|]; reflexivity.
    + intros tw' X. injection X as <-. unfold is_transition. simpl. rewrite OC. reflexivity.
Qed.

Lemma render_tween_quiet : forall oo dt tw s,
  is_transition tw = false ->
  dom (fst (render_tween oo dt tw s)) = dom s /\
  enabled (controls (fst (render_tween oo dt tw s))) = enabled (controls s) /\
  (forall tw', snd (render_tween oo dt tw s) = Some tw' -> is_transition tw' = false).
Proof.
  intros oo dt tw s Q. unfold render_tween.
  destruct (tw_phase tw).
  - simpl. split; [reflexivity|]. split; [reflexivity|].
    intros tw' X. injection X as <-. exact Q.
  - apply render_at_quiet. exact Q.
  - apply render_at_quiet. exact Q.
Qed.

Lemma render_lazy_quiet : forall oo tw s,
  is_transition tw = false ->
  dom (fst (render_lazy oo tw s)) = dom s /\
  enabled (controls (fst (render_lazy oo tw s))) = enabled (controls s) /\
  (forall tw', snd (render_lazy oo tw s) = Some tw' -> is_transition tw' = false).
Proof.
  intros oo tw s Q. unfold render_lazy.
  destruct (tw_phase tw).
  - simpl. split; [reflexivity|]. split; [reflexivity|].
    intros tw' X. injection X as <-. exact Q.
  - apply render_at_quiet. exact Q.
  - simpl. split; [reflexivity|]. split; [reflexivity|].
    intros tw' X. injection X as <-. exact Q.
Qed.

Lemma render_each_quiet : forall f,
  (forall tw s, is_transition tw = false ->
     dom (fst (f tw s)) = dom s /\
     enabled (controls (fst (f tw s))) = enabled (controls s) /\
     (forall tw', snd (f tw s) = Some tw' -> is_transition tw' = false)) ->
  forall pre s,
  Forall (fun tw => is_transition tw = false) pre ->
  dom (fst (render_each f pre s)) = dom s /\
  enabled (controls (fst (render_each f pre s))) = enabled (controls s) /\
  Forall (fun tw => is_transition tw = false) (snd (render_each f pre s)).
Proof.
  intros f Hf pre. induction pre as [|tw pre IH]; intros s F; simpl; [auto|].
  inversion F as [|? ? Q FR]; subst.
  destruct (Hf tw s Q) as (K1 & K2 & K3).
  destruct (f tw s) as [s1 keep]; simpl in *.
  destruct (IH s1 FR) as (I1 & I2 & I3).
  destruct (render_each f pre s1) as [s2 pre']; simpl in *.
  split; [congruence|]. split; [congruence|].
  destruct keep; [constructor; auto|assumption].
Qed.

(** The pair's first frame, behind quiet tweens: it reads its start
    values when the tweens before it have written, and writes at the end
    of the tick. *)
Lemma alt_frame_pair_first : forall s pre dest dest' cb e dt,
  tweens s = pre ++ [alt_position_made dest Created e;
                     alt_target_made dest' cb Created e] ->
  Forall (fun tw => is_transition tw = false) pre ->
  let s1 := fst (render_each (render_tween Alt.openOverlay dt) pre
                   (set_clock (clock s + dt * 1000) s)) in
  exists pre',
    Forall (fun tw => is_transition tw = false) pre' /\ Forall started pre' /\
    (Qle_bool 1.5 (e + dt) = false ->
       tweens (Alt.frame dt s) =
         pre' ++ [alt_position_tween dest (position (camera s1)) (e + dt);
                  alt_target_tween dest' (target (controls s1)) cb (e + dt)] /\
       dom (Alt.frame dt s) = dom s /\
       enabled (controls (Alt.frame dt s)) = enabled (controls s) /\
       position (camera (Alt.frame dt s)) =
         lerp3 (position (camera s1)) dest (ease_at Power2InOut ((e + dt) / 1.5)) /\
       target (controls (Alt.frame dt s)) =
         lerp3 (target (controls s1)) dest' (ease_at Power2InOut ((e + dt) / 1.5)) /\
       look (camera (Alt.frame dt s)) = target (controls (Alt.frame dt s))) /\
    (Qle_bool 1.5 (e + dt) = true ->
       tweens (Alt.frame dt s) = pre' /\
       position (camera (Alt.frame dt s)) =
         lerp3 (position (camera s1)) dest (ease_at Power2InOut 1) /\
       target (controls (Alt.frame dt s)) =
         lerp3 (target (controls s1)) dest' (ease_at Power2InOut 1) /\
       look (camera (Alt.frame dt s)) = target (controls (Alt.frame dt s)) /\
       dom (Alt.frame dt s) = dom (fire_complete Alt.openOverlay (Some cb) s) /\
       enabled (controls (Alt.frame dt s)) =
         enabled (controls (fire_complete Alt.openOverlay (Some cb) s))).
Proof.
  intros s pre dest dest' cb e dt T Q.
  set (s0 := set_clock (clock s + dt * 1000) s).
  set (oo := Alt.openOverlay).
  destruct (render_each_quiet _ (render_tween_quiet oo dt) pre s0 Q) as (Q1 & Q2 & Q3).
  pose proof (render_each_keeps (fun tw => tw_phase tw <> Created) _
                (render_tween_met oo dt) pre s0) as M3.
  intro s1. fold oo in s1. fold s1 in Q1, Q2.
  set (pre1 := snd (render_each (render_tween oo dt) pre s0)) in *.
  destruct (render_each_quiet _ (render_lazy_quiet oo) pre1 s1 Q3) as (L1 & L2 & L3).
  pose proof (render_each_maps (fun tw => tw_phase tw <> Created) started _
                (render_lazy_settles oo) pre1 s1 M3) as S3.
  set (s2 := fst (render_each (render_lazy oo) pre1 s1)) in *.
  set (pre2 := snd (render_each (render_lazy oo) pre1 s1)) in *.
  change (dom s0) with (dom s) in Q1.
  change (enabled (controls s0)) with (enabled (controls s)) in Q2.
  exists pre2.
  split; [exact L3|]. split; [exact S3|].
  unfold Alt.frame, gsap_tick. fold s0.
  replace (tweens s0) with (tweens s) by reflexivity.
  rewrite T, render_each_app. fold oo. fold s1. fold pre1.
  set (a := with_phase (Deferred (props_to (xyz dest) (position (camera s1))))
              (with_elapsed (e + dt) (alt_position_made dest Created e))).
  set (b := with_phase (Deferred (props_to (xyz dest') (target (controls s1))))
              (with_elapsed (e + dt) (alt_target_made dest' cb Created e))).
  assert (E1 : render_each (render_tween oo dt)
                 [alt_position_made dest Created e; alt_target_made dest' cb Created e] s1
               = (s1, [a; b])).
  { unfold render_each. rewrite !render_tween_created by reflexivity. reflexivity. }
  rewrite E1. cbn [fst snd].
  rewrite render_each_app. fold s2. fold pre2.
  split; intro H.
  + assert (E2 : render_each (render_lazy oo) [a; b] s2 =
                 (camera_lookAt (lerp3 (target (controls s1)) dest'
                                       (ease_at Power2InOut ((e + dt) / 1.5)))
                    (controls_target_set
                       (lerp3 (target (controls s1)) dest'
                              (ease_at Power2InOut ((e + dt) / 1.5)))
                       (camera_position_set
                          (lerp3 (position (camera s1)) dest
                                 (ease_at Power2InOut ((e + dt) / 1.5))) s2)),
                  [alt_position_tween dest (position (camera s1)) (e + dt);
                   alt_target_tween dest' (target (controls s1)) cb (e + dt)])).
    { unfold render_each.
      erewrite render_lazy_running; [|reflexivity|exact H].
      erewrite render_lazy_running; [|reflexivity|exact H].
      reflexivity. }
    rewrite E2. unfold Alt.animate. qsimpl. rewrite L1, L2, Q1, Q2. repeat split.
  + assert (E2 : render_each (render_lazy oo) [a; b] s2 =
                 (fire_complete oo (Some cb)
                    (camera_lookAt (lerp3 (target (controls s1)) dest'
                                          (ease_at Power2InOut 1))
                       (controls_target_set
                          (lerp3 (target (controls s1)) dest' (ease_at Power2InOut 1))
                          (camera_position_set
                             (lerp3 (position (camera s1)) dest
                                    (ease_at Power2InOut 1)) s2))),
                  [])).
    { unfold render_each.
      erewrite render_lazy_done; [|reflexivity|exact H].
      erewrite render_lazy_done; [|reflexivity|exact H].
      reflexivity. }
    rewrite E2. unfold Alt.animate, oo.
    destruct cb; qsimpl; rewrite ?L1, ?L2, ?Q1, ?Q2, ?app_nil_r; repeat split.
Qed.

(** A later frame of the pair, behind quiet tweens that have started. *)
Lemma alt_frame_pair_over : forall s pre dest p0 dest' t0 cb e dt,
  tweens s = pre ++ [alt_position_tween dest p0 e; alt_target_tween dest' t0 cb e] ->
  Forall (fun tw => is_transition tw = false) pre -> Forall started pre ->
  exists pre',
    Forall (fun tw => is_transition tw = false) pre' /\ Forall started pre' /\
    (Qle_bool 1.5 (e + dt) = false ->
       tweens (Alt.frame dt s) =
         pre' ++ [alt_position_tween dest p0 (e + dt);
                  alt_target_tween dest' t0 cb (e + dt)] /\
       dom (Alt.frame dt s) = dom s /\
       enabled (controls (Alt.frame dt s)) = enabled (controls s) /\
       position (camera (Alt.frame dt s)) =
         lerp3 p0 dest (ease_at Power2InOut ((e + dt) / 1.5)) /\
       target (controls (Alt.frame dt s)) =
         lerp3 t0 dest' (ease_at Power2InOut ((e + dt) / 1.5)) /\
       look (camera (Alt.frame dt s)) = target (controls (Alt.frame dt s))) /\
    (Qle_bool 1.5 (e + dt) = true ->
       tweens (Alt.frame dt s) = pre' /\
       position (camera (Alt.frame dt s)) = lerp3 p0 dest (ease_at Power2InOut 1) /\
       target (controls (Alt.frame dt s)) = lerp3 t0 dest' (ease_at Power2InOut 1) /\
       look (camera (Alt.frame dt s)) = target (controls (Alt.frame dt s)) /\
       dom (Alt.frame dt s) = dom (fire_complete Alt.openOverlay (Some cb) s) /\
       enabled (controls (Alt.frame dt s)) =
         enabled (controls (fire_complete Alt.openOverlay (Some cb) s))).
Proof.
  intros s pre dest p0 dest' t0 cb e dt T Q ST.
  set (s0 := set_clock (clock s + dt * 1000) s).
  set (oo := Alt.openOverlay).
  destruct (render_each_quiet _ (render_tween_quiet oo dt) pre s0 Q) as (Q1 & Q2 & Q3).
  pose proof (render_each_maps started started _
                (fun tw s3 tw' => render_tween_started oo dt tw s3 tw') pre s0 ST) as S1.
  set (s1 := fst (render_each (render_tween oo dt) pre s0)) in *.
  set (pre1 := snd (render_each (render_tween oo dt) pre s0)) in *.
  change (dom s0) with (dom s) in Q1.
  change (enabled (controls s0)) with (enabled (controls s)) in Q2.
  exists pre1.
  split; [exact Q3|]. split; [exact S1|].
  unfold Alt.frame. fold s0.
  rewrite gsap_tick_single.
  2:{ replace (tweens s0) with (tweens s) by reflexivity. rewrite T.
      apply Forall_app. split; [exact ST|].
      repeat constructor; eexists; reflexivity. }
  replace (tweens s0) with (tweens s) by reflexivity.
  rewrite T, render_each_app. fold oo. fold s1. fold pre1.
  split; intro H.
  + assert (E1 : render_each (render_tween oo dt)
                   [alt_position_tween dest p0 e; alt_target_tween dest' t0 cb e] s1 =
                 (camera_lookAt (lerp3 t0 dest' (ease_at Power2InOut ((e + dt) / 1.5)))
                    (controls_target_set
                       (lerp3 t0 dest' (ease_at Power2InOut ((e + dt) / 1.5)))
                       (camera_position_set
                          (lerp3 p0 dest (ease_at Power2InOut ((e + dt) / 1.5))) s1)),
                  [alt_position_tween dest p0 (e + dt);
                   alt_target_tween dest' t0 cb (e + dt)])).
    { unfold render_each.
      erewrite render_tween_running; [|reflexivity|exact H].
      erewrite render_tween_running; [|reflexivity|exact H].
      reflexivity. }
    rewrite E1. unfold Alt.animate. qsimpl. rewrite Q1, Q2. repeat split.
  + assert (E1 : render_each (render_tween oo dt)
                   [alt_position_tween dest p0 e; alt_target_tween dest' t0 cb e] s1 =
                 (fire_complete oo (Some cb)
                    (camera_lookAt (lerp3 t0 dest' (ease_at Power2InOut 1))
                       (controls_target_set
                          (lerp3 t0 dest' (ease_at Power2InOut 1))
                          (camera_position_set
                             (lerp3 p0 dest (ease_at Power2InOut 1)) s1))),
                  [])).
    { unfold render_each.
      erewrite render_tween_done; [|reflexivity|exact H].
      erewrite render_tween_done; [|reflexivity|exact H].
      reflexivity. }
    rewrite E1. unfold Alt.animate, oo.
    destruct cb; qsimpl; rewrite ?Q1, ?Q2, ?app_nil_r; repeat split.
Qed.

(** The pair in flight behind quiet tweens, from its first frame [dt1]
    on: the start values are those of the camera position and of the
    controls' target when the tweens before the pair have written in the
    first tick. *)
Lemma alt_pair_run_over : forall s1 pre dest dest' cb dt1 rest,
  tweens s1 = pre ++ [alt_position_made dest Created 0;
                      alt_target_made dest' cb Created 0] ->
  Forall (fun tw => is_transition tw = false) pre ->
  nonneg (dt1 :: rest) -> total (dt1 :: rest) < 1.5 ->
  let s0 := fst (render_each (render_tween Alt.openOverlay dt1) pre
                   (set_clock (clock s1 + dt1 * 1000) s1)) in
  let s' := Alt.run (map EvFrame (dt1 :: rest)) s1 in
  (exists pre',
     Forall (fun tw => is_transition tw = false) pre' /\ Forall started pre' /\
     tweens s' =
       pre' ++ [alt_position_tween dest (position (camera s0)) (total (dt1 :: rest));
                alt_target_tween dest' (target (controls s0)) cb (total (dt1 :: rest))]) /\
  dom s' = dom s1 /\ enabled (controls s') = enabled (controls s1) /\
  position (camera s') =
    lerp3 (position (camera s0)) dest (ease_at Power2InOut (total (dt1 :: rest) / 1.5)) /\
  target (controls s') =
    lerp3 (target (controls s0)) dest' (ease_at Power2InOut (total (dt1 :: rest) / 1.5)) /\
  look (camera s') = target (controls s').
Proof.
  intros s1 pre dest dest' cb dt1 rest T Q.
  induction rest as [|dt l IH] using rev_ind; intros N H s0 s'.
  - unfold s'. simpl map. unfold Alt.run. simpl fold_left. unfold Alt.dispatch.
    destruct (alt_frame_pair_first s1 pre dest dest' cb 0 dt1 T Q)
      as (pre' & Q' & S' & R & _).
    fold s0 in R.
    assert (H' : Qle_bool 1.5 (0 + dt1) = false) by (apply Qle_bool_false; exact H).
    destruct (R H') as (R1 & R2 & R3 & R4 & R5 & R6).
    split; [exists pre'; split; [exact Q'|]; split; [exact S'|exact R1]|].
    rewrite R6, R4, R5. repeat split; assumption.
  - change (dt1 :: l ++ [dt]) with ((dt1 :: l) ++ [dt]) in *.
    apply nonneg_snoc in N. destruct N as [N Hdt].
    rewrite total_snoc in *.
    assert (Lt : total (dt1 :: l) < 1.5) by lra.
    specialize (IH N Lt). cbv zeta in IH. fold s0 in IH.
    destruct IH as ((pre1 & Q1 & S1 & T1) & I2 & I3 & _).
    unfold s'. rewrite map_app. simpl map.
    change (EvFrame dt1 :: map EvFrame l) with (map EvFrame (dt1 :: l)).
    rewrite alt_run_snoc. unfold Alt.dispatch.
    set (s2 := Alt.run (map EvFrame (dt1 :: l)) s1) in *.
    destruct (alt_frame_pair_over s2 pre1 _ _ _ _ _ _ dt T1 Q1 S1)
      as (pre2 & Q2 & S2 & R & _).
    apply Qle_bool_false in H. destruct (R H) as (R1 & R2 & R3 & R4 & R5 & R6).
    split; [exists pre2; split; [exact Q2|]; split; [exact S2|exact R1]|].
    rewrite R6, R4, R5. repeat split; congruence.
Qed.



(** ** Variant 1 never animates the controls' target *)





(** ** A display refresh, the flags and the transitions in flight *)

Lemma alt_frame_callback : forall dt s,
  (transitions s = [] ->
     flags (Alt.frame dt s) = flags s /\ transitions (Alt.frame dt s) = []) /\
  (forall tw, transitions s = [tw] ->
     (flags (Alt.frame dt s) = flags s /\
      exists tw', transitions (Alt.frame dt s) = [tw'] /\
                  tw_onComplete tw' = tw_onComplete tw) \/
     (transitions (Alt.frame dt s) = [] /\
      flags (Alt.frame dt s) = alt_complete_flags (tw_onComplete tw) (flags s))).
Proof.
  intros dt s. unfold Alt.frame.
  set (s0 := set_clock (clock s + dt * 1000) s).
  change (transitions s) with (transitions s0).
  change (flags s) with (flags s0).
  destruct (alt_animate_keeps (gsap_tick Alt.openOverlay dt s0)) as [A1 A2].
  unfold transitions at 2 4 5. rewrite A1, A2.
  fold (transitions (gsap_tick Alt.openOverlay dt s0)).
  exact (gsap_tick_callback Alt.openOverlay alt_complete_flags
           alt_fire_complete_flags alt_complete_none dt s0).
Qed.

Lemma main_frame_callback : forall dt s,
  (transitions s = [] ->
     flags (MainJs.frame dt s) = flags s /\ transitions (MainJs.frame dt s) = []) /\
  (forall tw, transitions s = [tw] ->
     (flags (MainJs.frame dt s) = flags s /\
      exists tw', transitions (MainJs.frame dt s) = [tw'] /\
                  tw_onComplete tw' = tw_onComplete tw) \/
     (transitions (MainJs.frame dt s) = [] /\
      flags (MainJs.frame dt s) = main_complete_flags (tw_onComplete tw) (flags s))).
Proof.
  intros dt s. unfold MainJs.frame.
  set (s0 := set_clock (clock s + dt * 1000) s).
  change (transitions s) with (transitions s0).
  change (flags s) with (flags s0).
  destruct (main_animate_env_fields (gsap_tick MainJs.openOverlay dt s0))
    as (_ & _ & A3 & A4 & A5 & _).
  unfold transitions at 2 4 5. unfold flags at 1 3 5. rewrite A3, A4, A5.
  fold (transitions (gsap_tick MainJs.openOverlay dt s0)).
  fold (flags (gsap_tick MainJs.openOverlay dt s0)).
  exact (gsap_tick_callback MainJs.openOverlay main_complete_flags
           main_fire_complete_flags main_complete_none dt s0).
Qed.
(** * The claims *)

Lemma main_run_reachable : forall es s,
  MainJs.reachable s -> MainJs.reachable (MainJs.run es s).
Proof.
  induction es as [|e es IH]; intros s R; simpl; [exact R|].
  apply IH. constructor. exact R.
Qed.

Lemma alt_run_reachable : forall es s,
  Alt.reachable s -> Alt.reachable (Alt.run es s).
Proof.
  induction es as [|e es IH]; intros s R; simpl; [exact R|].
  apply IH. constructor. exact R.
Qed.

Lemma transitions_nil_quiet : forall s,
  transitions s = [] -> Forall (fun tw => is_transition tw = false) (tweens s).
Proof.
  intro s. unfold transitions. induction (tweens s) as [|tw r IH]; intro H.
  - constructor.
  - simpl in H. destruct (is_transition tw) eqn:E; [discriminate H|].
    constructor; auto.
Qed.

Lemma view_state_at_rest : forall s,
  (transitions s = [] -> overlay_hidden (dom s) = false -> view_state s = FOCUSED) /\
  (transitions s = [] -> overlay_hidden (dom s) = true -> view_state s = ORBITING).
Proof.
  intro s. unfold view_state, in_flight, overlay_visible.
  split; intros T O; rewrite T, O; reflexivity.
Qed.

Lemma tweens_nil_transitions : forall s, tweens s = [] -> transitions s = [].
Proof. intros s T. unfold transitions. rewrite T. reflexivity. Qed.

(** ** Repeated focus requests *)

(** In variant 2 a pick is dropped while the controls are disabled, so a
    second request changes nothing. *)
Lemma alt_pick_dropped : forall hit s,
  enabled (controls s) = false -> Alt.onPointerDown hit s = s.
Proof. intros hit s E. unfold Alt.onPointerDown. rewrite E. reflexivity. Qed.

Lemma alt_second_pick_dropped : forall h1 h2 s,
  Alt.onPointerDown h1 s <> s ->
  Alt.onPointerDown h2 (Alt.onPointerDown h1 s) = Alt.onPointerDown h1 s.
Proof.
  intros h1 h2 s H. apply alt_pick_dropped.
  unfold Alt.onPointerDown in *.
  destruct (negb (enabled (controls s))); [congruence|].
  destruct (nearest_hit s h1); [|congruence].
  destruct (Alt.is_interactive (monitorMesh s) o); [|congruence].
  reflexivity.
Qed.

(** Variant 1: with the monitor resolved, [focusOnMonitor] adds a
    transition to those in flight, whatever the view state. *)
Lemma main_focus_always_starts : forall s,
  monitorMesh s <> None ->
  transitions (MainJs.focusOnMonitor s) =
    transitions s ++ [main_focus_made Created 0].
Proof.
  intros s M. unfold MainJs.focusOnMonitor.
  destruct (monitorMesh s); [|congruence].
  unfold transitions, gsap_to. simpl. rewrite filter_app. reflexivity.
Qed.

Lemma main_pick_always_starts : forall s hit o,
  nearest_hit s hit = Some o ->
  MainJs.is_interactive (monitorMesh s) o = true ->
  transitions (MainJs.onPointerDown hit s) =
    transitions s ++ [main_focus_made Created 0].
Proof.
  intros s hit o H I. unfold MainJs.onPointerDown. rewrite H, I.
  apply main_focus_always_starts.
  destruct (monitorMesh s); [discriminate|discriminate I].
Qed.

(** C1, evaluated on [src/main.js] where it fails.  With the monitor
    resolved every call of [focusOnMonitor] adds a transition, in any view
    state.  With the model loaded and the view orbiting, one pick of the
    screen starts one transition; a second pick in immediate succession
    starts a second one beside it, and when both have run out
    [openOverlay] has run twice ([iframe.focus()] was called twice).  A
    pick after the first fly-in has ended starts a transition again.  On
    the same input variant 2 starts one transition and opens the overlay
    once. *)
Theorem main_double_focus_runs_twice :
  (forall s, monitorMesh s <> None ->
     List.length (transitions (MainJs.focusOnMonitor s))
       = S (List.length (transitions s))) /\
  view_state main_ready = ORBITING /\
  List.length (transitions (MainJs.run [pick_screen] main_ready)) = 1%nat /\
  view_state (MainJs.run [pick_screen] main_ready) = TRANSITIONING /\
  List.length (transitions (MainJs.run [pick_screen; pick_screen] main_ready)) = 2%nat /\
  iframe_focus (dom (MainJs.run [pick_screen; pick_screen; EvFrame 0.6; EvFrame 0.6]
                                main_ready)) = 2%nat /\
  view_state main_focused = FOCUSED /\
  List.length (transitions (MainJs.run [pick_screen] main_focused)) = 1%nat /\
  List.length (transitions (Alt.run [pick_screen; pick_screen] alt_ready)) = 1%nat /\
  iframe_focus (dom (Alt.run [pick_screen; pick_screen; EvFrame 0.8; EvFrame 0.8]
                             alt_ready)) = 1%nat.
Proof.
  split.
  - intros s M. rewrite (main_focus_always_starts s M), length_app. simpl. lia.
  - vm_compute. repeat split.
Qed.

(** ** The pick handler *)

Lemma main_pick_miss : forall s, MainJs.onPointerDown None s = s.
Proof. reflexivity. Qed.

Lemma main_pick_plain_object : forall s hit o,
  nearest_hit s hit = Some o -> MainJs.is_interactive (monitorMesh s) o = false ->
  MainJs.onPointerDown hit s = s.
Proof. intros s hit o H I. unfold MainJs.onPointerDown. rewrite H, I. reflexivity. Qed.

(** X8.  Variant 2: a pick that changes anything was made while orbiting and
    met an interactive object. *)
Lemma alt_pick_guarded : forall s hit,
  Alt.reachable s ->
  Alt.onPointerDown hit s <> s ->
  view_state s = ORBITING /\
  exists o, nearest_hit s hit = Some o /\ Alt.is_interactive (monitorMesh s) o = true.
Proof.
  intros s hit R H.
  destruct (alt_flags_follow_view_state s R) as [[E _] _].
  unfold Alt.onPointerDown in H.
  destruct (enabled (controls s)); simpl in H; [|congruence].
  split; [auto|].
  destruct (nearest_hit s hit) as [o|]; [|congruence].
  exists o. split; [reflexivity|].
  destruct (Alt.is_interactive (monitorMesh s) o); congruence.
Qed.

(** C2, evaluated on [src/main.js] where it fails.  A pick whose nearest
    hit is interactive starts a transition in any view state.  A tenth of
    a second into the fly-in the view is TRANSITIONING and the controls
    are disabled, yet a pick of the screen starts a second transition;
    with the view FOCUSED a pick of the screen starts a transition as
    well.  In both situations variant 2 leaves the state as it is. *)
Theorem main_pick_ignores_view_state :
  (forall s hit o,
     nearest_hit s hit = Some o ->
     MainJs.is_interactive (monitorMesh s) o = true ->
     List.length (transitions (MainJs.onPointerDown hit s))
       = S (List.length (transitions s))) /\
  view_state main_flying = TRANSITIONING /\
  enabled (controls main_flying) = false /\
  List.length (transitions main_flying) = 1%nat /\
  List.length (transitions (MainJs.onPointerDown (Some 3%nat) main_flying)) = 2%nat /\
  view_state main_focused = FOCUSED /\
  enabled (controls main_focused) = false /\
  view_state (MainJs.onPointerDown (Some 3%nat) main_focused) = TRANSITIONING /\
  Alt.onPointerDown (Some 3%nat) (Alt.run [pick_screen; EvFrame 0.1] alt_ready)
    = Alt.run [pick_screen; EvFrame 0.1] alt_ready /\
  Alt.onPointerDown (Some 3%nat) alt_focused = alt_focused.
Proof.
  split.
  - intros s hit o H I.
    rewrite (main_pick_always_starts s hit o H I), length_app. simpl. lia.
  - vm_compute. repeat split.
Qed.

(** ** Flags and view state *)

(** C3, evaluated on [src/main.js] where it fails.  Two reachable states:
    after a second pick half-way through the fly-in, the overlay shows
    while a transition is still in flight; after closing the overlay at
    that moment, the overlay shows with the orbit controls enabled.
    (Variant 2 keeps both equivalences: [alt_flags_follow_view_state].) *)
Theorem main_flags_leave_view_state :
  MainJs.reachable main_overlapped /\
  view_state main_overlapped = TRANSITIONING /\
  overlay_visible main_overlapped = true /\
  MainJs.reachable main_crossed /\
  view_state main_crossed = FOCUSED /\
  overlay_visible main_crossed = true /\
  enabled (controls main_crossed) = true.
Proof.
  assert (R : MainJs.reachable main_ready).
  { apply main_run_reachable. constructor. }
  split; [apply main_run_reachable; exact R|].
  split; [vm_compute; reflexivity|].
  split; [vm_compute; reflexivity|].
  split; [apply main_run_reachable, main_run_reachable; exact R|].
  vm_compute. repeat split.
Qed.

(** ** Where a transition ends *)

Lemma alt_moveToMonitor_tweens : forall s,
  tweens (Alt.moveToMonitor s) =
  tweens s ++ [alt_position_made Alt.SIT_POS Created 0;
               alt_target_made Alt.SIT_TARGET OpenOverlay Created 0].
Proof.
  intro s. unfold Alt.moveToMonitor, gsap_to. qsimpl.
  rewrite <- app_assoc. reflexivity.
Qed.

Lemma alt_returnToOffice_tweens : forall s,
  tweens (Alt.returnToOffice s) =
  tweens s ++ [alt_position_made Alt.WIDE_SHOT_POS Created 0;
               alt_target_made Alt.WIDE_SHOT_TARGET EnableControls Created 0].
Proof.
  intro s. unfold Alt.returnToOffice, gsap_to. qsimpl.
  rewrite <- app_assoc. reflexivity.
Qed.




Lemma nonneg_sample : nonneg [0.6; 0.6] /\ nonneg [0.8] /\ nonneg [0.8; 0.8].
Proof. repeat split; repeat constructor; discriminate. Qed.


(** Variant 2, the screen picked right after the model has loaded: at the
    refresh that ends the fly-in the camera is at the SIT position, and
    the intro animation, with 0.4 s still to run, goes on writing
    [camera.position.y]. *)
Remark alt_intro_outlasts_fly_in :
  v3_eqb (position (camera (Alt.run [EvLoadOk office_asset; pick_screen;
                                     EvFrame 0.8; EvFrame 0.8] Alt.init)))
         Alt.SIT_POS = true /\
  v3_eqb (position (camera (Alt.run [EvLoadOk office_asset; pick_screen;
                                     EvFrame 0.8; EvFrame 0.8; EvFrame 0.5] Alt.init)))
         (mkV3 (-3.4) 19.59 3.27) = true.
Proof. vm_compute. split; reflexivity. Qed.

(** ** The tracks of the fly-in *)

(** C5 as stated fails on [src/main.js]: a tenth of a second into the
    fly-in the camera already looks at the final SIT target, not at a
    point between the old look target and the new one; the only tween
    animates [camera.position], and [controls.target] keeps its value. *)
Lemma look_target_snaps_in_main :
  view_state main_flying = TRANSITIONING /\
  look (camera main_ready) = MainJs.WIDE_SHOT_TARGET /\
  look (camera main_flying) = MainJs.SIT_TARGET /\
  map tw_target (tweens main_flying) = [CameraPosition] /\
  v3_eqb (look (camera main_flying))
         (lerp3 (look (camera main_ready)) MainJs.SIT_TARGET
                (ease_at Power3InOut (0.1 / 1.2))) = false /\
  v3_eqb (target (controls main_flying)) MainJs.WIDE_SHOT_TARGET = true.
Proof. vm_compute. repeat split. Qed.

(** C5, amended.  While the fly-in is in flight, after at least one
    refresh and [t] seconds in all.  Variant 2 has the camera position and
    the controls' target each at the eased (power2.inOut, 1.5 s)
    interpolation towards SIT_POS, respectively SIT_TARGET, and the camera
    looks at that interpolated target.  The two tracks start from the
    values the engine reads at the first refresh, when the tweens already
    running (the intro animation) have written: with no other tween
    running these are the values at the pick.  Variant 1 has the camera
    position at the eased (power3.inOut, 1.2 s) interpolation towards
    SIT_POS, looks at the fixed SIT_TARGET from the first step on, and
    leaves the controls' target alone.  Each curve starts at 0 and ends
    at 1. *)
Theorem fly_in_tracks :
  (forall s dts,
     tweens s = [] -> nonneg dts -> dts <> [] -> total dts < 1.5 ->
     position (camera (Alt.run (map EvFrame dts) (Alt.moveToMonitor s))) =
       lerp3 (position (camera s)) Alt.SIT_POS
             (ease_at Power2InOut (total dts / 1.5)) /\
     target (controls (Alt.run (map EvFrame dts) (Alt.moveToMonitor s))) =
       lerp3 (target (controls s)) Alt.SIT_TARGET
             (ease_at Power2InOut (total dts / 1.5)) /\
     look (camera (Alt.run (map EvFrame dts) (Alt.moveToMonitor s))) =
       target (controls (Alt.run (map EvFrame dts) (Alt.moveToMonitor s)))) /\
  (forall s dt1 rest,
     transitions s = [] -> nonneg (dt1 :: rest) -> total (dt1 :: rest) < 1.5 ->
     let first := fst (render_each (render_tween Alt.openOverlay dt1) (tweens s)
                         (set_clock (clock s + dt1 * 1000) (Alt.moveToMonitor s))) in
     position (camera (Alt.run (map EvFrame (dt1 :: rest)) (Alt.moveToMonitor s))) =
       lerp3 (position (camera first)) Alt.SIT_POS
             (ease_at Power2InOut (total (dt1 :: rest) / 1.5)) /\
     target (controls (Alt.run (map EvFrame (dt1 :: rest)) (Alt.moveToMonitor s))) =
       lerp3 (target (controls first)) Alt.SIT_TARGET
             (ease_at Power2InOut (total (dt1 :: rest) / 1.5)) /\
     look (camera (Alt.run (map EvFrame (dt1 :: rest)) (Alt.moveToMonitor s))) =
       target (controls (Alt.run (map EvFrame (dt1 :: rest)) (Alt.moveToMonitor s)))) /\
  (forall s dts,
     tweens s = [] -> monitorMesh s <> None -> nonneg dts -> dts <> [] ->
     total dts < 1.2 ->
     position (camera (MainJs.run (map EvFrame dts) (MainJs.focusOnMonitor s))) =
       lerp3 (position (camera s)) MainJs.SIT_POS
             (ease_at Power3InOut (total dts / 1.2)) /\
     look (camera (MainJs.run (map EvFrame dts) (MainJs.focusOnMonitor s))) =
       MainJs.SIT_TARGET /\
     target (controls (MainJs.run (map EvFrame dts) (MainJs.focusOnMonitor s))) =
       target (controls s)) /\
  (forall e, ease_at e 0 == 0 /\ ease_at e 1 == 1).
Proof.
  split; [|split; [|split]].
  - intros s dts T N NE H.
    destruct (alt_pair_run (Alt.moveToMonitor s) Alt.SIT_POS Alt.SIT_TARGET
                OpenOverlay dts) as [A _].
    { rewrite alt_moveToMonitor_tweens, T. reflexivity. }
    { exact N. }
    destruct (A H) as (_ & _ & _ & P). destruct (P NE) as (P1 & P2 & P3).
    split; [exact P1|]. split; [exact P2|exact P3].
  - intros s dt1 rest T N H first.
    destruct (alt_pair_run_over (Alt.moveToMonitor s) (tweens s) Alt.SIT_POS
                Alt.SIT_TARGET OpenOverlay dt1 rest (alt_moveToMonitor_tweens s)
                (transitions_nil_quiet s T) N H) as (_ & _ & _ & P1 & P2 & P3).
    split; [exact P1|]. split; [exact P2|exact P3].
  - intros s dts T M N NE H.
    destruct (main_focus_run s dts T M N) as [A _].
    destruct (A H) as (_ & _ & _ & A4 & P). destruct (P NE) as [P1 P2]. auto.
  - intros []; split; reflexivity.
Qed.

Lemma fly_in_tracks_witness :
  position (camera (Alt.run (map EvFrame [0.8]) (Alt.moveToMonitor alt_ready))) =
    lerp3 (position (camera alt_ready)) Alt.SIT_POS
          (ease_at Power2InOut (total [0.8] / 1.5)) /\
  target (controls (Alt.run (map EvFrame [0.8]) (Alt.moveToMonitor alt_ready))) =
    lerp3 (target (controls alt_ready)) Alt.SIT_TARGET
          (ease_at Power2InOut (total [0.8] / 1.5)) /\
  look (camera (Alt.run (map EvFrame [0.8]) (Alt.moveToMonitor alt_ready))) =
    target (controls (Alt.run (map EvFrame [0.8]) (Alt.moveToMonitor alt_ready))).
Proof.
  apply (proj1 fly_in_tracks alt_ready [0.8]).
  - reflexivity.
  - apply nonneg_sample.
  - discriminate.
  - reflexivity.
Defined.

(** ** Classifying the nearest hit *)

(** C6 as stated fails on both variants.  In [src/main.js], with the
    screen plane resolved, a different object named Monitor_Stand is
    interactive through the name test, and with nothing resolved an object
    named monitor_screen is not interactive: the name test is applied
    exactly when the reference was resolved.  In variant 2, with the
    monitor screen resolved, the desk top is interactive, by a
    case-sensitive test for Desk that the stated policy does not contain,
    and an object named monitor_screen is not. *)
Lemma classification_is_not_a_fallback_chain :
  MainJs.is_interactive (Some (mkObj 12 12 "Screen_Plane_clickable" true))
                        (mkObj 20 20 "Monitor_Stand" true) = true /\
  Spec.classify (Some (mkObj 12 12 "Screen_Plane_clickable" true))
                (mkObj 20 20 "Monitor_Stand" true) = false /\
  MainJs.is_interactive None (mkObj 21 21 "monitor_screen" true) = false /\
  Spec.classify None (mkObj 21 21 "monitor_screen" true) = true /\
  Alt.is_interactive (Some (mkObj 13 13 "Monitor_Screen" true))
                     (mkObj 11 11 "Desk_Top" true) = true /\
  Spec.classify (Some (mkObj 13 13 "Monitor_Screen" true))
                (mkObj 11 11 "Desk_Top" true) = false /\
  Alt.is_interactive None (mkObj 21 21 "monitor_screen" true) = false /\
  Alt.is_interactive None (mkObj 11 11 "Desk_Top" true) = true /\
  Spec.name_policy (mkObj 11 11 "Desk_Top" true) = false.
Proof. vm_compute. repeat split. Qed.

(** C6, amended.  An object identical to the resolved reference is
    interactive in both variants, whatever its name.  [src/main.js]: with
    no reference resolved nothing is interactive; with one resolved an
    object is interactive exactly when it is that object, has its uuid,
    or has a name containing monitor or screen in any letter case.
    Variant 2: an object is interactive exactly when it is the resolved
    reference or its name contains Desk or Screen, case-sensitively,
    whether or not a reference was resolved. *)
Theorem hit_classification :
  (forall m picked, same_object picked m = true ->
     MainJs.is_interactive (Some m) picked = true /\
     Alt.is_interactive (Some m) picked = true) /\
  (forall picked, MainJs.is_interactive None picked = false) /\
  (forall m picked,
     MainJs.is_interactive (Some m) picked = true <->
     same_object picked m = true \/ uuid picked = uuid m \/
     includes (toLowerCase (name picked)) "monitor" = true \/
     includes (toLowerCase (name picked)) "screen" = true) /\
  (forall m picked,
     Alt.is_interactive m picked = true <->
     (exists mm, m = Some mm /\ same_object picked mm = true) \/
     includes (name picked) "Desk" = true \/
     includes (name picked) "Screen" = true).
Proof.
  split; [|split; [|split]].
  - intros m picked H. unfold MainJs.is_interactive, Alt.is_interactive.
    rewrite H. split; reflexivity.
  - reflexivity.
  - intros m picked. unfold MainJs.is_interactive.
    rewrite !orb_true_iff, Nat.eqb_eq. tauto.
  - intros m picked. unfold Alt.is_interactive.
    rewrite !orb_true_iff. split.
    + intros [[H|H]|H]; auto.
      destruct m as [mm|]; [|discriminate H]. left. exists mm. auto.
    + intros [[mm [E H]]|[H|H]]; auto. subst m. auto.
Qed.

Lemma hit_classification_witness :
  MainJs.is_interactive (Some (mkObj 12 12 "Screen_Plane_clickable" true))
                        (mkObj 12 12 "Screen_Plane_clickable" true) = true /\
  Alt.is_interactive (Some (mkObj 12 12 "Screen_Plane_clickable" true))
                     (mkObj 12 12 "Screen_Plane_clickable" true) = true.
Proof.
  apply (proj1 hit_classification
           (mkObj 12 12 "Screen_Plane_clickable" true)
           (mkObj 12 12 "Screen_Plane_clickable" true)).
  reflexivity.
Defined.

(** ** The idle orbit *)

Lemma main_frames_idle_orbit : forall dts,
  let s := MainJs.run (map EvFrame dts) MainJs.init in
  tweens s = [] /\ enabled (controls s) = true /\
  position (camera s) = MainJs.WIDE_SHOT_POS /\
  look (camera s) = MainJs.WIDE_SHOT_TARGET /\
  target (controls s) = MainJs.WIDE_SHOT_TARGET /\
  overlay_hidden (dom s) = true.
Proof.
  induction dts as [|dt l IH] using rev_ind.
  - vm_compute. repeat split.
  - cbv zeta in *. rewrite map_app. simpl map. rewrite main_run_snoc.
    unfold MainJs.dispatch.
    destruct IH as (I1 & I2 & I3 & I4 & I5 & I6).
    destruct (main_frame_orbit _ dt I1 I2) as (F1 & F2 & F3 & F4 & F5).
    rewrite F1, F2, F3, F4, F5. repeat split; assumption.
Qed.

Lemma main_idle_never_advances : forall s, MainJs.reachable s -> idleTime s = 0.
Proof.
  induction 1 as [|s e R IH]; [reflexivity|].
  destruct e as [hit|p t| |key|dt|asset| ]; unfold MainJs.dispatch.
  - assert (E : forall s0, idleTime s0 = 0 -> idleTime (MainJs.onPointerDown hit s0) = 0).
    { intros s0 H. unfold MainJs.onPointerDown.
      destruct (nearest_hit s0 hit) as [o|]; [|exact H].
      destruct (MainJs.is_interactive (monitorMesh s0) o); [|exact H].
      unfold MainJs.focusOnMonitor. destruct (monitorMesh s0); exact H. }
    destruct (enabled (controls s)); apply E; [reflexivity|exact IH].
  - destruct (enabled (controls s)); [reflexivity|exact IH].
  - destruct (overlay_hidden (dom s)); exact IH.
  - unfold MainJs.onKeyDown.
    destruct (String.eqb key "Escape" && negb (overlay_hidden (dom s)))%bool; exact IH.
  - unfold MainJs.frame.
    destruct (main_animate_env_fields
                (gsap_tick MainJs.openOverlay dt (set_clock (clock s + dt * 1000) s)))
      as (_ & _ & _ & _ & _ & _ & A & _).
    rewrite A.
    destruct (gsap_tick_env MainJs.openOverlay main_openOverlay_env dt
                (set_clock (clock s + dt * 1000) s)) as (_ & _ & _ & G & _).
    rewrite G. exact IH.
  - destruct (load_pending s); [|exact IH].
    unfold MainJs.onLoad. simpl.
    destruct (getObjectByName asset "Screen_Plane_clickable"); simpl; exact IH.
  - destruct (load_pending s); exact IH.
Qed.

(** What [updateControlsIdle] does when it is called: nothing while the
    controls are disabled; otherwise it adds [dt] to the idle time and,
    once that exceeds 1.5 s, puts the camera on the circle of radius 6
    at the angle the wall clock gives, looking at (0, 1, 0). *)
Lemma updateControlsIdle_called : forall Math_sin Math_cos dt s,
  (enabled (controls s) = false ->
     MainJs.updateControlsIdle Math_sin Math_cos dt s = s) /\
  (enabled (controls s) = true -> idleTime s + dt <= 1.5 ->
     camera (MainJs.updateControlsIdle Math_sin Math_cos dt s) = camera s /\
     idleTime (MainJs.updateControlsIdle Math_sin Math_cos dt s) = idleTime s + dt) /\
  (enabled (controls s) = true -> 1.5 < idleTime s + dt ->
     position (camera (MainJs.updateControlsIdle Math_sin Math_cos dt s)) =
       mkV3 (Math_sin (clock s * 0.00008) * 6) (vy (position (camera s)))
            (Math_cos (clock s * 0.00008) * 6) /\
     look (camera (MainJs.updateControlsIdle Math_sin Math_cos dt s)) = mkV3 0 1 0 /\
     idleTime (MainJs.updateControlsIdle Math_sin Math_cos dt s) = idleTime s + dt).
Proof.
  intros Math_sin Math_cos dt s. unfold MainJs.updateControlsIdle.
  split; [|split].
  - intro E. rewrite E. reflexivity.
  - intros E H. rewrite E. simpl negb. cbv iota.
    apply Qle_bool_iff in H.
    change (idleTime (set_idleTime (idleTime s + dt) s)) with (idleTime s + dt).
    rewrite H. split; reflexivity.
  - intros E H. rewrite E. simpl negb. cbv iota.
    apply Qle_bool_false in H.
    change (idleTime (set_idleTime (idleTime s + dt) s)) with (idleTime s + dt).
    rewrite H. repeat split.
Qed.

(** C7, evaluated on [src/main.js] where it fails: [animate] computes
    [dt] and never calls [updateControlsIdle].  In every reachable state
    the idle time is 0; over any run of display refreshes with no input
    the camera stays at the wide position looking at the wide target, for
    instance over three refreshes one second apart.  Had the function been
    invoked with three idle seconds it would have put the camera on the
    circle of radius 6 looking at (0, 1, 0). *)
Theorem idle_orbit_is_never_invoked :
  (forall s, MainJs.reachable s -> idleTime s = 0) /\
  (forall dts,
     position (camera (MainJs.run (map EvFrame dts) MainJs.init)) = MainJs.WIDE_SHOT_POS /\
     look (camera (MainJs.run (map EvFrame dts) MainJs.init)) = MainJs.WIDE_SHOT_TARGET) /\
  position (camera (MainJs.run [EvFrame 1; EvFrame 1; EvFrame 1] MainJs.init))
    = MainJs.WIDE_SHOT_POS /\
  (forall Math_sin Math_cos,
     position (camera (MainJs.updateControlsIdle Math_sin Math_cos 3 MainJs.init)) =
       mkV3 (Math_sin (0 * 0.00008) * 6) 23 (Math_cos (0 * 0.00008) * 6) /\
     look (camera (MainJs.updateControlsIdle Math_sin Math_cos 3 MainJs.init)) =
       mkV3 0 1 0).
Proof.
  split; [exact main_idle_never_advances|].
  split; [intro dts; destruct (main_frames_idle_orbit dts) as (_ & _ & P & L & _); auto|].
  split; [reflexivity|].
  intros Math_sin Math_cos. split; reflexivity.
Qed.

(** ** The escape key *)

(** C8 as stated fails on variant 2, which registers no key listener:
    with the view FOCUSED an Escape key leaves the state as it is, overlay
    shown, while the close button hides the overlay. *)
Lemma escape_ignored_in_alt :
  view_state alt_focused = FOCUSED /\
  Alt.dispatch (EvKeyDown "Escape") alt_focused = alt_focused /\
  overlay_visible (Alt.dispatch (EvKeyDown "Escape") alt_focused) = true /\
  overlay_visible (Alt.dispatch EvCloseClick alt_focused) = false /\
  view_state (Alt.dispatch EvCloseClick alt_focused) = TRANSITIONING.
Proof. vm_compute. repeat split. Qed.

(** C8, amended.  In [src/main.js] an Escape key received while the view
    is FOCUSED does exactly what a click on the close button does: the
    overlay is hidden and the one transition then in flight is the tween
    of the camera position to WIDE_SHOT_POS (1 s, power3.inOut) that
    looks at WIDE_SHOT_TARGET on every step and enables the controls on
    completion; the controls are not enabled before.  The tween has just
    been created; with nothing else in flight, at the next refresh it has
    taken the camera position at the key press for its start.  Variant 2
    handles no key at all. *)
Theorem escape_is_close :
  (forall s,
     view_state s = FOCUSED ->
     MainJs.dispatch (EvKeyDown "Escape") s = MainJs.dispatch EvCloseClick s /\
     MainJs.dispatch (EvKeyDown "Escape") s = MainJs.closeBtn_click s /\
     overlay_visible (MainJs.dispatch (EvKeyDown "Escape") s) = false /\
     transitions (MainJs.dispatch (EvKeyDown "Escape") s) =
       [main_return_made Created 0] /\
     enabled (controls (MainJs.dispatch (EvKeyDown "Escape") s)) = enabled (controls s)) /\
  (forall s dt,
     view_state s = FOCUSED -> tweens s = [] -> dt < 1.0 ->
     tweens (MainJs.dispatch (EvFrame dt) (MainJs.dispatch (EvKeyDown "Escape") s)) =
       [main_return_tween (position (camera s)) (0 + dt)]) /\
  (forall key s, Alt.dispatch (EvKeyDown key) s = s).
Proof.
  assert (K : forall s, view_state s = FOCUSED ->
            overlay_hidden (dom s) = false /\ filter is_transition (tweens s) = []).
  { intros s F. unfold view_state in F.
    destruct (in_flight s) eqn:IF; [discriminate|].
    destruct (overlay_visible s) eqn:V; [|discriminate].
    unfold overlay_visible in V. apply negb_true_iff in V.
    split; [exact V|].
    unfold in_flight, transitions in IF.
    destruct (filter is_transition (tweens s)); [reflexivity|discriminate]. }
  split; [|split; [|reflexivity]].
  - intros s F. destruct (K s F) as [V IF].
    unfold MainJs.dispatch, MainJs.onKeyDown. rewrite V. simpl.
    repeat split.
    unfold transitions, MainJs.closeBtn_click, gsap_to. simpl.
    rewrite filter_app, IF. reflexivity.
  - intros s dt F T H. destruct (K s F) as [V _].
    unfold MainJs.dispatch, MainJs.onKeyDown. rewrite V. simpl andb. cbv iota.
    unfold MainJs.frame.
    destruct (main_animate_env_fields
                (gsap_tick MainJs.openOverlay dt
                   (set_clock (clock (MainJs.closeBtn_click s) + dt * 1000)
                      (MainJs.closeBtn_click s)))) as (_ & _ & _ & A & _).
    rewrite A. unfold gsap_tick, MainJs.closeBtn_click, gsap_to. qsimpl. rewrite T.
    unfold app, render_each.
    rewrite render_tween_created by reflexivity.
    erewrite render_lazy_running; [reflexivity|reflexivity|].
    apply Qle_bool_false. simpl. lra.
Qed.

Lemma escape_is_close_witness :
  MainJs.dispatch (EvKeyDown "Escape") main_focused
    = MainJs.dispatch EvCloseClick main_focused /\
  MainJs.dispatch (EvKeyDown "Escape") main_focused = MainJs.closeBtn_click main_focused /\
  overlay_visible (MainJs.dispatch (EvKeyDown "Escape") main_focused) = false /\
  transitions (MainJs.dispatch (EvKeyDown "Escape") main_focused) =
    [main_return_made Created 0] /\
  enabled (controls (MainJs.dispatch (EvKeyDown "Escape") main_focused))
    = enabled (controls main_focused).
Proof. apply (proj1 escape_is_close main_focused). reflexivity. Defined.

(** ** A failed load *)

Lemma main_dispatch_frames : forall e s,
  frames (MainJs.dispatch e s) = (frames s + refreshes [e])%nat.
Proof.
  intros e s. destruct e as [hit|p t| |key|dt|asset| ]; unfold MainJs.dispatch, refreshes;
    simpl List.length; rewrite ?Nat.add_0_r.
  - assert (E : forall s0, frames (MainJs.onPointerDown hit s0) = frames s0).
    { intro s0. unfold MainJs.onPointerDown.
      destruct (nearest_hit s0 hit) as [o|]; [|reflexivity].
      destruct (MainJs.is_interactive (monitorMesh s0) o); [|reflexivity].
      unfold MainJs.focusOnMonitor. destruct (monitorMesh s0); reflexivity. }
    rewrite E. destruct (enabled (controls s)); reflexivity.
  - destruct (enabled (controls s)); reflexivity.
  - destruct (overlay_hidden (dom s)); reflexivity.
  - unfold MainJs.onKeyDown.
    destruct (String.eqb key "Escape" && negb (overlay_hidden (dom s)))%bool; reflexivity.
  - unfold MainJs.frame.
    destruct (gsap_tick_env MainJs.openOverlay main_openOverlay_env dt
                (set_clock (clock s + dt * 1000) s)) as (_ & _ & _ & _ & _ & _ & G).
    unfold MainJs.animate.
    destruct (enabled _); simpl; rewrite G; simpl; lia.
  - destruct (load_pending s); [|reflexivity].
    unfold MainJs.onLoad. simpl.
    destruct (getObjectByName asset "Screen_Plane_clickable"); simpl; reflexivity.
  - destruct (load_pending s); reflexivity.
Qed.

Lemma alt_onLoad_frames : forall asset s, frames (Alt.onLoad asset s) = frames s.
Proof.
  intros asset s. unfold Alt.onLoad.
  assert (V : forall l s0,
            frames (fold_left (fun acc child => Alt.visit child acc) l s0) = frames s0).
  { induction l as [|c r IH]; intro s0; simpl; [reflexivity|].
    rewrite IH. unfold Alt.visit.
    destruct (isMesh c && includes (name c) "Monitor_Screen")%bool; reflexivity. }
  destruct (existsb (fun child => includes (name child) "Target_Desk") asset);
    simpl; apply V.
Qed.

Lemma alt_dispatch_frames : forall e s,
  frames (Alt.dispatch e s) = (frames s + refreshes [e])%nat.
Proof.
  intros e s. destruct e as [hit|p t| |key|dt|asset| ]; unfold Alt.dispatch, refreshes;
    simpl List.length; rewrite ?Nat.add_0_r.
  - unfold Alt.onPointerDown.
    destruct (negb (enabled (controls s))); [reflexivity|].
    destruct (nearest_hit s hit) as [o|]; [|reflexivity].
    destruct (Alt.is_interactive (monitorMesh s) o); reflexivity.
  - destruct (enabled (controls s)); reflexivity.
  - destruct (overlay_hidden (dom s)); reflexivity.
  - reflexivity.
  - unfold Alt.frame.
    destruct (gsap_tick_env Alt.openOverlay alt_openOverlay_env dt
                (set_clock (clock s + dt * 1000) s)) as (_ & _ & _ & _ & _ & _ & G).
    unfold Alt.animate. simpl. rewrite G. simpl. lia.
  - destruct (load_pending s); [|reflexivity]. rewrite alt_onLoad_frames. reflexivity.
  - destruct (load_pending s); reflexivity.
Qed.

Lemma refreshes_cons : forall e es, refreshes (e :: es) = (refreshes [e] + refreshes es)%nat.
Proof. intros e es. unfold refreshes. simpl. destruct e; reflexivity. Qed.

Lemma main_run_frames : forall es s,
  frames (MainJs.run es s) = (frames s + refreshes es)%nat.
Proof.
  induction es as [|e es IH]; intro s; simpl.
  - unfold refreshes; simpl; lia.
  - change (frames (MainJs.run es (MainJs.dispatch e s)) =
            (frames s + refreshes (e :: es))%nat).
    rewrite IH, main_dispatch_frames, (refreshes_cons e es). lia.
Qed.

Lemma alt_run_frames : forall es s,
  frames (Alt.run es s) = (frames s + refreshes es)%nat.
Proof.
  induction es as [|e es IH]; intro s; simpl.
  - unfold refreshes; simpl; lia.
  - change (frames (Alt.run es (Alt.dispatch e s)) =
            (frames s + refreshes (e :: es))%nat).
    rewrite IH, alt_dispatch_frames, (refreshes_cons e es). lia.
Qed.

(** Variant 2 with an empty scene: no event starts anything. *)
Lemma alt_empty_scene_stays : forall es s,
  scene s = [] -> load_pending s = false -> tweens s = [] ->
  overlay_hidden (dom s) = true ->
  scene (Alt.run es s) = [] /\ tweens (Alt.run es s) = [] /\
  overlay_hidden (dom (Alt.run es s)) = true /\
  monitorMesh (Alt.run es s) = monitorMesh s.
Proof.
  induction es as [|e es IH]; intros s S L T O; [simpl; auto|].
  change (Alt.run (e :: es) s) with (Alt.run es (Alt.dispatch e s)).
  assert (D : scene (Alt.dispatch e s) = [] /\ load_pending (Alt.dispatch e s) = false /\
              tweens (Alt.dispatch e s) = [] /\
              overlay_hidden (dom (Alt.dispatch e s)) = true /\
              monitorMesh (Alt.dispatch e s) = monitorMesh s).
  { destruct e as [hit|p t| |key|dt|asset| ]; unfold Alt.dispatch.
    - unfold Alt.onPointerDown, nearest_hit. rewrite S.
      destruct (negb (enabled (controls s))); [auto|].
      destruct hit as [[|i]|]; simpl; auto.
    - destruct (enabled (controls s)); simpl; auto.
    - rewrite O. auto.
    - auto.
    - unfold Alt.frame. rewrite gsap_tick_idle by exact T. simpl. auto.
    - rewrite L. auto.
    - rewrite L. auto. }
  destruct D as (D1 & D2 & D3 & D4 & D5).
  destruct (IH _ D1 D2 D3 D4) as (I1 & I2 & I3 & I4).
  rewrite I4, D5. auto.
Qed.

(** C9.  The loader's error callback logs to the console (a warning in
    [src/main.js], an error in variant 2) and leaves camera, controls,
    tweens and overlay as they are; [src/main.js] also builds its
    procedural desk, whose screen becomes the monitor reference.  After a
    failed load every display refresh, among whatever events, still draws
    a frame.  Variant 2 then has nothing to click: the view stays
    ORBITING, the reference stays unresolved and every pointer-down leaves
    the state unchanged.  [src/main.js] still flies to the constant SIT
    pose and opens the overlay when the procedural screen is picked, and
    variant 2's [moveToMonitor], were it called, still ends at its
    constant SIT pose. *)
Theorem load_failure_is_survived :
  (forall s, load_pending s = true ->
     console (dom (MainJs.dispatch EvLoadError s)) =
       console (dom s) ++
       [(LogWarn, "GLB load failed, building procedural desk instead. Error:"%string)] /\
     camera (MainJs.dispatch EvLoadError s) = camera s /\
     controls (MainJs.dispatch EvLoadError s) = controls s /\
     tweens (MainJs.dispatch EvLoadError s) = tweens s /\
     overlay_hidden (dom (MainJs.dispatch EvLoadError s)) = overlay_hidden (dom s) /\
     monitorMesh (MainJs.dispatch EvLoadError s) = Some MainJs.proceduralMonitor) /\
  (forall s, load_pending s = true ->
     console (dom (Alt.dispatch EvLoadError s)) =
       console (dom s) ++ [(LogError, "An error happened"%string)] /\
     camera (Alt.dispatch EvLoadError s) = camera s /\
     controls (Alt.dispatch EvLoadError s) = controls s /\
     tweens (Alt.dispatch EvLoadError s) = tweens s /\
     overlay_hidden (dom (Alt.dispatch EvLoadError s)) = overlay_hidden (dom s) /\
     monitorMesh (Alt.dispatch EvLoadError s) = monitorMesh s) /\
  (forall es,
     frames (MainJs.run es main_failed) = (frames main_failed + refreshes es)%nat /\
     frames (Alt.run es alt_failed) = (frames alt_failed + refreshes es)%nat) /\
  (forall es,
     view_state (Alt.run es alt_failed) = ORBITING /\
     monitorMesh (Alt.run es alt_failed) = None /\
     forall hit, Alt.dispatch (EvPointerDown hit) (Alt.run es alt_failed)
                 = Alt.run es alt_failed) /\
  (forall dts, nonneg dts -> 1.2 <= total dts ->
     position (camera (MainJs.run (EvPointerDown (Some 2%nat) :: map EvFrame dts)
                                  main_failed)) =v= MainJs.SIT_POS /\
     look (camera (MainJs.run (EvPointerDown (Some 2%nat) :: map EvFrame dts)
                              main_failed)) =v= MainJs.SIT_TARGET /\
     overlay_visible (MainJs.run (EvPointerDown (Some 2%nat) :: map EvFrame dts)
                                 main_failed) = true) /\
  (forall dts, nonneg dts -> 1.5 <= total dts ->
     position (camera (Alt.run (map EvFrame dts) (Alt.moveToMonitor alt_failed)))
       =v= Alt.SIT_POS /\
     look (camera (Alt.run (map EvFrame dts) (Alt.moveToMonitor alt_failed)))
       =v= Alt.SIT_TARGET).
Proof.
  split; [|split; [|split; [|split; [|split]]]].
  - intros s L. unfold MainJs.dispatch. rewrite L. repeat split.
  - intros s L. unfold Alt.dispatch. rewrite L. repeat split.
  - intro es. split; [apply main_run_frames|apply alt_run_frames].
  - intro es.
    destruct (alt_empty_scene_stays es alt_failed) as (S & T & O & M);
      try reflexivity.
    split; [apply view_state_at_rest; [apply tweens_nil_transitions|]; assumption|].
    split; [rewrite M; reflexivity|].
    intro hit. unfold Alt.dispatch, Alt.onPointerDown, nearest_hit. rewrite S.
    destruct (negb (enabled (controls (Alt.run es alt_failed)))); [reflexivity|].
    destruct hit as [[|i]|]; reflexivity.
  - intros dts N H.
    change (MainJs.run (EvPointerDown (Some 2%nat) :: map EvFrame dts) main_failed)
      with (MainJs.run (map EvFrame dts)
              (MainJs.dispatch (EvPointerDown (Some 2%nat)) main_failed)).
    replace (MainJs.dispatch (EvPointerDown (Some 2%nat)) main_failed)
      with (MainJs.focusOnMonitor main_failed) by reflexivity.
    destruct (main_focus_run main_failed dts) as [_ B];
      [reflexivity|discriminate|exact N|].
    destruct (B H) as (B1 & B2 & B3 & B4 & _).
    unfold overlay_visible. rewrite B2, B3, B4.
    split; [apply lerp3_end|]. split; [apply v3_eq_refl|reflexivity].
  - intros dts N H.
    destruct (alt_pair_run (Alt.moveToMonitor alt_failed) Alt.SIT_POS
                Alt.SIT_TARGET OpenOverlay dts) as [_ B];
      [reflexivity|exact N|].
    destruct (B H) as (_ & B2 & B3 & B4 & _).
    rewrite B4, B2, B3. split; apply lerp3_end.
Qed.

Lemma load_failure_is_survived_witness :
  console (dom (MainJs.dispatch EvLoadError MainJs.init)) =
    console (dom MainJs.init) ++
    [(LogWarn, "GLB load failed, building procedural desk instead. Error:"%string)] /\
  camera (MainJs.dispatch EvLoadError MainJs.init) = camera MainJs.init /\
  controls (MainJs.dispatch EvLoadError MainJs.init) = controls MainJs.init /\
  tweens (MainJs.dispatch EvLoadError MainJs.init) = tweens MainJs.init /\
  overlay_hidden (dom (MainJs.dispatch EvLoadError MainJs.init))
    = overlay_hidden (dom MainJs.init) /\
  monitorMesh (MainJs.dispatch EvLoadError MainJs.init) = Some MainJs.proceduralMonitor.
Proof. apply (proj1 load_failure_is_survived MainJs.init). reflexivity. Defined.

(** ** An unresolved monitor *)

(** C10.  In [src/main.js], while [monitorMesh] is null, [focusOnMonitor]
    returns the state it was given, untouched (camera pose, controls'
    enabled flag and overlay included), and so does every pick; in every
    reachable state with [monitorMesh] null the overlay is hidden and the
    view is ORBITING. *)
Theorem focus_unresolved_noop : forall s,
  monitorMesh s = None ->
  MainJs.focusOnMonitor s = s /\
  (forall hit, MainJs.onPointerDown hit s = s) /\
  (MainJs.reachable s -> overlay_visible s = false /\ view_state s = ORBITING).
Proof.
  intros s M. split; [|split].
  - unfold MainJs.focusOnMonitor. rewrite M. reflexivity.
  - intro hit. unfold MainJs.onPointerDown. rewrite M.
    destruct (nearest_hit s hit); reflexivity.
  - intro R. destruct (main_unresolved_inv s R) as [_ I].
    destruct (I M) as [O T].
    unfold view_state, in_flight, transitions, overlay_visible. rewrite T, O. auto.
Qed.

Lemma focus_unresolved_noop_witness :
  MainJs.focusOnMonitor MainJs.init = MainJs.init /\
  (forall hit, MainJs.onPointerDown hit MainJs.init = MainJs.init) /\
  (MainJs.reachable MainJs.init ->
   overlay_visible MainJs.init = false /\ view_state MainJs.init = ORBITING).
Proof. apply (focus_unresolved_noop MainJs.init). reflexivity. Defined.

(** * Further properties of the handlers *)

(** ** Pointer coordinates *)

Lemma pointer_unit : forall a o w, 0 < w -> o <= a -> a <= o + w ->
  0 <= (a - o) / w /\ (a - o) / w <= 1.
Proof.
  intros a o w W L U. split.
  - apply Qle_shift_div_l; [exact W|]. lra.
  - apply Qle_shift_div_r; [exact W|]. lra.
Qed.

(** X1.  A pointer inside the canvas rectangle gets coordinates within [-1, 1]
    on both axes; the left and top edges map to -1 and +1, the right and
    bottom edges to +1 and -1 (the vertical axis is flipped), the centre to
    the origin. *)
Theorem pointer_within_unit_square : forall clientX clientY rect,
  0 < rect_width rect -> 0 < rect_height rect ->
  (rect_left rect <= clientX -> clientX <= rect_left rect + rect_width rect ->
     -1 <= pointer_x clientX rect /\ pointer_x clientX rect <= 1) /\
  (rect_top rect <= clientY -> clientY <= rect_top rect + rect_height rect ->
     -1 <= pointer_y clientY rect /\ pointer_y clientY rect <= 1) /\
  pointer_x (rect_left rect) rect == -1 /\
  pointer_x (rect_left rect + rect_width rect) rect == 1 /\
  pointer_y (rect_top rect) rect == 1 /\
  pointer_y (rect_top rect + rect_height rect) rect == -1 /\
  pointer_x (rect_left rect + rect_width rect / 2) rect == 0 /\
  pointer_y (rect_top rect + rect_height rect / 2) rect == 0.
Proof.
  intros x y [l t w h]; simpl. intros W H. unfold pointer_x, pointer_y; simpl.
  assert (W0 : ~ w == 0) by (intro E; rewrite E in W; discriminate W).
  assert (H0 : ~ h == 0) by (intro E; rewrite E in H; discriminate H).
  split; [|split].
  - intros L U. destruct (pointer_unit x l w W L U). split; lra.
  - intros L U. destruct (pointer_unit y t h H L U). split; lra.
  - repeat split; field; assumption.
Qed.

Lemma pointer_within_unit_square_witness :
  (-1 <= pointer_x 200 (mkRect 0 0 800 600) /\ pointer_x 200 (mkRect 0 0 800 600) <= 1) /\
  (-1 <= pointer_y 150 (mkRect 0 0 800 600) /\ pointer_y 150 (mkRect 0 0 800 600) <= 1).
Proof.
  destruct (pointer_within_unit_square 200 150 (mkRect 0 0 800 600)) as (A & B & _).
  - reflexivity.
  - reflexivity.
  - split; [apply A|apply B]; simpl; discriminate.
Defined.

(** X2.  The conversion loses nothing: the client coordinates are recovered
    from the normalized ones, and a pointer further right, respectively
    further down, gets a larger [x], respectively a smaller [y]. *)
Theorem pointer_coordinates_invert : forall rect,
  0 < rect_width rect -> 0 < rect_height rect ->
  (forall clientX,
     rect_left rect + (pointer_x clientX rect + 1) / 2 * rect_width rect == clientX) /\
  (forall clientY,
     rect_top rect + (1 - pointer_y clientY rect) / 2 * rect_height rect == clientY) /\
  (forall a b, a < b -> pointer_x a rect < pointer_x b rect) /\
  (forall a b, a < b -> pointer_y b rect < pointer_y a rect).
Proof.
  intros [l t w h]; simpl. intros W H. unfold pointer_x, pointer_y; simpl.
  assert (W0 : ~ w == 0) by (intro E; rewrite E in W; discriminate W).
  assert (H0 : ~ h == 0) by (intro E; rewrite E in H; discriminate H).
  assert (M : forall o d a b, 0 < d -> a < b -> (a - o) / d < (b - o) / d).
  { intros o d a b D AB. apply Qlt_shift_div_l; [exact D|].
    setoid_replace ((a - o) / d * d) with (a - o) by (field; intro E; rewrite E in D; discriminate D).
    lra. }
  split; [|split; [|split]].
  - intro x. field. exact W0.
  - intro y. field. exact H0.
  - intros a b AB. pose proof (M l w a b W AB). lra.
  - intros a b AB. pose proof (M t h a b H AB). lra.
Qed.

Lemma pointer_coordinates_invert_witness :
  (forall clientX,
     0 + (pointer_x clientX (mkRect 0 0 800 600) + 1) / 2 * 800 == clientX) /\
  (forall clientY,
     0 + (1 - pointer_y clientY (mkRect 0 0 800 600)) / 2 * 600 == clientY).
Proof.
  destruct (pointer_coordinates_invert (mkRect 0 0 800 600)) as (A & B & _).
  - reflexivity.
  - reflexivity.
  - split; [exact A|exact B].
Defined.

(** ** What the DOM is left with *)

Section DomInvariant.

Variable openOverlay : State -> State.
Variable I : Dom -> Prop.
Hypothesis openOverlay_I : forall s, I (dom s) -> I (dom (openOverlay s)).

Lemma render_at_dom : forall props tw s,
  I (dom s) -> I (dom (fst (render_at openOverlay props tw s))).
Proof.
  intros props tw s H. unfold render_at.
  assert (U : dom (fire_update (tw_onUpdate tw)
                     (tween_write (tw_target tw)
                        (apply_props
                           (ease_at (tw_ease tw)
                              (progress (tw_elapsed tw) (tw_duration tw)))
                           props (tween_object (tw_target tw) s)) s)) = dom s).
  { destruct (tw_target tw); destruct (tw_onUpdate tw) as [[q|]|]; reflexivity. }
  destruct (Qle_bool (tw_duration tw) (tw_elapsed tw)); simpl.
  - destruct (tw_onComplete tw) as [[|]|]; simpl.
    + apply openOverlay_I. rewrite U. exact H.
    + rewrite U. exact H.
    + rewrite U. exact H.
  - rewrite U. exact H.
Qed.

Lemma render_tween_dom : forall dt tw s,
  I (dom s) -> I (dom (fst (render_tween openOverlay dt tw s))).
Proof.
  intros dt tw s H. unfold render_tween.
  destruct (tw_phase tw); [exact H|apply render_at_dom; exact H|apply render_at_dom; exact H].
Qed.

Lemma render_lazy_dom : forall tw s,
  I (dom s) -> I (dom (fst (render_lazy openOverlay tw s))).
Proof.
  intros tw s H. unfold render_lazy.
  destruct (tw_phase tw); [exact H|apply render_at_dom; exact H|exact H].
Qed.

Lemma gsap_tick_dom : forall dt s, I (dom s) -> I (dom (gsap_tick openOverlay dt s)).
Proof.
  intros dt s H. unfold gsap_tick.
  pose proof (render_each_preserves (fun a b => I (dom a) -> I (dom b))
                (render_tween openOverlay dt) (fun a X => X) (fun a b c X Y Z => Y (X Z))
                (render_tween_dom dt) (tweens s) s H) as R1.
  destruct (render_each (render_tween openOverlay dt) (tweens s) s) as [s1 met];
    simpl in R1.
  pose proof (render_each_preserves (fun a b => I (dom a) -> I (dom b))
                (render_lazy openOverlay) (fun a X => X) (fun a b c X Y Z => Y (X Z))
                render_lazy_dom met s1 R1) as R2.
  destruct (render_each (render_lazy openOverlay) met s1) as [s2 live]; simpl in *.
  exact R2.
Qed.

End DomInvariant.

Lemma main_frame_dom : forall (I : Dom -> Prop) dt s,
  (forall s0, I (dom s0) -> I (dom (MainJs.openOverlay s0))) ->
  I (dom s) -> I (dom (MainJs.frame dt s)).
Proof.
  intros I dt s O H. unfold MainJs.frame.
  destruct (main_animate_env_fields
              (gsap_tick MainJs.openOverlay dt (set_clock (clock s + dt * 1000) s)))
    as (_ & _ & A & _).
  rewrite A. apply gsap_tick_dom; assumption.
Qed.

Lemma alt_frame_dom : forall (I : Dom -> Prop) dt s,
  (forall s0, I (dom s0) -> I (dom (Alt.openOverlay s0))) ->
  I (dom s) -> I (dom (Alt.frame dt s)).
Proof.
  intros I dt s O H. unfold Alt.frame.
  change (I (dom (gsap_tick Alt.openOverlay dt (set_clock (clock s + dt * 1000) s)))).
  apply gsap_tick_dom; assumption.
Qed.

Lemma main_onPointerDown_dom : forall hit s, dom (MainJs.onPointerDown hit s) = dom s.
Proof.
  intros hit s. unfold MainJs.onPointerDown.
  destruct (nearest_hit s hit) as [o|]; [|reflexivity].
  destruct (MainJs.is_interactive (monitorMesh s) o); [|reflexivity].
  unfold MainJs.focusOnMonitor. destruct (monitorMesh s); reflexivity.
Qed.

Lemma alt_onPointerDown_dom : forall hit s, dom (Alt.onPointerDown hit s) = dom s.
Proof.
  intros hit s. unfold Alt.onPointerDown.
  destruct (negb (enabled (controls s))); [reflexivity|].
  destruct (nearest_hit s hit) as [o|]; [|reflexivity].
  destruct (Alt.is_interactive (monitorMesh s) o); reflexivity.
Qed.

Lemma main_onLoad_dom : forall asset s,
  overlay_hidden (dom (MainJs.onLoad asset s)) = overlay_hidden (dom s) /\
  hint_shown (dom (MainJs.onLoad asset s)) = hint_shown (dom s) /\
  (console (dom (MainJs.onLoad asset s)) = console (dom s) \/
   exists m, console (dom (MainJs.onLoad asset s)) = console (dom s) ++ [m]).
Proof.
  intros asset s. unfold MainJs.onLoad. simpl.
  destruct (getObjectByName asset "Screen_Plane_clickable"); simpl; eauto.
Qed.

Lemma alt_onLoad_dom : forall asset s,
  overlay_hidden (dom (Alt.onLoad asset s)) = overlay_hidden (dom s) /\
  hint_shown (dom (Alt.onLoad asset s)) = hint_shown (dom s) /\
  (console (dom (Alt.onLoad asset s)) = console (dom s) \/
   exists m, console (dom (Alt.onLoad asset s)) = console (dom s) ++ [m]).
Proof.
  intros asset s. unfold Alt.onLoad.
  assert (V : forall l s0,
            dom (fold_left (fun acc child => Alt.visit child acc) l s0) = dom s0).
  { induction l as [|c r IH]; intro s0; simpl; [reflexivity|].
    rewrite IH. unfold Alt.visit.
    destruct (isMesh c && includes (name c) "Monitor_Screen")%bool; reflexivity. }
  destruct (existsb (fun child => includes (name child) "Target_Desk") asset);
    simpl; rewrite V; eauto.
Qed.

(** X3.  In every reachable state of either variant the hint text is shown
    exactly when the overlay is hidden. *)
Theorem hint_shown_iff_overlay_hidden :
  (forall s, MainJs.reachable s -> hint_shown (dom s) = overlay_hidden (dom s)) /\
  (forall s, Alt.reachable s -> hint_shown (dom s) = overlay_hidden (dom s)).
Proof.
  split.
  - induction 1 as [|s e R IH]; [reflexivity|].
    destruct e as [hit|p t| |key|dt|asset| ]; unfold MainJs.dispatch.
    + rewrite main_onPointerDown_dom. destruct (enabled (controls s)); exact IH.
    + destruct (enabled (controls s)); exact IH.
    + destruct (overlay_hidden (dom s)) eqn:O; [rewrite O; exact IH|reflexivity].
    + unfold MainJs.onKeyDown.
      destruct (String.eqb key "Escape" && negb (overlay_hidden (dom s)))%bool;
        [reflexivity|exact IH].
    + apply (main_frame_dom (fun d => hint_shown d = overlay_hidden d));
        [reflexivity|exact IH].
    + destruct (load_pending s); [|exact IH].
      destruct (main_onLoad_dom asset (set_load_pending false s)) as (A & B & _).
      rewrite A, B. exact IH.
    + destruct (load_pending s); exact IH.
  - induction 1 as [|s e R IH]; [reflexivity|].
    destruct e as [hit|p t| |key|dt|asset| ]; unfold Alt.dispatch.
    + rewrite alt_onPointerDown_dom. exact IH.
    + destruct (enabled (controls s)); exact IH.
    + destruct (overlay_hidden (dom s)) eqn:O; [rewrite O; exact IH|reflexivity].
    + exact IH.
    + apply (alt_frame_dom (fun d => hint_shown d = overlay_hidden d));
        [reflexivity|exact IH].
    + destruct (load_pending s); [|exact IH].
      destruct (alt_onLoad_dom asset (set_load_pending false s)) as (A & B & _).
      rewrite A, B. exact IH.
    + destruct (load_pending s); exact IH.
Qed.

Lemma hint_shown_iff_overlay_hidden_witness :
  hint_shown (dom main_focused) = overlay_hidden (dom main_focused) /\
  hint_shown (dom alt_focused) = overlay_hidden (dom alt_focused).
Proof.
  destruct hint_shown_iff_overlay_hidden as [M A]. split.
  - apply M. unfold main_focused, main_ready.
    do 2 apply main_run_reachable. constructor.
  - apply A. unfold alt_focused, alt_ready.
    do 2 apply alt_run_reachable. constructor.
Defined.

Lemma dispatch_console_main : forall e s,
  (load_pending s = true -> console (dom s) = []) ->
  (List.length (console (dom s)) <= 1)%nat ->
  (load_pending (MainJs.dispatch e s) = true -> console (dom (MainJs.dispatch e s)) = []) /\
  (List.length (console (dom (MainJs.dispatch e s))) <= 1)%nat.
Proof.
  intros e s P L.
  assert (K : forall s', load_pending s' = load_pending s ->
                         console (dom s') = console (dom s) ->
            (load_pending s' = true -> console (dom s') = []) /\
            (List.length (console (dom s')) <= 1)%nat).
  { intros s' E1 E2. rewrite E1, E2. auto. }
  destruct e as [hit|p t| |key|dt|asset| ]; unfold MainJs.dispatch.
  - apply K.
    + assert (E : forall s0, load_pending (MainJs.onPointerDown hit s0) = load_pending s0).
      { intro s0. unfold MainJs.onPointerDown.
        destruct (nearest_hit s0 hit) as [o|]; [|reflexivity].
        destruct (MainJs.is_interactive (monitorMesh s0) o); [|reflexivity].
        unfold MainJs.focusOnMonitor. destruct (monitorMesh s0); reflexivity. }
      rewrite E. destruct (enabled (controls s)); reflexivity.
    + rewrite main_onPointerDown_dom. destruct (enabled (controls s)); reflexivity.
  - apply K; destruct (enabled (controls s)); reflexivity.
  - apply K; destruct (overlay_hidden (dom s)); reflexivity.
  - apply K; unfold MainJs.onKeyDown;
      destruct (String.eqb key "Escape" && negb (overlay_hidden (dom s)))%bool; reflexivity.
  - apply K.
    + unfold MainJs.frame.
      destruct (main_animate_env_fields
                  (gsap_tick MainJs.openOverlay dt (set_clock (clock s + dt * 1000) s)))
        as (_ & A & _).
      rewrite A.
      destruct (gsap_tick_env MainJs.openOverlay main_openOverlay_env dt
                  (set_clock (clock s + dt * 1000) s)) as (_ & _ & G & _).
      rewrite G. reflexivity.
    + apply (main_frame_dom (fun d => console d = console (dom s)));
        [intros s0 H; exact H|reflexivity].
  - destruct (load_pending s) eqn:LP; [|auto].
    destruct (main_onLoad_dom asset (set_load_pending false s)) as (_ & _ & C).
    assert (LF : load_pending (MainJs.onLoad asset (set_load_pending false s)) = false).
    { unfold MainJs.onLoad. simpl.
      destruct (getObjectByName asset "Screen_Plane_clickable"); reflexivity. }
    rewrite LF. split; [intro X; discriminate X|].
    change (console (dom (set_load_pending false s))) with (console (dom s)) in C.
    rewrite (P eq_refl) in C.
    destruct C as [C|[m C]]; rewrite C; simpl; lia.
  - destruct (load_pending s) eqn:LP; [|auto].
    split; [intro X; discriminate X|].
    simpl. rewrite (P eq_refl). simpl. lia.
Qed.

Lemma dispatch_console_alt : forall e s,
  (load_pending s = true -> console (dom s) = []) ->
  (List.length (console (dom s)) <= 1)%nat ->
  (load_pending (Alt.dispatch e s) = true -> console (dom (Alt.dispatch e s)) = []) /\
  (List.length (console (dom (Alt.dispatch e s))) <= 1)%nat.
Proof.
  intros e s P L.
  assert (K : forall s', load_pending s' = load_pending s ->
                         console (dom s') = console (dom s) ->
            (load_pending s' = true -> console (dom s') = []) /\
            (List.length (console (dom s')) <= 1)%nat).
  { intros s' E1 E2. rewrite E1, E2. auto. }
  destruct e as [hit|p t| |key|dt|asset| ]; unfold Alt.dispatch.
  - apply K.
    + unfold Alt.onPointerDown.
      destruct (negb (enabled (controls s))); [reflexivity|].
      destruct (nearest_hit s hit) as [o|]; [|reflexivity].
      destruct (Alt.is_interactive (monitorMesh s) o); reflexivity.
    + rewrite alt_onPointerDown_dom. reflexivity.
  - apply K; destruct (enabled (controls s)); reflexivity.
  - apply K; destruct (overlay_hidden (dom s)); reflexivity.
  - auto.
  - apply K.
    + unfold Alt.frame.
      destruct (gsap_tick_env Alt.openOverlay alt_openOverlay_env dt
                  (set_clock (clock s + dt * 1000) s)) as (_ & _ & G & _).
      change (load_pending (gsap_tick Alt.openOverlay dt
                              (set_clock (clock s + dt * 1000) s)) = load_pending s).
      rewrite G. reflexivity.
    + apply (alt_frame_dom (fun d => console d = console (dom s)));
        [intros s0 H; exact H|reflexivity].
  - destruct (load_pending s) eqn:LP; [|auto].
    destruct (alt_onLoad_dom asset (set_load_pending false s)) as (_ & _ & C).
    assert (LF : load_pending (Alt.onLoad asset (set_load_pending false s)) = false).
    { destruct (alt_onLoad_keeps asset (set_load_pending false s)) as [_ _].
      unfold Alt.onLoad.
      assert (V : forall l s0,
                load_pending (fold_left (fun acc child => Alt.visit child acc) l s0)
                = load_pending s0).
      { induction l as [|c r IH]; intro s0; simpl; [reflexivity|].
        rewrite IH. unfold Alt.visit.
        destruct (isMesh c && includes (name c) "Monitor_Screen")%bool; reflexivity. }
      destruct (existsb (fun child => includes (name child) "Target_Desk") asset);
        simpl; rewrite V; reflexivity. }
    rewrite LF. split; [intro X; discriminate X|].
    change (console (dom (set_load_pending false s))) with (console (dom s)) in C.
    rewrite (P eq_refl) in C.
    destruct C as [C|[m C]]; rewrite C; simpl; lia.
  - destruct (load_pending s) eqn:LP; [|auto].
    split; [intro X; discriminate X|].
    simpl. rewrite (P eq_refl). simpl. lia.
Qed.

(** X4.  Only the loader's callbacks write to the console, and the loader
    calls back once: in every reachable state of either variant the console
    holds at most one message, and none while the load is pending. *)
Theorem console_gets_one_message_at_most :
  (forall s, MainJs.reachable s ->
     (load_pending s = true -> console (dom s) = []) /\
     (List.length (console (dom s)) <= 1)%nat) /\
  (forall s, Alt.reachable s ->
     (load_pending s = true -> console (dom s) = []) /\
     (List.length (console (dom s)) <= 1)%nat).
Proof.
  split.
  - induction 1 as [|s e R [IH1 IH2]].
    + split; [reflexivity|simpl; lia].
    + apply dispatch_console_main; assumption.
  - induction 1 as [|s e R [IH1 IH2]].
    + split; [reflexivity|simpl; lia].
    + apply dispatch_console_alt; assumption.
Qed.

Lemma console_gets_one_message_at_most_witness :
  (List.length (console (dom main_failed)) <= 1)%nat /\
  (List.length (console (dom alt_failed)) <= 1)%nat /\
  console (dom MainJs.init) = [] /\ console (dom Alt.init) = [].
Proof.
  destruct console_gets_one_message_at_most as [M A].
  split; [|split; [|split]].
  - apply M. unfold main_failed. apply main_run_reachable. constructor.
  - apply A. unfold alt_failed. apply alt_run_reachable. constructor.
  - apply M; [constructor|reflexivity].
  - apply A; [constructor|reflexivity].
Defined.

(** X5.  Every display refresh draws exactly one frame and nothing else draws
    one, in any state of either variant and whatever events come in
    between. *)
Theorem one_frame_per_refresh :
  (forall es s, frames (MainJs.run es s) = (frames s + refreshes es)%nat) /\
  (forall es s, frames (Alt.run es s) = (frames s + refreshes es)%nat).
Proof. split; [exact main_run_frames|exact alt_run_frames]. Qed.

(** ** Variant 2: the view-state machine *)

Lemma alt_pending_is_quiet : forall s, Alt.reachable s ->
  load_pending s = true ->
  scene s = [] /\ tweens s = [] /\ overlay_hidden (dom s) = true.
Proof.
  induction 1 as [|s e R IH]; [auto|].
  destruct e as [hit|p t| |key|dt|asset| ]; unfold Alt.dispatch.
  - unfold Alt.onPointerDown.
    destruct (negb (enabled (controls s))); [exact IH|].
    destruct (nearest_hit s hit) as [o|] eqn:N; [|exact IH].
    destruct (Alt.is_interactive (monitorMesh s) o); [|exact IH].
    intro L. change (load_pending s = true) in L.
    destruct (IH L) as (S & _). unfold nearest_hit in N. rewrite S in N.
    destruct hit as [[|i]|]; discriminate N.
  - destruct (enabled (controls s)); exact IH.
  - case_eq (overlay_hidden (dom s)); intro O; [exact IH|].
    intro L. change (load_pending s = true) in L.
    destruct (IH L) as (_ & _ & O'). congruence.
  - exact IH.
  - intro L.
    assert (L' : load_pending s = true).
    { unfold Alt.frame in L.
      destruct (gsap_tick_env Alt.openOverlay alt_openOverlay_env dt
                  (set_clock (clock s + dt * 1000) s)) as (_ & _ & G & _).
      change (load_pending (gsap_tick Alt.openOverlay dt
                              (set_clock (clock s + dt * 1000) s)) = true) in L.
      rewrite G in L. exact L. }
    destruct (IH L') as (S & T & O).
    unfold Alt.frame. rewrite gsap_tick_idle by exact T. simpl. auto.
  - case_eq (load_pending s); intro LP; [|exact IH].
    intro L. exfalso.
    assert (V : forall l s0,
              load_pending (fold_left (fun acc child => Alt.visit child acc) l s0)
              = load_pending s0).
    { induction l as [|c r IHl]; intro s0; simpl; [reflexivity|].
      rewrite IHl. unfold Alt.visit.
      destruct (isMesh c && includes (name c) "Monitor_Screen")%bool; reflexivity. }
    unfold Alt.onLoad in L.
    destruct (existsb (fun child => includes (name child) "Target_Desk") asset);
      simpl in L; rewrite V in L; discriminate L.
  - case_eq (load_pending s); intro LP; [|exact IH].
    intro L. discriminate L.
Qed.

(** X6.  In every reachable state of variant 2 the orbit controls are enabled
    exactly while the view is ORBITING and the overlay shows exactly when
    it is FOCUSED. *)
Theorem alt_view_state_invariant : forall s, Alt.reachable s ->
  (enabled (controls s) = true <-> view_state s = ORBITING) /\
  (overlay_visible s = true <-> view_state s = FOCUSED).
Proof. exact alt_flags_follow_view_state. Qed.

Lemma alt_view_state_invariant_witness :
  (enabled (controls alt_focused) = true <-> view_state alt_focused = ORBITING) /\
  (overlay_visible alt_focused = true <-> view_state alt_focused = FOCUSED).
Proof.
  apply (alt_view_state_invariant alt_focused).
  unfold alt_focused, alt_ready. apply alt_run_reachable, alt_run_reachable. constructor.
Defined.

(** X7.  Variant 2 never has two transitions in flight. *)
Theorem alt_one_transition_at_most : forall s, Alt.reachable s ->
  (List.length (transitions s) <= 1)%nat.
Proof.
  intros s R. pose proof (alt_coherent s R) as C. unfold coherent in C.
  destruct (transitions s) as [|t1 [|t2 r]]; simpl; [lia|lia|contradiction].
Qed.

Lemma alt_one_transition_at_most_witness :
  (List.length (transitions (Alt.run [pick_screen; pick_screen; EvFrame 0.1; pick_screen]
                                     alt_ready)) <= 1)%nat.
Proof.
  apply alt_one_transition_at_most.
  unfold alt_ready. apply alt_run_reachable, alt_run_reachable. constructor.
Defined.

Lemma alt_pick_guarded_witness :
  view_state alt_ready = ORBITING /\
  exists o, nearest_hit alt_ready (Some 3%nat) = Some o /\
            Alt.is_interactive (monitorMesh alt_ready) o = true.
Proof.
  apply (alt_pick_guarded alt_ready (Some 3%nat)).
  - unfold alt_ready. apply alt_run_reachable. constructor.
  - vm_compute. discriminate.
Defined.

Lemma alt_busy_inert : forall s e,
  Alt.reachable s -> view_state s = TRANSITIONING ->
  (forall dt, e <> EvFrame dt) ->
  Alt.dispatch e s = s.
Proof.
  intros s e R V NF.
  pose proof (alt_coherent s R) as C.
  pose proof (alt_pending_is_quiet s R) as P.
  unfold view_state, in_flight in V. unfold coherent in C.
  assert (F : flags s = (false, true) /\ load_pending s = false).
  { destruct (transitions s) as [|t1 [|t2 r]] eqn:T.
    - destruct (overlay_visible s); discriminate V.
    - split; [exact C|]. destruct (load_pending s); [|reflexivity].
      destruct (P eq_refl) as (_ & T' & _). unfold transitions in T.
      rewrite T' in T. discriminate T.
    - contradiction. }
  destruct F as [F L]. injection F as E O.
  destruct e as [hit|p t| |key|dt|asset| ]; unfold Alt.dispatch.
  - apply alt_pick_dropped. exact E.
  - rewrite E. reflexivity.
  - rewrite O. reflexivity.
  - reflexivity.
  - exfalso. apply (NF dt). reflexivity.
  - rewrite L. reflexivity.
  - rewrite L. reflexivity.
Qed.

(** X9.  Variant 2: while a transition is in flight nothing but a display
    refresh changes the state: pointer, drag, close-button, key and
    loader events all leave it as it is. *)
Theorem alt_transition_uninterruptible : forall s e,
  Alt.reachable s -> view_state s = TRANSITIONING ->
  (forall dt, e <> EvFrame dt) ->
  Alt.dispatch e s = s.
Proof. exact alt_busy_inert. Qed.

Lemma alt_transition_uninterruptible_witness :
  Alt.dispatch EvCloseClick (Alt.run [pick_screen; EvFrame 0.1] alt_ready)
  = Alt.run [pick_screen; EvFrame 0.1] alt_ready.
Proof.
  apply alt_transition_uninterruptible.
  - unfold alt_ready. apply alt_run_reachable, alt_run_reachable. constructor.
  - reflexivity.
  - intros dt X. discriminate X.
Defined.

Lemma view_state_by_flags : forall s,
  view_state s =
  match transitions s with
  | [] => if snd (flags s) then ORBITING else FOCUSED
  | _ :: _ => TRANSITIONING
  end.
Proof.
  intro s. unfold view_state, in_flight, overlay_visible, flags. simpl.
  destruct (transitions s); [|reflexivity].
  destruct (overlay_hidden (dom s)); reflexivity.
Qed.

(** X10.  Variant 2 steps round the cycle ORBITING, TRANSITIONING (towards
    the overlay), FOCUSED, TRANSITIONING (towards the controls), ORBITING
    and in no other way: an event leaves the view state as it is, or
    starts the fly-in from ORBITING, or starts the return from FOCUSED, or
    ends the transition in flight where its completion callback leads. *)
Theorem alt_view_state_cycle : forall s e, Alt.reachable s ->
  match view_state s with
  | ORBITING =>
      view_state (Alt.dispatch e s) = ORBITING \/
      (view_state (Alt.dispatch e s) = TRANSITIONING /\
       map tw_onComplete (transitions (Alt.dispatch e s)) = [Some OpenOverlay])
  | FOCUSED =>
      view_state (Alt.dispatch e s) = FOCUSED \/
      (view_state (Alt.dispatch e s) = TRANSITIONING /\
       map tw_onComplete (transitions (Alt.dispatch e s)) = [Some EnableControls])
  | TRANSITIONING =>
      (view_state (Alt.dispatch e s) = TRANSITIONING /\
       map tw_onComplete (transitions (Alt.dispatch e s))
         = map tw_onComplete (transitions s)) \/
      (map tw_onComplete (transitions s) = [Some OpenOverlay] /\
       view_state (Alt.dispatch e s) = FOCUSED) \/
      (map tw_onComplete (transitions s) = [Some EnableControls] /\
       view_state (Alt.dispatch e s) = ORBITING)
  end.
Proof.
  intros s e R.
  pose proof (alt_coherent s R) as C. unfold coherent in C.
  assert (Same : forall s', transitions s' = transitions s -> flags s' = flags s ->
                            view_state s' = view_state s).
  { intros s' T F. rewrite !view_state_by_flags, T, F. reflexivity. }
  destruct (view_state s) eqn:V.
  - (* ORBITING *)
    rewrite view_state_by_flags in V.
    destruct (transitions s) as [|t1 r] eqn:T; [|discriminate V].
    destruct (flags s) as [en oh] eqn:F. simpl in V.
    destruct oh; [|discriminate V].
    assert (E : enabled (controls s) = true).
    { destruct C as [C|C]; [|discriminate C].
      unfold flags in F. congruence. }
    assert (O : overlay_hidden (dom s) = true) by (unfold flags in F; congruence).
    assert (Keep : forall s', transitions s' = transitions s -> flags s' = flags s ->
                              view_state s' = ORBITING).
    { intros s' T' F'. rewrite view_state_by_flags, T', F', T, F. reflexivity. }
    destruct e as [hit|p t| |key|dt|asset| ]; unfold Alt.dispatch.
    + unfold Alt.onPointerDown. rewrite E. simpl negb. cbv iota.
      destruct (nearest_hit s hit) as [o|]; [|left; apply Keep; reflexivity].
      destruct (Alt.is_interactive (monitorMesh s) o); [|left; apply Keep; reflexivity].
      right.
      assert (TM : transitions (Alt.moveToMonitor s)
                   = [alt_target_made Alt.SIT_TARGET OpenOverlay Created 0]).
      { unfold transitions. rewrite alt_moveToMonitor_tweens, filter_app.
        fold (transitions s). rewrite T. reflexivity. }
      rewrite view_state_by_flags, TM. split; reflexivity.
    + rewrite E. left. apply Keep; reflexivity.
    + rewrite O. left. apply Keep; reflexivity.
    + left. apply Keep; reflexivity.
    + left. destruct (alt_frame_callback dt s) as [A _]. destruct (A T) as [A1 A2].
      apply Keep; [rewrite A2, T; reflexivity|exact A1].
    + destruct (load_pending s); [|left; apply Keep; reflexivity].
      destruct (alt_onLoad_keeps asset (set_load_pending false s)) as [A B].
      left. apply Keep; assumption.
    + destruct (load_pending s); left; apply Keep; reflexivity.
  - (* TRANSITIONING *)
    destruct e as [hit|p t| |key|dt|asset| ];
      try (rewrite (alt_busy_inert s _ R V)
             by (intros dt0 X; discriminate X);
           left; split; [exact V|reflexivity]).
    rewrite view_state_by_flags in V.
    destruct (transitions s) as [|t1 [|t2 r]] eqn:T;
      [destruct (snd (flags s)); discriminate V| |contradiction].
    unfold Alt.dispatch.
    destruct (alt_frame_callback dt s) as [_ A].
    destruct (A t1 T) as [[A1 [tw' [A2 A3]]]|[A1 A2]].
    + left. rewrite view_state_by_flags, A2. simpl map. rewrite A3.
      split; reflexivity.
    + right. rewrite view_state_by_flags, A1, A2, C.
      assert (IT : is_transition t1 = true).
      { assert (I : In t1 (transitions s)) by (rewrite T; left; reflexivity).
        unfold transitions in I. apply filter_In in I. apply I. }
      unfold is_transition in IT. simpl map.
      destruct (tw_onComplete t1) as [[|]|]; [left|right|discriminate IT];
        split; reflexivity.
  - (* FOCUSED *)
    rewrite view_state_by_flags in V.
    destruct (transitions s) as [|t1 r] eqn:T; [|discriminate V].
    destruct (flags s) as [en oh] eqn:F. simpl in V.
    destruct oh; [discriminate V|].
    assert (E : enabled (controls s) = false).
    { destruct C as [C|C]; [discriminate C|].
      unfold flags in F. congruence. }
    assert (O : overlay_hidden (dom s) = false) by (unfold flags in F; congruence).
    assert (Keep : forall s', transitions s' = transitions s -> flags s' = flags s ->
                              view_state s' = FOCUSED).
    { intros s' T' F'. rewrite view_state_by_flags, T', F', T, F. reflexivity. }
    destruct e as [hit|p t| |key|dt|asset| ]; unfold Alt.dispatch.
    + rewrite (alt_pick_dropped hit s E). left. apply Keep; reflexivity.
    + rewrite E. left. apply Keep; reflexivity.
    + rewrite O. right.
      assert (TM : transitions (Alt.returnToOffice s)
                   = [alt_target_made Alt.WIDE_SHOT_TARGET EnableControls Created 0]).
      { unfold transitions. rewrite alt_returnToOffice_tweens, filter_app.
        fold (transitions s). rewrite T. reflexivity. }
      rewrite view_state_by_flags, TM. split; reflexivity.
    + left. apply Keep; reflexivity.
    + left. destruct (alt_frame_callback dt s) as [A _]. destruct (A T) as [A1 A2].
      apply Keep; [rewrite A2, T; reflexivity|exact A1].
    + destruct (load_pending s); [|left; apply Keep; reflexivity].
      destruct (alt_onLoad_keeps asset (set_load_pending false s)) as [A B].
      left. apply Keep; assumption.
    + destruct (load_pending s); left; apply Keep; reflexivity.
Qed.

Lemma alt_view_state_cycle_witness :
  view_state (Alt.dispatch pick_screen alt_ready) = ORBITING \/
  (view_state (Alt.dispatch pick_screen alt_ready) = TRANSITIONING /\
   map tw_onComplete (transitions (Alt.dispatch pick_screen alt_ready))
     = [Some OpenOverlay]).
Proof.
  apply (alt_view_state_cycle alt_ready pick_screen).
  unfold alt_ready. apply alt_run_reachable. constructor.
Defined.

(** ** Resolving the monitor *)

Lemma main_dispatch_inert : forall e s,
  load_pending s = false -> monitorMesh s = None -> tweens s = [] ->
  enabled (controls s) = true -> overlay_hidden (dom s) = true ->
  load_pending (MainJs.dispatch e s) = false /\
  monitorMesh (MainJs.dispatch e s) = None /\
  tweens (MainJs.dispatch e s) = [] /\
  enabled (controls (MainJs.dispatch e s)) = true /\
  dom (MainJs.dispatch e s) = dom s.
Proof.
  intros e s L M T E O.
  destruct e as [hit|p t| |key|dt|asset| ]; unfold MainJs.dispatch.
  - rewrite E. unfold MainJs.onPointerDown.
    change (monitorMesh (MainJs.onControlsStart s)) with (monitorMesh s). rewrite M.
    destruct (nearest_hit (MainJs.onControlsStart s) hit); simpl; auto.
  - rewrite E. simpl. auto.
  - rewrite O. auto.
  - unfold MainJs.onKeyDown. rewrite O, andb_false_r. auto.
  - unfold MainJs.frame. rewrite gsap_tick_idle by exact T.
    unfold MainJs.animate. simpl. rewrite E. simpl. auto.
  - rewrite L. auto.
  - rewrite L. auto.
Qed.

Lemma main_run_inert : forall es s,
  load_pending s = false -> monitorMesh s = None -> tweens s = [] ->
  enabled (controls s) = true -> overlay_hidden (dom s) = true ->
  monitorMesh (MainJs.run es s) = None /\
  tweens (MainJs.run es s) = [] /\
  enabled (controls (MainJs.run es s)) = true /\
  dom (MainJs.run es s) = dom s.
Proof.
  induction es as [|e es IH]; intros s L M T E O; [simpl; auto|].
  change (MainJs.run (e :: es) s) with (MainJs.run es (MainJs.dispatch e s)).
  destruct (main_dispatch_inert e s L M T E O) as (L' & M' & T' & E' & D').
  destruct (IH _ L' M' T' E') as (A & B & C & D); [rewrite D'; exact O|].
  rewrite D, D'. auto.
Qed.

(** X11.  [src/main.js] resolves the monitor by the exact name
    Screen_Plane_clickable alone.  A model without an object of that name,
    whatever objects named monitor_screen, monitor or screen it has,
    leaves the page inert for good: the console holds one message, an
    error, and after any further events the reference is still
    unresolved, nothing is in flight, the overlay is hidden, the controls
    are enabled and the view is ORBITING. *)
Theorem main_model_without_clickable_plane : forall asset es,
  getObjectByName asset "Screen_Plane_clickable" = None ->
  monitorMesh (MainJs.run (EvLoadOk asset :: es) MainJs.init) = None /\
  view_state (MainJs.run (EvLoadOk asset :: es) MainJs.init) = ORBITING /\
  enabled (controls (MainJs.run (EvLoadOk asset :: es) MainJs.init)) = true /\
  overlay_visible (MainJs.run (EvLoadOk asset :: es) MainJs.init) = false /\
  map fst (console (dom (MainJs.run (EvLoadOk asset :: es) MainJs.init))) = [LogError].
Proof.
  intros asset es H.
  change (MainJs.run (EvLoadOk asset :: es) MainJs.init)
    with (MainJs.run es (MainJs.dispatch (EvLoadOk asset) MainJs.init)).
  set (s0 := MainJs.dispatch (EvLoadOk asset) MainJs.init).
  assert (F : load_pending s0 = false /\ monitorMesh s0 = None /\ tweens s0 = [] /\
              enabled (controls s0) = true /\
              dom s0 = mkDom true true 0
                [(LogError,
                  "CRITICAL: Could not find object named 'Screen_Plane_clickable' in the model!"%string)]).
  { unfold s0, MainJs.dispatch. simpl load_pending. cbv iota.
    unfold MainJs.onLoad. simpl. rewrite H. simpl. auto. }
  destruct F as (L & M & T & E & D).
  destruct (main_run_inert es s0 L M T E) as (A & B & C & D');
    [rewrite D; reflexivity|].
  unfold overlay_visible. rewrite D', D. simpl.
  repeat split; try assumption.
  apply view_state_at_rest; [apply tweens_nil_transitions; exact B|].
  rewrite D', D. reflexivity.
Qed.

Lemma main_model_without_clickable_plane_witness :
  monitorMesh (MainJs.run [EvLoadOk [mkObj 5 5 "monitor_screen" true];
                           EvPointerDown (Some 1%nat); EvFrame 2] MainJs.init) = None /\
  view_state (MainJs.run [EvLoadOk [mkObj 5 5 "monitor_screen" true];
                          EvPointerDown (Some 1%nat); EvFrame 2] MainJs.init) = ORBITING.
Proof.
  destruct (main_model_without_clickable_plane
              [mkObj 5 5 "monitor_screen" true] [EvPointerDown (Some 1%nat); EvFrame 2])
    as (A & B & _).
  - reflexivity.
  - split; [exact A|exact B].
Defined.

Lemma find_first : forall (f : Object3D -> bool) pre c post,
  (forall o, In o pre -> f o = false) -> f c = true ->
  find f (pre ++ c :: post) = Some c.
Proof.
  intros f pre c post. induction pre as [|a pre IH]; intros N C; simpl.
  - rewrite C. reflexivity.
  - rewrite (N a (or_introl eq_refl)). apply IH; [|exact C].
    intros o I. apply N. right. exact I.
Qed.

(** X12.  [src/main.js] takes the first object of the model, in traversal
    order, whose name is exactly Screen_Plane_clickable, whether it is a
    mesh or not and whatever the objects before it matched of the other
    three names; nothing is logged then, and the whole model joins the
    scene behind what was there. *)
Theorem main_resolves_first_exact_name : forall pre c post s,
  (forall o, In o pre -> name o <> "Screen_Plane_clickable"%string) ->
  name c = "Screen_Plane_clickable"%string ->
  monitorMesh (MainJs.onLoad (pre ++ c :: post) s) = Some c /\
  console (dom (MainJs.onLoad (pre ++ c :: post) s)) = console (dom s) /\
  scene (MainJs.onLoad (pre ++ c :: post) s) = scene s ++ pre ++ c :: post.
Proof.
  intros pre c post s N C.
  assert (G : getObjectByName (pre ++ c :: post) "Screen_Plane_clickable" = Some c).
  { unfold getObjectByName. apply find_first.
    - intros o I. apply String.eqb_neq. apply N. exact I.
    - apply String.eqb_eq. exact C. }
  unfold MainJs.onLoad. simpl. rewrite G. simpl. auto.
Qed.

Lemma main_resolves_first_exact_name_witness :
  monitorMesh (MainJs.onLoad ([mkObj 5 5 "monitor_screen" true] ++
                              mkObj 6 6 "Screen_Plane_clickable" false ::
                              [mkObj 7 7 "Screen_Plane_clickable" true]) MainJs.init)
    = Some (mkObj 6 6 "Screen_Plane_clickable" false).
Proof.
  apply (main_resolves_first_exact_name
           [mkObj 5 5 "monitor_screen" true]
           (mkObj 6 6 "Screen_Plane_clickable" false)
           [mkObj 7 7 "Screen_Plane_clickable" true] MainJs.init).
  - intros o [E|[]]. subst o. discriminate.
  - reflexivity.
Defined.

Lemma alt_visit_fold : forall l s,
  monitorMesh (fold_left (fun acc child => Alt.visit child acc) l s) =
  or_else (hd_error (rev (filter alt_monitor_like l))) (monitorMesh s).
Proof.
  induction l as [|c r IH]; intro s; simpl; [reflexivity|].
  rewrite IH. unfold Alt.visit, alt_monitor_like at 2.
  destruct (isMesh c && includes (name c) "Monitor_Screen")%bool; simpl.
  - destruct (rev (filter alt_monitor_like r)); reflexivity.
  - reflexivity.
Qed.

Lemma alt_onLoad_monitor : forall gltf s,
  monitorMesh (Alt.onLoad gltf s) =
  or_else (hd_error (rev (filter alt_monitor_like gltf))) (monitorMesh s).
Proof.
  intros gltf s. unfold Alt.onLoad.
  destruct (existsb (fun child => includes (name child) "Target_Desk") gltf);
    simpl; apply alt_visit_fold.
Qed.

(** X13.  Variant 2 takes the last mesh of the model, in traversal order, whose
    name contains Monitor_Screen (case-sensitively): objects that are not
    meshes are passed over, a later match replaces an earlier one, and a
    model with no such mesh leaves the reference as it was. *)
Theorem alt_resolves_last_matching_mesh :
  (forall gltf s,
     (forall o, In o gltf -> alt_monitor_like o = false) ->
     monitorMesh (Alt.onLoad gltf s) = monitorMesh s) /\
  (forall pre c post s,
     alt_monitor_like c = true ->
     (forall o, In o post -> alt_monitor_like o = false) ->
     monitorMesh (Alt.onLoad (pre ++ c :: post) s) = Some c) /\
  (forall gltf s c,
     monitorMesh (Alt.onLoad gltf s) = Some c ->
     monitorMesh s = Some c \/
     (In c gltf /\ isMesh c = true /\ includes (name c) "Monitor_Screen" = true)).
Proof.
  assert (NF : forall l, (forall o, In o l -> alt_monitor_like o = false) ->
                         filter alt_monitor_like l = []).
  { induction l as [|a l IH]; intro N; simpl; [reflexivity|].
    rewrite (N a (or_introl eq_refl)). apply IH. intros o I. apply N. right. exact I. }
  split; [|split].
  - intros gltf s N. rewrite alt_onLoad_monitor, (NF gltf N). reflexivity.
  - intros pre c post s C N.
    rewrite alt_onLoad_monitor, filter_app. simpl. rewrite C, (NF post N).
    rewrite rev_app_distr. reflexivity.
  - intros gltf s c H. rewrite alt_onLoad_monitor in H.
    destruct (rev (filter alt_monitor_like gltf)) as [|a r] eqn:E; simpl in H.
    + left. exact H.
    + right. injection H as H. subst a.
      assert (I : In c (filter alt_monitor_like gltf)).
      { apply in_rev. rewrite E. left. reflexivity. }
      apply filter_In in I. destruct I as [I M].
      unfold alt_monitor_like in M. apply andb_true_iff in M. tauto.
Qed.

Lemma alt_resolves_last_matching_mesh_witness :
  monitorMesh (Alt.onLoad ([mkObj 5 5 "Monitor_Screen_A" true] ++
                           mkObj 6 6 "Monitor_Screen_B" true ::
                           [mkObj 7 7 "Monitor_Screen_C" false]) Alt.init)
    = Some (mkObj 6 6 "Monitor_Screen_B" true).
Proof.
  apply (proj1 (proj2 alt_resolves_last_matching_mesh)
           [mkObj 5 5 "Monitor_Screen_A" true]
           (mkObj 6 6 "Monitor_Screen_B" true)
           [mkObj 7 7 "Monitor_Screen_C" false] Alt.init).
  - reflexivity.
  - intros o [E|[]]. subst o. reflexivity.
Defined.

(** ** There and back *)









(** ** Variant 2: the intro animation *)

Lemma alt_visit_camera : forall l s,
  camera (fold_left (fun acc child => Alt.visit child acc) l s) = camera s /\
  controls (fold_left (fun acc child => Alt.visit child acc) l s) = controls s /\
  tweens (fold_left (fun acc child => Alt.visit child acc) l s) = tweens s.
Proof.
  induction l as [|c r IH]; intro s; simpl; [auto|].
  destruct (IH (Alt.visit c s)) as (A & B & C). rewrite A, B, C.
  unfold Alt.visit. destruct (isMesh c && includes (name c) "Monitor_Screen")%bool; auto.
Qed.

Lemma alt_onLoad_intro : forall gltf s,
  tweens (Alt.onLoad gltf s) =
    tweens s ++ [alt_intro_tween (vy (position (camera s))) 0] /\
  position (camera (Alt.onLoad gltf s)) =
    mkV3 (vx (position (camera s)))
         (lerp 50 (vy (position (camera s))) 0)
         (vz (position (camera s))) /\
  controls (Alt.onLoad gltf s) = controls s.
Proof.
  intros gltf s. unfold Alt.onLoad, gsap_from.
  destruct (alt_visit_camera gltf s) as (A & B & C).
  destruct (existsb (fun child => includes (name child) "Target_Desk") gltf);
    qsimpl; rewrite A, B, C; auto.
Qed.

Lemma alt_frame_intro_step : forall s y0 e dt,
  tweens s = [alt_intro_tween y0 e] ->
  controls (Alt.frame dt s) = controls s /\ dom (Alt.frame dt s) = dom s /\
  vx (position (camera (Alt.frame dt s))) = vx (position (camera s)) /\
  vz (position (camera (Alt.frame dt s))) = vz (position (camera s)) /\
  (Qle_bool 2 (e + dt) = false ->
     tweens (Alt.frame dt s) = [alt_intro_tween y0 (e + dt)] /\
     vy (position (camera (Alt.frame dt s))) =
       lerp 50 y0 (ease_at Power3Out ((e + dt) / 2))) /\
  (Qle_bool 2 (e + dt) = true ->
     tweens (Alt.frame dt s) = [] /\
     vy (position (camera (Alt.frame dt s))) = lerp 50 y0 (ease_at Power3Out 1)).
Proof.
  intros s y0 e dt T.
  unfold Alt.frame.
  rewrite gsap_tick_single
    by (change (Forall started (tweens s)); rewrite T;
        repeat constructor; eexists; reflexivity).
  qsimpl. rewrite T. unfold render_each.
  destruct (Qle_bool 2 (e + dt)) eqn:H.
  - erewrite render_tween_done; [|reflexivity|exact H].
    unfold Alt.animate. qsimpl. repeat split; congruence.
  - erewrite render_tween_running; [|reflexivity|exact H].
    unfold Alt.animate. qsimpl. repeat split; congruence.
Qed.

Lemma alt_intro_run : forall gltf s dts,
  tweens s = [] -> nonneg dts ->
  controls (Alt.run (map EvFrame dts) (Alt.onLoad gltf s)) = controls s /\
  overlay_hidden (dom (Alt.run (map EvFrame dts) (Alt.onLoad gltf s)))
    = overlay_hidden (dom s) /\
  vx (position (camera (Alt.run (map EvFrame dts) (Alt.onLoad gltf s))))
    = vx (position (camera s)) /\
  vz (position (camera (Alt.run (map EvFrame dts) (Alt.onLoad gltf s))))
    = vz (position (camera s)) /\
  (total dts < 2 ->
     tweens (Alt.run (map EvFrame dts) (Alt.onLoad gltf s))
       = [alt_intro_tween (vy (position (camera s))) (total dts)] /\
     (dts <> [] ->
      vy (position (camera (Alt.run (map EvFrame dts) (Alt.onLoad gltf s)))) =
        lerp 50 (vy (position (camera s))) (ease_at Power3Out (total dts / 2)))) /\
  (2 <= total dts ->
     tweens (Alt.run (map EvFrame dts) (Alt.onLoad gltf s)) = [] /\
     vy (position (camera (Alt.run (map EvFrame dts) (Alt.onLoad gltf s)))) =
       lerp 50 (vy (position (camera s))) (ease_at Power3Out 1)).
Proof.
  intros gltf s dts T. induction dts as [|dt l IH] using rev_ind; intro N.
  - change (Alt.run (map EvFrame []) (Alt.onLoad gltf s)) with (Alt.onLoad gltf s).
    destruct (alt_onLoad_intro gltf s) as (A & B & C).
    rewrite A, B, C, T.
    destruct (alt_onLoad_dom gltf s) as (D & _). rewrite D.
    repeat split; try congruence.
    all: exfalso; match goal with H : 2 <= total [] |- _ =>
                    revert H; apply Qlt_not_le; reflexivity end.
  - apply nonneg_snoc in N. destruct N as [N Hdt].
    destruct (IH N) as (I1 & I2 & I3 & I4 & I5 & I6). clear IH.
    rewrite map_app. simpl map. rewrite alt_run_snoc, total_snoc.
    unfold Alt.dispatch.
    set (s1 := Alt.run (map EvFrame l) (Alt.onLoad gltf s)) in *.
    destruct (Qlt_le_dec (total l) 2) as [Lt|Ge].
    + destruct (I5 Lt) as (T1 & _).
      destruct (alt_frame_intro_step s1 _ _ dt T1) as (S1 & S2 & S3 & S4 & R & D).
      rewrite S1, S2, S3, S4, I1, I2, I3, I4.
      do 4 (split; [reflexivity|]). split.
      * intro H. apply Qle_bool_false in H. destruct (R H) as [R1 R2].
        split; [exact R1|intros _; exact R2].
      * intro H. apply Qle_bool_iff in H. exact (D H).
    + destruct (I6 Ge) as (T1 & Y1).
      destruct (alt_frame_rest s1 dt T1) as (F1 & F2 & F3 & F4 & F5).
      rewrite F1, F2, F4, F5, I1, I2, I3, I4.
      do 4 (split; [reflexivity|]). split.
      * intro H. exfalso. lra.
      * intros _. split; [reflexivity|exact Y1].
Qed.

(** X17.  Variant 2's intro animation: when the model arrives the camera jumps
    to height 50 and glides back; with nothing else animating, after 2 s
    it stands where it stood before, and all the while its x and z, the
    controls (enabled flag and target) and the overlay are untouched, so
    a pick is accepted in the meantime. *)
Theorem alt_intro_returns_the_camera : forall gltf s dts,
  tweens s = [] -> nonneg dts ->
  controls (Alt.run (map EvFrame dts) (Alt.onLoad gltf s)) = controls s /\
  overlay_hidden (dom (Alt.run (map EvFrame dts) (Alt.onLoad gltf s)))
    = overlay_hidden (dom s) /\
  vx (position (camera (Alt.run (map EvFrame dts) (Alt.onLoad gltf s))))
    = vx (position (camera s)) /\
  vz (position (camera (Alt.run (map EvFrame dts) (Alt.onLoad gltf s))))
    = vz (position (camera s)) /\
  vy (position (camera (Alt.onLoad gltf s))) == 50 /\
  (dts <> [] -> total dts < 2 ->
     vy (position (camera (Alt.run (map EvFrame dts) (Alt.onLoad gltf s)))) =
       lerp 50 (vy (position (camera s))) (ease_at Power3Out (total dts / 2))) /\
  (2 <= total dts ->
     position (camera (Alt.run (map EvFrame dts) (Alt.onLoad gltf s)))
       =v= position (camera s) /\
     tweens (Alt.run (map EvFrame dts) (Alt.onLoad gltf s)) = []).
Proof.
  intros gltf s dts T N.
  destruct (alt_intro_run gltf s dts T N) as (A & B & C & D & E & F).
  repeat (split; [assumption|]).
  split.
  { destruct (alt_onLoad_intro gltf s) as (_ & P & _). rewrite P. simpl.
    unfold lerp. ring. }
  split.
  - intros NE Lt. destruct (E Lt) as (_ & Y). exact (Y NE).
  - intro Ge. destruct (F Ge) as (T' & Y). split; [|exact T'].
    unfold v3_eq. rewrite C, D, Y. repeat split; try reflexivity.
    apply lerp_end, ease_at_end.
Qed.

Lemma alt_intro_returns_the_camera_witness :
  position (camera (Alt.run (map EvFrame [1; 1]) (Alt.onLoad office_asset Alt.init)))
    =v= position (camera Alt.init) /\
  tweens (Alt.run (map EvFrame [1; 1]) (Alt.onLoad office_asset Alt.init)) = [].
Proof.
  destruct (alt_intro_returns_the_camera office_asset Alt.init [1; 1])
    as (_ & _ & _ & _ & _ & _ & A).
  - reflexivity.
  - repeat constructor; discriminate.
  - apply A. discriminate.
Defined.

(** ** The idle orbit, when called *)

(** X18.  [updateControlsIdle], called with the controls enabled and an idle time
    that comes to more than 1.5 s, puts the camera on the circle of
    radius 6 round the vertical axis (for a sine and cosine that satisfy
    the Pythagorean identity), keeps its height and aims it at (0, 1, 0);
    up to 1.5 s it leaves the camera alone, so right after the controls'
    [start] event a call with [dt] up to 1.5 never moves it; with the
    controls disabled it changes nothing at all. *)
Theorem idle_orbit_on_circle : forall Math_sin Math_cos,
  (forall t, Math_sin t * Math_sin t + Math_cos t * Math_cos t == 1) ->
  forall dt s,
  (enabled (controls s) = true -> 1.5 < idleTime s + dt ->
     vx (position (camera (MainJs.updateControlsIdle Math_sin Math_cos dt s))) *
     vx (position (camera (MainJs.updateControlsIdle Math_sin Math_cos dt s))) +
     vz (position (camera (MainJs.updateControlsIdle Math_sin Math_cos dt s))) *
     vz (position (camera (MainJs.updateControlsIdle Math_sin Math_cos dt s))) == 36 /\
     vy (position (camera (MainJs.updateControlsIdle Math_sin Math_cos dt s)))
       = vy (position (camera s)) /\
     look (camera (MainJs.updateControlsIdle Math_sin Math_cos dt s)) = mkV3 0 1 0) /\
  (enabled (controls s) = true -> idleTime s + dt <= 1.5 ->
     camera (MainJs.updateControlsIdle Math_sin Math_cos dt s) = camera s) /\
  (dt <= 1.5 ->
     camera (MainJs.updateControlsIdle Math_sin Math_cos dt (MainJs.onControlsStart s))
       = camera s) /\
  (enabled (controls s) = false ->
     MainJs.updateControlsIdle Math_sin Math_cos dt s = s).
Proof.
  intros Math_sin Math_cos Py dt s.
  destruct (updateControlsIdle_called Math_sin Math_cos dt s) as (A & B & C).
  split; [|split; [|split]].
  - intros E H. destruct (C E H) as (P & L & _). rewrite P, L. simpl.
    split; [|split; reflexivity].
    specialize (Py (clock s * 0.00008)).
    setoid_replace (Math_sin (clock s * 0.00008) * 6 * (Math_sin (clock s * 0.00008) * 6) +
                    Math_cos (clock s * 0.00008) * 6 * (Math_cos (clock s * 0.00008) * 6))
      with (36 * (Math_sin (clock s * 0.00008) * Math_sin (clock s * 0.00008) +
                  Math_cos (clock s * 0.00008) * Math_cos (clock s * 0.00008))) by ring.
    rewrite Py. reflexivity.
  - intros E H. apply B; assumption.
  - intro H.
    destruct (enabled (controls s)) eqn:E.
    + destruct (updateControlsIdle_called Math_sin Math_cos dt (MainJs.onControlsStart s))
        as (_ & B' & _).
      destruct B' as [B' _]; [exact E| |exact B'].
      change (idleTime (MainJs.onControlsStart s)) with 0. lra.
    + destruct (updateControlsIdle_called Math_sin Math_cos dt (MainJs.onControlsStart s))
        as (A' & _). rewrite A' by exact E. reflexivity.
  - exact A.
Qed.

Lemma idle_orbit_on_circle_witness :
  vx (position (camera (MainJs.updateControlsIdle (fun _ => 0) (fun _ => 1) 2 MainJs.init))) *
  vx (position (camera (MainJs.updateControlsIdle (fun _ => 0) (fun _ => 1) 2 MainJs.init))) +
  vz (position (camera (MainJs.updateControlsIdle (fun _ => 0) (fun _ => 1) 2 MainJs.init))) *
  vz (position (camera (MainJs.updateControlsIdle (fun _ => 0) (fun _ => 1) 2 MainJs.init)))
  == 36.
Proof.
  refine (proj1 (proj1 (idle_orbit_on_circle (fun _ => 0) (fun _ => 1) _ 2 MainJs.init)
                   _ _)).
  - intro t. reflexivity.
  - reflexivity.
  - reflexivity.
Defined.

(** ** Variant 1 with picks held back *)

Lemma main_frame_coherent : forall s dt, coherent s -> coherent (MainJs.frame dt s).
Proof.
  intros s dt C. unfold coherent in *.
  destruct (main_frame_callback dt s) as [R1 R2].
  destruct (transitions s) as [|tw [|tw2 r]] eqn:T.
  - destruct (R1 eq_refl) as [F L]. rewrite L, F. exact C.
  - destruct (R2 tw eq_refl) as [[F [tw' [L _]]]|[L F]]; rewrite L, F; [exact C|].
    rewrite C.
    assert (IT : is_transition tw = true).
    { assert (I : In tw (transitions s)) by (rewrite T; left; reflexivity).
      unfold transitions in I. apply filter_In in I. apply I. }
    unfold is_transition in IT.
    destruct (tw_onComplete tw) as [[|]|]; simpl; auto. discriminate IT.
  - contradiction.
Qed.

Lemma main_guarded_coherent : forall s, main_guarded s -> coherent s.
Proof.
  induction 1 as [|s e G IH P].
  - vm_compute. auto.
  - assert (Close : overlay_hidden (dom s) = false -> coherent (MainJs.closeBtn_click s)).
    { intro O. unfold coherent, transitions, flags in *.
      unfold MainJs.closeBtn_click, gsap_to.
      cbn -[Qle_bool Qplus Qmult Qdiv Qminus Qopp ease_at lerp filter].
      rewrite filter_app. simpl. rewrite O in IH.
      destruct (filter is_transition (tweens s)) as [|t1 [|t2 r]].
      - simpl. destruct IH as [IH|IH]; inversion IH. reflexivity.
      - inversion IH.
      - contradiction. }
    destruct e as [hit|p t| |key|dt|asset| ]; unfold MainJs.dispatch.
    + rewrite (P hit eq_refl).
      assert (C0 : coherent (MainJs.onControlsStart s)) by exact IH.
      assert (E0 : enabled (controls (MainJs.onControlsStart s)) = true)
        by exact (P hit eq_refl).
      set (s0 := MainJs.onControlsStart s) in *. clearbody s0.
      unfold MainJs.onPointerDown.
      destruct (nearest_hit s0 hit) as [o|]; [|exact C0].
      destruct (MainJs.is_interactive (monitorMesh s0) o); [|exact C0].
      unfold MainJs.focusOnMonitor. destruct (monitorMesh s0); [|exact C0].
      unfold coherent, transitions, flags in *. unfold gsap_to.
      cbn -[Qle_bool Qplus Qmult Qdiv Qminus Qopp ease_at lerp filter].
      rewrite filter_app. simpl. rewrite E0 in C0.
      destruct (filter is_transition (tweens s0)) as [|t1 [|t2 r]].
      * simpl. destruct C0 as [C0|C0]; inversion C0. reflexivity.
      * inversion C0.
      * contradiction.
    + destruct (enabled (controls s)); exact IH.
    + case_eq (overlay_hidden (dom s)); intro O; [exact IH|]. apply Close. exact O.
    + unfold MainJs.onKeyDown.
      case_eq (String.eqb key "Escape" && negb (overlay_hidden (dom s)))%bool;
        intro K; [|exact IH].
      apply Close. apply andb_true_iff in K. destruct K as [_ K].
      apply negb_true_iff in K. exact K.
    + apply main_frame_coherent. exact IH.
    + destruct (load_pending s); [|exact IH].
      unfold MainJs.onLoad. simpl.
      destruct (getObjectByName asset "Screen_Plane_clickable"); exact IH.
    + destruct (load_pending s); exact IH.
Qed.

(** X19.  [src/main.js] keeps the view-state machine together as long as no
    pointer-down arrives while the orbit controls are disabled: in every
    state reached that way the controls are enabled exactly while the view
    is ORBITING, the overlay shows exactly when it is FOCUSED, and at most
    one transition is in flight. *)
Theorem main_coherent_when_picks_wait : forall s, main_guarded s ->
  (enabled (controls s) = true <-> view_state s = ORBITING) /\
  (overlay_visible s = true <-> view_state s = FOCUSED) /\
  (List.length (transitions s) <= 1)%nat.
Proof.
  intros s G. pose proof (main_guarded_coherent s G) as C.
  unfold coherent, view_state, in_flight, overlay_visible, flags in *.
  destruct (transitions s) as [|t1 [|t2 r]]; [| |contradiction].
  - destruct C as [C|C]; injection C as E O; rewrite E, O; simpl;
      (split; [|split; [|lia]]); split; intro X; try reflexivity; try discriminate X.
  - injection C as E O. rewrite E, O. simpl.
    (split; [|split; [|lia]]); split; intro X; discriminate X.
Qed.

Lemma main_coherent_when_picks_wait_witness :
  (enabled (controls main_focused) = true <-> view_state main_focused = ORBITING) /\
  (overlay_visible main_focused = true <-> view_state main_focused = FOCUSED) /\
  (List.length (transitions main_focused) <= 1)%nat.
Proof.
  apply (main_coherent_when_picks_wait main_focused).
  change main_focused with
    (MainJs.dispatch (EvFrame 0.6)
       (MainJs.dispatch (EvFrame 0.6)
          (MainJs.dispatch pick_screen
             (MainJs.dispatch (EvLoadOk office_asset) MainJs.init)))).
  apply guarded_step; [|intros hit X; discriminate X].
  apply guarded_step; [|intros hit X; discriminate X].
  apply guarded_step; [|intros hit X; reflexivity].
  apply guarded_step; [|intros hit X; discriminate X].
  apply guarded_init.
Defined.

(** ** Nothing starts without a pick *)

Lemma main_quiet_step : forall e s,
  (forall hit, e <> EvPointerDown hit) ->
  transitions s = [] -> flags s = (true, true) ->
  transitions (MainJs.dispatch e s) = [] /\ flags (MainJs.dispatch e s) = (true, true).
Proof.
  intros e s NP T F.
  assert (O : overlay_hidden (dom s) = true) by (unfold flags in F; congruence).
  destruct e as [hit|p t| |key|dt|asset| ]; unfold MainJs.dispatch.
  - exfalso. apply (NP hit). reflexivity.
  - destruct (enabled (controls s)); auto.
  - rewrite O. auto.
  - unfold MainJs.onKeyDown. rewrite O, andb_false_r. auto.
  - destruct (main_frame_callback dt s) as [R1 _].
    destruct (R1 T) as [F' L']. rewrite L', F'. auto.
  - destruct (load_pending s); [|auto].
    unfold MainJs.onLoad. simpl.
    destruct (getObjectByName asset "Screen_Plane_clickable"); auto.
  - destruct (load_pending s); auto.
Qed.

Lemma alt_quiet_step : forall e s,
  (forall hit, e <> EvPointerDown hit) ->
  transitions s = [] -> flags s = (true, true) ->
  transitions (Alt.dispatch e s) = [] /\ flags (Alt.dispatch e s) = (true, true).
Proof.
  intros e s NP T F.
  assert (O : overlay_hidden (dom s) = true) by (unfold flags in F; congruence).
  destruct e as [hit|p t| |key|dt|asset| ]; unfold Alt.dispatch.
  - exfalso. apply (NP hit). reflexivity.
  - destruct (enabled (controls s)); auto.
  - rewrite O. auto.
  - auto.
  - destruct (alt_frame_callback dt s) as [R1 _].
    destruct (R1 T) as [F' L']. rewrite L', F'. auto.
  - destruct (load_pending s); [|auto].
    destruct (alt_onLoad_keeps asset (set_load_pending false s)) as [A B].
    rewrite A, B. auto.
  - destruct (load_pending s); auto.
Qed.

(** X20.  In either variant nothing but a pointer-down starts a transition or
    opens the overlay: from the initial state, after any events among
    which there is no pointer-down, no transition is in flight, the
    controls are enabled, the overlay is hidden and the view is
    ORBITING. *)
Theorem nothing_starts_without_a_pick : forall es,
  Forall (fun e => forall hit, e <> EvPointerDown hit) es ->
  (transitions (MainJs.run es MainJs.init) = [] /\
   enabled (controls (MainJs.run es MainJs.init)) = true /\
   overlay_visible (MainJs.run es MainJs.init) = false /\
   view_state (MainJs.run es MainJs.init) = ORBITING) /\
  (transitions (Alt.run es Alt.init) = [] /\
   enabled (controls (Alt.run es Alt.init)) = true /\
   overlay_visible (Alt.run es Alt.init) = false /\
   view_state (Alt.run es Alt.init) = ORBITING).
Proof.
  intros es NP.
  assert (Fin : forall s, transitions s = [] -> flags s = (true, true) ->
            transitions s = [] /\ enabled (controls s) = true /\
            overlay_visible s = false /\ view_state s = ORBITING).
  { intros s T F. unfold flags in F. injection F as E O.
    unfold overlay_visible. rewrite O. repeat split; try assumption.
    apply view_state_at_rest; assumption. }
  split.
  - assert (M : forall s, transitions s = [] -> flags s = (true, true) ->
              transitions (MainJs.run es s) = [] /\ flags (MainJs.run es s) = (true, true)).
    { induction NP as [|e es NE NP IH]; intros s T F; [auto|].
      change (MainJs.run (e :: es) s) with (MainJs.run es (MainJs.dispatch e s)).
      destruct (main_quiet_step e s NE T F). apply IH; assumption. }
    destruct (M MainJs.init eq_refl eq_refl). apply Fin; assumption.
  - assert (M : forall s, transitions s = [] -> flags s = (true, true) ->
              transitions (Alt.run es s) = [] /\ flags (Alt.run es s) = (true, true)).
    { induction NP as [|e es NE NP IH]; intros s T F; [auto|].
      change (Alt.run (e :: es) s) with (Alt.run es (Alt.dispatch e s)).
      destruct (alt_quiet_step e s NE T F). apply IH; assumption. }
    destruct (M Alt.init eq_refl eq_refl). apply Fin; assumption.
Qed.

Lemma nothing_starts_without_a_pick_witness :
  view_state (MainJs.run [EvLoadOk office_asset; EvKeyDown "Escape"; EvCloseClick;
                          EvFrame 3] MainJs.init) = ORBITING /\
  view_state (Alt.run [EvLoadOk office_asset; EvKeyDown "Escape"; EvCloseClick;
                       EvFrame 3] Alt.init) = ORBITING.
Proof.
  destruct (nothing_starts_without_a_pick
              [EvLoadOk office_asset; EvKeyDown "Escape"; EvCloseClick; EvFrame 3])
    as ((_ & _ & _ & A) & (_ & _ & _ & B)).
  - repeat constructor; intros hit X; discriminate X.
  - split; [exact A|exact B].
Defined.
